(* ===== verification/_CoqProject ===== *)
-Q . S2P
Prelude.v
JsValue.v
Hex.v
Json.v
JsonParse.v
JsonRoundTrip.v
Promise.v
World.v
Config.v
Payload.v
Publish.v
Delivery.v
Recall.v
Order.v
Alias.v
Send.v
Receiver.v
Concurrent.v
Transport.v
Compiled.v
Loader.v
