(* ===== verification/Prelude.v ===== *)
(** * A verification development for the SNS push adapter

    The program is the SNS adapter of parse-server-push-adapter: one
    JavaScript module, [src/src/SNS.js], and its transpiled copy
    [src/lib/SNS.js].  It turns one push request and a list of devices into
    one [sns.publish] call per device and joins the per-device promises with
    [Parse.Promise.when].

    ** The parts of the program and the files that model them

    - [Prelude] (this file): completion records ([Normal] / [Throw]) with
      their bind notation, the state-and-exception monad [eff] in which the
      stateful code is written (the state survives a throw, as a JavaScript
      heap does), the development's tactics, the hint databases [js] and
      [js_rw], and the facts on lists, strings and decimal numerals the
      other files share.
    - [JsValue]: the JavaScript values the adapter handles ([value]:
      undefined, null, booleans, integral numbers, strings, Buffers, arrays,
      plain objects), with the language operations the source uses on them:
      [typeof], [truthy] (ToBoolean), [get] (property read, a TypeError on
      undefined and null), [loose_neq_null] ([!= null]), [js_or] ([||]),
      [to_string] (ToString).
    - [Hex]: [Buffer.prototype.toString('hex')] ([hex_of_bytes]) with its
      decoder and the round trip, and [toString_hex], the method call
      [x.toString('hex')] on an arbitrary [value].
    - [Json]: [JSON.stringify] on [value] ([stringify]): undefined at top
      level yields undefined, undefined properties are skipped, undefined
      array elements print as null, strings are quoted with the JSON
      escapes, Buffers print through their toJSON form.
    - [JsonParse]: [JSON.parse] ([parse]), the reader of what [stringify]
      writes: a recursive descent on fuel with the grammar's white space,
      the string escapes, integer numbers, and objects in which a repeated
      key keeps its place and takes its last value.
    - [JsonRoundTrip]: [plain v], the value
      [JSON.parse(JSON.stringify(v))] returns, and the proof that [parse]
      reads what [stringify] writes.
    - [Promise]: Parse.Promise as the source uses it: cells that are
      pending, resolved or rejected, [promise_resolve] that throws on a
      completed cell, and [promise_when], the join that fills one slot per
      input promise and resolves the aggregate when its countdown reaches
      zero.
    - [World]: the state the adapter runs in ([world]: the shared AWS
      configuration, the clock and the entropy of the random identifier, the
      promise heap, the publish calls in flight, the log, the exceptions
      that left a callback, the global scope) and the collaborators it calls
      ([Collaborators]: the GCM and APNS encoders and [randomString], as a
      class with its law).
    - [Config]: the constructor [SNS(args)], [src/src/SNS.js] lines 13-25,
      called with [new] ([SNS]) and, under the strict mode of line 1,
      without it ([SNS_call]).
    - [Payload]: [generatePayload] and [generateMessageAttributes], lines
      28-56.
    - [Publish]: [publishToSNS], lines 67-105: the parameters of the publish
      call ([publishParams]) and the completion callback
      ([publishCallback]) with both of its branches.
    - [Delivery]: what happens after [send] has returned: [deliver], the
      SDK calling the callback of one request in flight, the relation
      [step] of all such calls, and the invariant [tracks] of one call of
      [send].
    - [Recall]: the SDK calling a callback again after its request has
      left the transport ([recall]), and the runs [restep] in which first
      and repeated calls interleave.
    - [Order]: the abstract machine of per-device states that a call
      implements ([abstract_step]) and the equivalence of worlds up to the
      order of the log ([world_equiv]), under which completions commute.
    - [Alias]: the devices as objects of the caller: [reassign], an
      assignment to a device object while its request is in flight, which
      the callback sees (lines 80-81 read the object again) and the
      parameters do not (line 73 has read the token).
    - [Send]: [SNS.prototype.send], lines 114-122, called on an adapter
      with an array of devices, and the theorems that follow a call of
      [send] through the callbacks.
    - [Receiver]: the same function for every receiver and every second
      argument: [this_sns] is the read of [this.sns] in the callback of
      [devices.map] (line 119), [send_from] the body of [send] for any
      [this], [send_call] the call on any value as [devices].
    - [Concurrent]: several calls of [send] on one adapter: the relation
      [move] of the calls of [send], returning or throwing, and of the
      completions of requests, in any interleaving, and the invariant
      [tracked_all] of all calls in progress and of the requests that a
      call that threw has left behind.
    - [Transport]: the readers of the structured message: the transport
      parsing the Message of a publish call ([entries]) and picking the
      entry of a platform family or the [default] entry ([route]), and the
      platform parsing that entry ([received]); [payload_of] is the
      payload [generatePayload] serializes under each key.
    - [Compiled]: the helpers [_typeof] and [_interopRequireDefault],
      the two constants and the constructor of the transpiled
      [src/lib/SNS.js] with its object literal ([config_of_args_lib]),
      and their agreement with the source module.
    - [Loader]: the module level of [src/lib/SNS.js] (lines 3-5, 9-31, 132
      and 144-145; [src/src/SNS.js] lines 3-8 and 125-126): the
      [__esModule] mark, the six imports, the assignment of
      [SNS.prototype.send] and the two exports, run by [load] on a store of
      objects with identity ([loader]) in which [exports] and
      [module.exports] are one object until line 144.

    ** How state and operations correspond to the code

    A JavaScript function that can throw is a function into [completion];
    one that also reads or writes the heap, the log or the SDK's shared
    configuration is a function into [eff world].  Every guard of the source
    is a [match] or [if] of the model on the same condition, evaluated in the
    source's order, so an exception raised half way leaves exactly the
    effects the source has performed by then.  A property is read as often
    as the source reads it.  A free identifier of the source ([arn] in the
    error branch of the callback) is looked up in [w_globals]; it throws a
    ReferenceError when the global scope does not bind it.

    [this] is an argument: an adapter for the theorems of [Send], any
    [Receiver.receiver] for the method as a caller may invoke it.  A
    device is the object the caller passed: the request in flight holds it
    for the callback ([rq_device]), and [Alias.reassign] is the caller
    writing to it.

    The transport is not modelled: it is the environment.  A publish call
    adds a request to [w_inflight] with the variables its callback closes
    over; [deliver k err data] is the SDK invoking the callback of request
    [k] with an arbitrary [(err, data)], and takes the request out of
    flight, so in the runs of [Delivery.step] each request is completed at
    most once, which is the transport's contract.  [Recall.recall] is a
    further call of the same closure, for the runs in which the transport
    breaks that contract.  An exception that leaves a callback is
    recorded in [w_uncaught].

    The message of a publish call is text.  [Transport] reads it with
    [JsonParse.parse], whose result is [None] for a SyntaxError and for a
    text outside the values of the model.  The family a message is routed
    to is an argument of [Transport.route].

    Calls of [send] share the heap and the list of requests: a call takes
    the next free promises, requests and join ([Send.dispatch_of]), and
    [Concurrent.move] lets calls and completions alternate freely.

    At module level an object has identity: [Loader.mvalue] is a value of
    the development or a reference into the store of [Loader.loader], a
    property write is [Loader.write_prop] on a location, and [require]
    reads the registry of the modules that are loaded.

    ** What the theorems show

    - Constructor ([Config], [Compiled]): the constructor on every
      input ([Config.SNS_total]): which configurations are accepted, that
      a rejected one raises PUSH_MISCONFIGURED and leaves the shared
      configuration alone, the default region, that [null] raises a
      TypeError instead, that the configuration is shared between adapters,
      that a call without [new] replaces the shared configuration and then
      throws, and that the transpiled constructor is the source's.
    - Payload ([Payload]): the six keys in order, APNS and APNS_SANDBOX
      equal, the ADM wrapping, when WNS and default are strings and when
      they are undefined, propagation of the encoders' exceptions, agreement
      of two runs on every entry but GCM.
    - One delivery ([Publish]): one request and one pending promise per
      device, the parameters of the request, the callback's outcome on
      success and on failure, the ReferenceError when [arn] is unbound, the
      hex form of the token and that it identifies the device, and that an
      outcome is written once.
    - The whole call ([Delivery], [Order], [Send]): what [send] leaves
      behind; that the aggregate is resolved with one outcome per device in
      device order when every callback resolves its promise, whatever the
      order of the completions; that it is never resolved early; that a
      failed delivery with [arn] unbound leaves it pending for ever; that
      the callback of one device leaves the others alone; that every
      callback is one step of the abstract machine (refinement); that the
      order of the completions changes nothing but the order of the log;
      that every run of callbacks ends; what [send] does on a null
      intent, a null device and an empty list of devices; and that every
      request [send] adds is the request of one of its devices on the
      client the constructor created, under the constructor's
      credentials, with the two WNS attributes whatever the intent
      ([Send.adapter_requests]).
    - The call as the caller makes it ([Receiver], [Alias]): on an
      adapter [send_from] is [send]; a call detached from its adapter
      throws a TypeError at the first device, before anything is
      allocated, and succeeds when there is no device; a receiver without
      a client throws after the promise of the first device has been
      created; a second argument that is neither an array nor a Buffer
      throws after the payload has been built.  An assignment to a device
      object in flight changes the outcome and not the delivery: the run
      continues as the run of a call made with the new device.
    - JSON ([JsonParse], [JsonRoundTrip]): [parse] after [stringify]
      gives the image [plain v] of every well-formed value, with nothing
      left over ([JsonRoundTrip.parse_serialize], by induction on the
      value with one lemma per reader: digits, quoted strings, sequences,
      members); what [parse] returns holds no [undefined], no Buffer and
      no repeated key; [stringify] is injective on such values; and the
      result of a parse does not depend on the fuel above the length of
      the text.
    - The message at its readers ([Transport]): the parameters of a
      publish call parse back to the image of the payload; from what
      [send] puts in flight every key of the bundle receives the image of
      what the encoders returned or of the application data, after two
      parses; a family without a key of its own receives the [default]
      entry; and for an intent without data there is no WNS and no
      [default] entry to route.
    - Repeated callbacks ([Recall]): a further call for a device that has
      its outcome changes neither the heap nor the requests and ends in
      one exception; by rule induction on [restep], no outcome is ever
      replaced, a resolved aggregate stays resolved with the same
      outcomes and is never resolved early; a device whose first callback
      threw is completed by a later call that reaches [promise.resolve].
    - Several calls ([Concurrent]): by rule induction on [move], every
      call in progress stays tracked and apart from the others, whatever
      is sent, whether it returns or throws, and whatever is completed; so
      the promise of a call is decided by its own
      devices (resolved with their outcomes in order, or pending with one
      of them pending), a call among others is a run of the abstract
      machine of its own devices, and a failure with [arn] unbound blocks
      the call it belongs to and no other.
    - Bounds ([Send], [Concurrent], [Delivery], [Promise]): [send]
      allocates one promise per device and one join, the callbacks
      allocate nothing, no more requests are in flight than were handed
      over, and the countdown of a join stays between zero and the number
      of devices and is zero exactly where the join is resolved.
    - The module ([Loader]): with its dependencies loaded,
      [require('./SNS')] is the constructor, with [send] on its prototype;
      a transpiled importer gets the same function through
      [_interopRequireDefault]; the [default] export of line 145 and the
      mark of lines 3-5 land on an object no importer sees; a missing
      dependency throws the error of the first [require] that fails and
      nothing is registered.

    Each theorem with hypotheses is applied to a concrete input by a
    witness, built from the intent and the two devices of the
    specification's example.

    ** Bounds and fuel

    The adapter's own code uses no fuel: [stringify] is structural on
    [value], [send] is a fold over the list of devices, and the
    asynchronous part is a step function applied to a finite list of
    events.  [JsonParse.parse_value] is the one definition on fuel, one
    unit per nested value and per item of a sequence; [parse s] starts it
    with [S (length s)], and every reader consumes at least one character,
    so the fuel cannot run out before the text does:
    [JsonParse.parse_value_fuel] shows that any two amounts above the
    length of the text give the same result.  Numbers are integers
    ([Z]); their decimal form is JavaScript's for magnitudes below 10^21,
    which covers timestamps and every integer a JSON document of a push
    request holds.  Strings are sequences of code units below 256.  The
    countdown of a join is an integer ([Z]) as in the code, which
    decrements it without a test; [Concurrent.concurrent_bounds] shows that
    it stays in [0, n] for [n] devices.  Runs are of any length: [rtc] of
    [Delivery.step], of [Recall.restep] and of [Concurrent.move].

    ** What is not modelled

    Functions and symbols as data values, objects with a callable [toJSON]
    or accessor properties, the prototype chain beyond the methods the
    source calls ([map] on an array, [toString]), [send] on a Buffer of
    devices (a Buffer is a typed array: its [map] calls the function on
    the bytes and keeps numbers, and [Receiver.send_call] is [None]
    there), floating point numbers,
    the text of log lines (a log entry records the values passed), the
    network behaviour of the AWS SDK (what makes it call a callback, once
    or again), then-chains made by the caller on the promise [send]
    returns, and the GCM and APNS encoders, which are a class of the
    development and not definitions of it: their code is not under [src/],
    and the specification gives their interface only.  [JsonParse.parse]
    reads numbers in integer notation and [\u] escapes below 0100 only,
    and lists the keys of an object in the order of the text, which is
    JavaScript's order when no key is an array index.  How the transport
    finds the platform family of a target address is not in the sources:
    [Transport.route] takes the family as an argument.  A constructor
    called without [new] in sloppy mode is not modelled: line 1 makes the
    module strict.  In [Loader], the dependencies are taken as
    loaded, so loading on demand and cycles between modules are not
    modelled, and a defined property is a plain property (its attributes
    are not kept). *)

From stdpp Require Import base option list strings pretty.
From Stdlib Require Import Ascii.

Declare Scope js_scope.
Delimit Scope js_scope with js.
Open Scope js_scope.

(** ** Completion records *)

(** The result of evaluating JavaScript code: a normal completion with a
    value, or a throw completion with the thrown exception. *)
Inductive completion (E A : Type) : Type :=
| Normal (a : A)
| Throw (e : E).
Arguments Normal {E A} a.
Arguments Throw {E A} e.

Definition cbind {E A B} (c : completion E A) (k : A -> completion E B) : completion E B :=
  match c with
  | Normal a => k a
  | Throw e => Throw e
  end.

Definition cmap {E A B} (f : A -> B) (c : completion E A) : completion E B :=
  cbind c (fun a => Normal (f a)).

Definition is_normal {E A} (c : completion E A) : bool :=
  match c with Normal _ => true | Throw _ => false end.

Notation "x <- c ;; k" := (cbind c (fun x => k))
  (at level 20, c at level 99, k at level 200, only parsing) : js_scope.

(** ** State that survives exceptions *)

(** Stateful JavaScript: a computation reads and writes a state [S] and
    completes normally or by a throw.  Unlike a transaction, the writes made
    before a throw stay. *)
Definition eff (S E A : Type) : Type := S -> completion E A * S.

Definition eret {S E A} (a : A) : eff S E A := fun s => (Normal a, s).

Definition ethrow {S E A} (e : E) : eff S E A := fun s => (Throw e, s).

Definition ebind {S E A B} (c : eff S E A) (k : A -> eff S E B) : eff S E B :=
  fun s =>
    match c s with
    | (Normal a, s') => k a s'
    | (Throw e, s') => (Throw e, s')
    end.

Definition elift {S E A} (c : completion E A) : eff S E A := fun s => (c, s).

Definition eget {S E} : eff S E S := fun s => (Normal s, s).

Definition emodify {S E} (f : S -> S) : eff S E unit := fun s => (Normal tt, f s).

Notation "x <~ c ;; k" := (ebind c (fun x => k))
  (at level 20, c at level 99, k at level 200, only parsing) : js_scope.
Notation "'run' c ;; k" := (ebind c (fun _ => k))
  (at level 20, c at level 99, k at level 200, only parsing) : js_scope.

(** [Array.prototype.map] with an effectful callback: the elements are
    visited from left to right and the first throw stops the loop, keeping
    the effects of the calls already made. *)
Fixpoint emapM {S E A B} (f : A -> eff S E B) (l : list A) : eff S E (list B) :=
  match l with
  | [] => eret []
  | x :: l' => y <~ f x ;; ys <~ emapM f l' ;; eret (y :: ys)
  end.

(** ** Tactics and hints *)

Create HintDb js discriminated.
Create Rewrite HintDb js_rw.

(** Case analysis on the completion that blocks the goal or a hypothesis. *)
Ltac case_completion :=
  cbn [cbind] in *;
  match goal with
  | |- context [cbind ?c _] => destruct c eqn:?; cbn [cbind] in *
  | H : context [cbind ?c _] |- _ => destruct c eqn:?; cbn [cbind] in *
  end.

(** Unfold the monad down to pairs and matches. *)
Ltac unfold_eff :=
  unfold ebind, eret, ethrow, elift, eget, emodify, cmap, cbind in *.

(** ** Laws of the two monads *)

Section completion_laws.
Context {E A B C : Type}.
Implicit Types (c : completion E A) (a : A).

Lemma cbind_normal a (k : A -> completion E B) : cbind (Normal a) k = k a.
Proof. reflexivity. Qed.

Lemma cbind_throw e (k : A -> completion E B) : cbind (Throw e) k = Throw e.
Proof. reflexivity. Qed.

Lemma cbind_ret c : cbind c Normal = c.
Proof. by destruct c. Qed.

Lemma cbind_assoc c (k : A -> completion E B) (h : B -> completion E C) :
  cbind (cbind c k) h = cbind c (fun a => cbind (k a) h).
Proof. by destruct c. Qed.

Lemma cbind_Normal_inv c (k : A -> completion E B) b :
  cbind c k = Normal b -> exists a, c = Normal a /\ k a = Normal b.
Proof. destruct c; naive_solver. Qed.

Lemma cbind_Throw_inv c (k : A -> completion E B) e :
  cbind c k = Throw e -> c = Throw e \/ exists a, c = Normal a /\ k a = Throw e.
Proof. destruct c; naive_solver. Qed.

End completion_laws.

Section eff_laws.
Context {S E A B C : Type}.
Implicit Types (c : eff S E A) (s : S).

Lemma ebind_eret a (k : A -> eff S E B) s : ebind (eret a) k s = k a s.
Proof. reflexivity. Qed.

Lemma ebind_ethrow e (k : A -> eff S E B) s : ebind (ethrow e) k s = (Throw e, s).
Proof. reflexivity. Qed.

Lemma ebind_ret_r c s : ebind c eret s = c s.
Proof. unfold ebind, eret. by destruct (c s) as [[] ?]. Qed.

Lemma ebind_assoc c (k : A -> eff S E B) (h : B -> eff S E C) s :
  ebind (ebind c k) h s = ebind c (fun a => ebind (k a) h) s.
Proof. unfold ebind. by destruct (c s) as [[] ?]. Qed.

Lemma ebind_Normal c (k : A -> eff S E B) s a s' :
  c s = (Normal a, s') -> ebind c k s = k a s'.
Proof. unfold ebind. by intros ->. Qed.

Lemma ebind_Throw c (k : A -> eff S E B) s e s' :
  c s = (Throw e, s') -> ebind c k s = (Throw e, s').
Proof. unfold ebind. by intros ->. Qed.

(** Two binds agree in a state where their first parts agree and their
    continuations agree everywhere. *)
Lemma ebind_ext c c' (k k' : A -> eff S E B) s :
  c s = c' s -> (forall a s', k a s' = k' a s') -> ebind c k s = ebind c' k' s.
Proof. unfold ebind. intros <- Hk. by destruct (c s) as [[] ?]. Qed.

Lemma ebind_elift_Normal a (k : A -> eff S E B) s :
  ebind (elift (Normal a)) k s = k a s.
Proof. reflexivity. Qed.

Lemma ebind_elift_Throw e (k : A -> eff S E B) s :
  ebind (elift (Throw e)) k s = (Throw e, s).
Proof. reflexivity. Qed.

Lemma ebind_elift (c : completion E A) (k : A -> eff S E B) s :
  ebind (elift c) k s = match c with Normal a => k a s | Throw e => (Throw e, s) end.
Proof. unfold ebind, elift. by destruct c. Qed.

Lemma ebind_emodify (f : S -> S) (k : unit -> eff S E B) s :
  ebind (emodify f) k s = k tt (f s).
Proof. reflexivity. Qed.

End eff_laws.

#[export] Hint Rewrite @cbind_normal @cbind_throw @cbind_ret : js_rw.
#[export] Hint Rewrite @ebind_eret @ebind_ethrow @ebind_elift_Normal
  @ebind_elift_Throw @ebind_emodify : js_rw.

(** ** Lists *)

Section list_facts.
Context {A B : Type}.
Implicit Types (l : list A) (i j : nat).

Lemma list_lookup_snoc l (x : A) : (l ++ [x]) !! length l = Some x.
Proof. by rewrite lookup_app_r, Nat.sub_diag. Qed.

Lemma list_lookup_snoc_lt l (x : A) i : i < length l -> (l ++ [x]) !! i = l !! i.
Proof. intros. by apply lookup_app_l. Qed.

Lemma omap_cons (f : A -> option B) x l :
  omap f (x :: l) = match f x with Some y => y :: omap f l | None => omap f l end.
Proof. reflexivity. Qed.

Lemma omap_length_le (f : A -> option B) l : length (omap f l) <= length l.
Proof.
  induction l as [|x l IH]; [done|]. rewrite omap_cons.
  destruct (f x); simpl; lia.
Qed.

(** A loop over a list either finds all its elements passing a test or
    stops at the first that fails it. *)
Lemma Forall_or_first (p : A -> bool) l :
  Forall (fun x => p x = true) l
  \/ exists before x after,
       l = before ++ x :: after /\ Forall (fun x => p x = true) before /\ p x = false.
Proof.
  induction l as [|x l [IH|(before & y & after & -> & Hbefore & Hy)]]; [by left|..].
  - destruct (p x) eqn:Hx; [left; by constructor|]. right. by exists [], x, l.
  - destruct (p x) eqn:Hx; right; [|by exists [], x, (before ++ y :: after)].
    exists (x :: before), y, after. split_and!; [done|by constructor|done].
Qed.

Lemma emapM_ext {S E} (f g : A -> eff S E B) l (s : S) :
  (forall x s', f x s' = g x s') -> emapM f l s = emapM g l s.
Proof.
  intros Hfg. revert s. induction l as [|x l IH]; intros s; [done|]. simpl.
  apply ebind_ext; [done|]. intros y s1. by apply ebind_ext.
Qed.

(** A successful effectful map returns one result per element. *)
Lemma emapM_length {S E} (f : A -> eff S E B) l (s s' : S) ys :
  emapM f l s = (Normal ys, s') -> length ys = length l.
Proof.
  revert s ys. induction l as [|x l IH]; intros s ys; simpl.
  - unfold eret. naive_solver.
  - unfold ebind at 1. destruct (f x s) as [[y|e] s1]; [|done].
    unfold ebind at 1. destruct (emapM f l s1) as [[zs|e] s2] eqn:Hl; [|done].
    unfold eret. intros [= <- <-]. simpl. f_equal. eauto.
Qed.

(** Overwriting an element that satisfies [P] by one that does not leaves
    one element fewer that satisfies [P]. *)
Lemma length_filter_insert (P : A -> Prop) `{!forall x, Decision (P x)} (l : list A) i x y :
  l !! i = Some x -> P x -> ~ P y ->
  S (length (filter P (<[i := y]> l))) = length (filter P l).
Proof.
  revert i. induction l as [|a l IH]; intros [|i] Hi HP HnP; simplify_eq/=.
  - rewrite !filter_cons. by destruct (decide (P y)), (decide (P x)).
  - rewrite !(filter_cons _ a). destruct (decide (P a)); simpl; by erewrite IH.
Qed.

(** A filter keeps a list all of whose elements pass. *)
Lemma forallb_Forall (p : A -> bool) l :
  forallb p l = true <-> Forall (fun x => p x = true) l.
Proof.
  rewrite forallb_forall, Forall_forall. by setoid_rewrite list_elem_of_In.
Qed.

Lemma filter_Forall (P : A -> Prop) `{!forall x, Decision (P x)} (l : list A) :
  Forall P l -> filter P l = l.
Proof. induction 1 as [|x l HP _ IH]; [done|]. by rewrite filter_cons_True, IH. Qed.

End list_facts.

#[export] Hint Resolve list_lookup_snoc : js.

(** ** Strings *)

Section string_facts.
Implicit Types (s t u : string).

Lemma string_app_cons c s t : String c s +:+ t = String c (s +:+ t).
Proof. reflexivity. Qed.

Lemma string_app_nil_l s : "" +:+ s = s.
Proof. reflexivity. Qed.

Lemma string_app_nil_r s : s +:+ "" = s.
Proof. induction s; rewrite ?string_app_cons; [done | congruence]. Qed.

Lemma string_app_assoc s t u : (s +:+ t) +:+ u = s +:+ t +:+ u.
Proof. induction s; rewrite ?string_app_cons; [done | congruence]. Qed.

Lemma string_app_length s t :
  String.length (s +:+ t) = String.length s + String.length t.
Proof. induction s; rewrite ?string_app_cons; simpl; [done | by f_equal]. Qed.

(** Joining with the empty separator is concatenation. *)
Lemma string_concat_nil_cons s (l : list string) :
  String.concat "" (s :: l) = s +:+ String.concat "" l.
Proof. destruct l; simpl; [by rewrite string_app_nil_r | done]. Qed.

(** Joining with a separator, one element at a time. *)
Lemma string_concat_cons sep s t (l : list string) :
  String.concat sep (s :: t :: l) = s +:+ sep +:+ String.concat sep (t :: l).
Proof. reflexivity. Qed.

End string_facts.

(** ** Decimal numerals *)

Definition is_digit (c : ascii) : bool :=
  bool_decide (48 <= N_of_ascii c <= 57)%N.

(** The strings made of decimal digits only. *)
Fixpoint digits (s : string) : bool :=
  match s with
  | "" => true
  | String c rest => is_digit c && digits rest
  end.

Lemma pretty_N_char_digit x : is_digit (pretty_N_char x) = true.
Proof. unfold pretty_N_char. by repeat case_match. Qed.

Lemma pretty_N_go_digits x s : digits s = true -> digits (pretty_N_go x s) = true.
Proof.
  revert s. induction (N.lt_wf_0 x) as [x _ IH]; intros s Hs.
  destruct (decide (x = 0%N)) as [->|]; [by rewrite pretty_N_go_0|].
  rewrite pretty_N_go_step by lia. apply IH; [apply N.div_lt; lia|].
  simpl. by rewrite pretty_N_char_digit.
Qed.

Lemma pretty_nat_digits (i : nat) : digits (pretty i) = true.
Proof.
  unfold pretty, pretty_nat, pretty, pretty_N.
  case_decide; [done | by apply pretty_N_go_digits].
Qed.

(** A key with a character that is no digit is not an array index. *)
Lemma not_digits_ne_pretty (k : string) (i : nat) : digits k = false -> k <> pretty i.
Proof. intros Hk ->. by rewrite pretty_nat_digits in Hk. Qed.

#[export] Hint Rewrite string_app_cons string_app_nil_l string_app_nil_r
  string_app_assoc string_app_length : js_rw.
