(* ===== verification/JsValue.v ===== *)
(** * JavaScript values and the language operations the adapter uses

    [value] is the data the adapter receives and builds: the JSON-like
    values, [undefined] and Node Buffers.  The operations are the ones that
    occur in [src/src/SNS.js]: [typeof], ToBoolean ([truthy]), property reads
    ([get]), [!= null] ([loose_neq_null]), [||] and [&&] on values,
    ToString ([to_string]) and the exceptions they raise.  Property reads see
    own data properties only; the methods the source calls are operations of
    their own ([Hex.toString_hex]; [devices.map] is the fold of [Send.send]). *)

From stdpp Require Import base option list strings pretty.
From Stdlib.Strings Require Import Byte.
From S2P Require Import Prelude.

(** ** Values *)

#[local] Unset Elimination Schemes.

Inductive value : Type :=
| VUndefined
| VNull
| VBool (b : bool)
| VNum (n : Z)
| VStr (s : string)
| VBuffer (bs : list byte)
| VArr (vs : list value)
| VObj (fields : list (string * value)).

#[local] Set Elimination Schemes.

(** The error codes of [Parse.Error] the adapter raises. *)
Inductive parse_error_code : Type :=
| PUSH_MISCONFIGURED.

(** What a [throw] carries. *)
Inductive exn : Type :=
| TypeError
| RangeError
| ReferenceError (name : string)
| ParseError (code : parse_error_code) (message : string)
| PromiseCompleted
| Foreign (v : value).

Abbreviation js := (completion exn).

#[export] Instance byte_eq_dec : EqDecision byte := Byte.byte_eq_dec.

#[export] Instance value_eq_dec : EqDecision value.
Proof.
  refine (fix go (x y : value) {struct x} : Decision (x = y) :=
    let _ : EqDecision value := go in
    match x, y with
    | VUndefined, VUndefined => left _
    | VNull, VNull => left _
    | VBool a, VBool b => cast_if (decide (a = b))
    | VNum a, VNum b => cast_if (decide (a = b))
    | VStr a, VStr b => cast_if (decide (a = b))
    | VBuffer a, VBuffer b => cast_if (decide (a = b))
    | VArr a, VArr b => cast_if (decide (a = b))
    | VObj a, VObj b => cast_if (decide (a = b))
    | _, _ => right _
    end); abstract congruence.
Defined.

#[export] Instance parse_error_code_eq_dec : EqDecision parse_error_code.
Proof. solve_decision. Defined.

#[export] Instance exn_eq_dec : EqDecision exn.
Proof. solve_decision. Defined.

(** Induction that reaches the elements of arrays and the values of
    properties. *)
Section value_induction.
Variable P : value -> Prop.
Hypothesis Hundef : P VUndefined.
Hypothesis Hnull : P VNull.
Hypothesis Hbool : forall b, P (VBool b).
Hypothesis Hnum : forall n, P (VNum n).
Hypothesis Hstr : forall s, P (VStr s).
Hypothesis Hbuf : forall bs, P (VBuffer bs).
Hypothesis Harr : forall vs, Forall P vs -> P (VArr vs).
Hypothesis Hobj : forall fields, Forall (fun kv => P kv.2) fields -> P (VObj fields).

Fixpoint value_ind (v : value) : P v :=
  match v with
  | VUndefined => Hundef
  | VNull => Hnull
  | VBool b => Hbool b
  | VNum n => Hnum n
  | VStr s => Hstr s
  | VBuffer bs => Hbuf bs
  | VArr vs =>
      Harr vs ((fix go (l : list value) : Forall P l :=
                  match l with
                  | [] => Forall_nil_2 P
                  | x :: l' => Forall_cons_2 P x l' (value_ind x) (go l')
                  end) vs)
  | VObj fields =>
      Hobj fields ((fix go (l : list (string * value)) : Forall (fun kv => P kv.2) l :=
                      match l with
                      | [] => Forall_nil_2 _
                      | kv :: l' => Forall_cons_2 _ kv l' (value_ind kv.2) (go l')
                      end) fields)
  end.
End value_induction.

(** ** Operators *)

(** [typeof v]. *)
Definition typeof (v : value) : string :=
  match v with
  | VUndefined => "undefined"
  | VNull => "object"
  | VBool _ => "boolean"
  | VNum _ => "number"
  | VStr _ => "string"
  | VBuffer _ | VArr _ | VObj _ => "object"
  end.

(** ToBoolean: what [if (v)], [!v], [v || w] and [v && w] test. *)
Definition truthy (v : value) : bool :=
  match v with
  | VUndefined | VNull => false
  | VBool b => b
  | VNum n => negb (bool_decide (n = 0%Z))
  | VStr s => negb (bool_decide (s = ""))
  | VBuffer _ | VArr _ | VObj _ => true
  end.

(** [a || b] and [a && b] return one of their operands. *)
Definition js_or (a b : value) : value := if truthy a then a else b.
Definition js_and (a b : value) : value := if truthy a then b else a.

(** [v != null]: false for [null] and [undefined] only. *)
Definition loose_neq_null (v : value) : bool :=
  match v with
  | VUndefined | VNull => false
  | _ => true
  end.

(** ** Conversion to a string *)

(** The bytes of a Buffer read as a string.  Node decodes them as UTF-8;
    the model keeps one code unit per byte, which is the same string when
    the bytes are ASCII. *)
Definition string_of_bytes (bs : list byte) : string :=
  String.string_of_list_byte bs.

(** ToString, as [s + v] and [Array.prototype.join] apply it.  An object is
    converted through its inherited [toString]; an own property of that
    name hides the method with a value that cannot be called, and the
    conversion throws. *)
Fixpoint to_string (v : value) : js string :=
  match v with
  | VUndefined => Normal "undefined"
  | VNull => Normal "null"
  | VBool b => Normal (if b then "true" else "false")
  | VNum n => Normal (pretty n)
  | VStr s => Normal s
  | VBuffer bs => Normal (string_of_bytes bs)
  | VArr vs =>
      cmap (String.concat ",")
        ((fix join (l : list value) : js (list string) :=
            match l with
            | [] => Normal []
            | x :: l' =>
                s <- match x with
                     | VUndefined | VNull => Normal ""
                     | _ => to_string x
                     end ;;
                ss <- join l' ;;
                Normal (s :: ss)
            end) vs)
  | VObj fields =>
      if decide ("toString" ∈ fields.*1) then Throw TypeError
      else Normal "[object Object]"
  end.

(** [s + v] for a string [s]. *)
Definition js_concat (s : string) (v : value) : js string :=
  cmap (String.append s) (to_string v).

(** ** Property reads *)

(** The first binding of a key in a property list. *)
Fixpoint assoc (k : string) (fields : list (string * value)) : option value :=
  match fields with
  | [] => None
  | (k', v) :: rest => if decide (k = k') then Some v else assoc k rest
  end.

(** The own data properties of a value, as a property list: the fields of
    an object, the indices and the length of an array, a string or a
    Buffer. *)
Definition own_properties (v : value) : list (string * value) :=
  match v with
  | VObj fields => fields
  | VArr vs =>
      imap (fun i x => (pretty i, x)) vs ++ [("length", VNum (Z.of_nat (length vs)))]
  | VStr s =>
      imap (fun i c => (pretty i, VStr (String c ""))) (String.list_ascii_of_string s)
      ++ [("length", VNum (Z.of_nat (String.length s)))]
  | VBuffer bs =>
      imap (fun i b => (pretty i, VNum (Z.of_N (Byte.to_N b)))) bs
      ++ [("length", VNum (Z.of_nat (length bs)))]
  | _ => []
  end.

(** The own property [k] of [v], [undefined] when there is none. *)
Definition field (v : value) (k : string) : value :=
  default VUndefined (assoc k (own_properties v)).

(** [v.k] and [v[k]]: a TypeError on [undefined] and [null], the own
    property if there is one, [undefined] otherwise. *)
Definition get (v : value) (k : string) : js value :=
  match v with
  | VUndefined | VNull => Throw TypeError
  | _ => Normal (field v k)
  end.

(** ** Well-formed values *)

(** An object holds each key once.  The values the adapter builds are
    well formed; the theorems that need it of an input say so. *)
Fixpoint wf_value (v : value) : bool :=
  match v with
  | VArr vs => forallb wf_value vs
  | VObj fields =>
      bool_decide (NoDup fields.*1) && forallb (fun kv => wf_value kv.2) fields
  | _ => true
  end.

(** ** Facts *)

Lemma typeof_cases v :
  typeof v ∈ ["undefined"; "object"; "boolean"; "number"; "string"].
Proof. destruct v; simpl; repeat constructor. Qed.

Lemma typeof_object v :
  typeof v = "object" <->
  v = VNull \/ (exists bs, v = VBuffer bs) \/ (exists vs, v = VArr vs)
  \/ exists fields, v = VObj fields.
Proof. destruct v; simpl; naive_solver. Qed.

Lemma truthy_loose_neq_null v : truthy v = true -> loose_neq_null v = true.
Proof. by destruct v. Qed.

Lemma get_Normal v k : loose_neq_null v = true -> is_normal (get v k) = true.
Proof. by destruct v. Qed.

Lemma get_Throw v k e : get v k = Throw e -> loose_neq_null v = false /\ e = TypeError.
Proof. destruct v; naive_solver. Qed.

Lemma get_truthy_Normal v k : truthy v = true -> exists x, get v k = Normal x.
Proof. destruct v; simpl; try done; eauto. Qed.

Lemma get_obj fields k :
  get (VObj fields) k = Normal (default VUndefined (assoc k fields)).
Proof. reflexivity. Qed.

Lemma get_field v k : loose_neq_null v = true -> get v k = Normal (field v k).
Proof. by destruct v. Qed.

Lemma get_null v k : loose_neq_null v = false -> get v k = Throw TypeError.
Proof. by destruct v. Qed.

Lemma assoc_Some_elem k fields v : assoc k fields = Some v -> (k, v) ∈ fields.
Proof.
  induction fields as [|[k' v'] rest IH]; simpl; [done|].
  case_decide; [intros [= ->]; subst; left | right; auto].
Qed.

Lemma assoc_None k fields : assoc k fields = None <-> k ∉ fields.*1.
Proof.
  induction fields as [|[k' v'] rest IH]; simpl.
  - split; [intros _; apply not_elem_of_nil | done].
  - rewrite not_elem_of_cons. case_decide; naive_solver.
Qed.

Lemma assoc_app k l1 l2 :
  assoc k (l1 ++ l2) = match assoc k l1 with Some v => Some v | None => assoc k l2 end.
Proof.
  induction l1 as [|[k' v'] rest IH]; simpl; [done|]. by case_decide.
Qed.

Lemma js_or_truthy a b : truthy b = true -> truthy (js_or a b) = true.
Proof. unfold js_or. by destruct (truthy a) eqn:?. Qed.

Lemma js_or_l a b : truthy a = true -> js_or a b = a.
Proof. unfold js_or. by intros ->. Qed.

Lemma js_or_r a b : truthy a = false -> js_or a b = b.
Proof. unfold js_or. by intros ->. Qed.

#[export] Hint Rewrite get_obj : js_rw.
#[export] Hint Resolve truthy_loose_neq_null : js.

Lemma to_string_primitive v :
  (forall vs, v <> VArr vs) -> (forall fields, v <> VObj fields) ->
  is_normal (to_string v) = true.
Proof. destruct v; naive_solver. Qed.

Lemma to_string_str s : to_string (VStr s) = Normal s.
Proof. reflexivity. Qed.

Lemma js_concat_str s t : js_concat s (VStr t) = Normal (s +:+ t).
Proof. reflexivity. Qed.

(** ** Reads of a named key *)

(** A key that is neither an index nor [length] is an own property of
    objects only. *)
Lemma assoc_indexed {A} (f : nat -> A -> value) (l : list A) k tail :
  digits k = false ->
  assoc k (imap (fun i x => (pretty i, f i x)) l ++ tail) = assoc k tail.
Proof.
  intros Hk. rewrite assoc_app.
  assert (assoc k (imap (fun i x => (pretty i, f i x)) l) = None) as ->; [|done].
  apply assoc_None. intros (?&->&Hin)%list_elem_of_fmap.
  apply elem_of_lookup_imap in Hin as (i & y & -> & _).
  by apply (not_digits_ne_pretty _ i) in Hk.
Qed.

Lemma own_properties_named v k :
  digits k = false -> k <> "length" -> (forall fields, v <> VObj fields) ->
  assoc k (own_properties v) = None.
Proof.
  intros Hk Hlen Hobj. destruct v; simpl; try done.
  - rewrite (assoc_indexed (fun _ c => VStr (String c ""))) by done.
    simpl. by case_decide.
  - rewrite (assoc_indexed (fun _ b => VNum (Z.of_N (Byte.to_N b)))) by done.
    simpl. by case_decide.
  - rewrite (assoc_indexed (fun _ x => x)) by done. simpl. by case_decide.
  - by destruct (Hobj fields).
Qed.

Lemma get_named v k :
  digits k = false -> k <> "length" -> (forall fields, v <> VObj fields) ->
  loose_neq_null v = true -> get v k = Normal VUndefined.
Proof.
  intros Hk Hlen Hobj Hv. rewrite get_field by done. unfold field.
  by rewrite own_properties_named.
Qed.
