(* ===== verification/Hex.v ===== *)
(** * The hexadecimal form of a device token

    [hex_of_bytes] is [Buffer.prototype.toString('hex')]: two lowercase
    digits per byte.  [bytes_of_hex] is its strict inverse, used to state
    the round trip.  [toString_hex] is the method call [x.toString('hex')]
    of [src/src/SNS.js] line 81 on an arbitrary value, where the receiver
    decides which [toString] runs. *)

From stdpp Require Import base option list strings pretty.
From Stdlib.Strings Require Import Byte Ascii.
From S2P Require Import Prelude JsValue.

(** ** Encoding *)

Definition hex_digits : list ascii :=
  String.list_ascii_of_string "0123456789abcdef".

(** The digit of a value below sixteen. *)
Definition hex_digit (n : N) : ascii :=
  default "0"%char (hex_digits !! N.to_nat n).

(** Two digits, high nibble first. *)
Definition hex_of_byte (b : byte) : string :=
  let n := Byte.to_N b in
  String (hex_digit (n / 16)) (String (hex_digit (n mod 16)) "").

Definition hex_of_bytes (bs : list byte) : string :=
  String.concat "" (hex_of_byte <$> bs).

(** ** Decoding *)

Definition unhex_digit (c : ascii) : option N :=
  N.of_nat <$> list_find (fun d => d = c) hex_digits ≫= fun p => Some p.1.

Fixpoint bytes_of_hex (s : string) : option (list byte) :=
  match s with
  | "" => Some []
  | String hi (String lo rest) =>
      h ← unhex_digit hi;
      l ← unhex_digit lo;
      b ← Byte.of_N (h * 16 + l);
      bs ← bytes_of_hex rest;
      Some (b :: bs)
  | String _ "" => None
  end.

(** ** The method call *)

(** [x.toString('hex')].  Reading [toString] off [undefined] or [null]
    throws.  A Buffer takes the argument as its encoding.  String and
    Boolean ignore it.  Number takes it as a radix, which ['hex'] is not.
    Array and Object ignore it and convert as ToString does. *)
Definition toString_hex (x : value) : js value :=
  match x with
  | VUndefined | VNull => Throw TypeError
  | VBuffer bs => Normal (VStr (hex_of_bytes bs))
  | VNum _ => Throw RangeError
  | VBool _ | VStr _ | VArr _ | VObj _ => cmap VStr (to_string x)
  end.

(** ** Round trip *)

Lemma hex_of_byte_length b : String.length (hex_of_byte b) = 2.
Proof. reflexivity. Qed.

Lemma bytes_of_hex_byte b rest :
  bytes_of_hex (hex_of_byte b +:+ rest) = (b ::.) <$> bytes_of_hex rest.
Proof. destruct b; reflexivity. Qed.

Lemma hex_of_bytes_cons b bs :
  hex_of_bytes (b :: bs) = hex_of_byte b +:+ hex_of_bytes bs.
Proof. unfold hex_of_bytes. by rewrite fmap_cons, string_concat_nil_cons. Qed.

Lemma bytes_of_hex_of_bytes bs : bytes_of_hex (hex_of_bytes bs) = Some bs.
Proof.
  induction bs as [|b bs IH]; [done|].
  by rewrite hex_of_bytes_cons, bytes_of_hex_byte, IH.
Qed.

Lemma hex_of_bytes_inj bs1 bs2 : hex_of_bytes bs1 = hex_of_bytes bs2 -> bs1 = bs2.
Proof.
  intros H. apply (f_equal bytes_of_hex) in H.
  rewrite !bytes_of_hex_of_bytes in H. congruence.
Qed.

Lemma hex_of_bytes_length bs : String.length (hex_of_bytes bs) = 2 * length bs.
Proof.
  induction bs as [|b bs IH]; [done|].
  rewrite hex_of_bytes_cons. change (hex_of_byte b +:+ hex_of_bytes bs)
    with (String (hex_digit (Byte.to_N b / 16))
            (String (hex_digit (Byte.to_N b mod 16)) (hex_of_bytes bs))).
  simpl. lia.
Qed.

(** ** The method call, by receiver *)

Lemma toString_hex_buffer bs : toString_hex (VBuffer bs) = Normal (VStr (hex_of_bytes bs)).
Proof. reflexivity. Qed.

Lemma toString_hex_str s : toString_hex (VStr s) = Normal (VStr s).
Proof. reflexivity. Qed.

Lemma toString_hex_Throw x e :
  toString_hex x = Throw e ->
  loose_neq_null x = false \/ (exists n, x = VNum n)
  \/ (exists vs, x = VArr vs) \/ (exists fields, x = VObj fields).
Proof. destruct x; naive_solver. Qed.

Lemma toString_hex_Normal_str x v : toString_hex x = Normal v -> exists s, v = VStr s.
Proof.
  destruct x; simpl; try done; unfold cmap, cbind;
    repeat case_match; naive_solver.
Qed.

#[export] Hint Rewrite toString_hex_buffer toString_hex_str : js_rw.
