(* ===== verification/Json.v ===== *)
(** * JSON.stringify

    [stringify v] is [JSON.stringify(v)] with no replacer and no indent, as
    ECMAScript defines it (SerializeJSONProperty, SerializeJSONObject,
    SerializeJSONArray, QuoteJSONString) on the values of [JsValue]: its
    result is a string value, or [undefined] when [v] is [undefined].  The
    adapter calls it seven times: six in [generatePayload] and once in
    [publishToSNS]. *)

From stdpp Require Import base option list strings pretty.
From Stdlib.Strings Require Import Byte Ascii.
From S2P Require Import Prelude JsValue Hex.

(** ** Quoting *)

Definition dquote : ascii := "034"%char.
Definition backslash : ascii := "092"%char.

(** One code unit of a quoted string: the two-character escapes, [\u00XX]
    for the other control characters, the unit itself otherwise. *)
Definition quote_char (c : ascii) : string :=
  let n := N_of_ascii c in
  if decide (c = dquote) then String backslash (String dquote "")
  else if decide (c = backslash) then String backslash (String backslash "")
  else if decide (n = 8%N) then String backslash "b"
  else if decide (n = 9%N) then String backslash "t"
  else if decide (n = 10%N) then String backslash "n"
  else if decide (n = 12%N) then String backslash "f"
  else if decide (n = 13%N) then String backslash "r"
  else if decide (n < 32)%N then
    String backslash ("u00" +:+ String (hex_digit (n / 16)) (String (hex_digit (n mod 16)) ""))
  else String c "".

Fixpoint quote_body (s : string) : string :=
  match s with
  | "" => ""
  | String c rest => quote_char c +:+ quote_body rest
  end.

(** QuoteJSONString. *)
Definition quote (s : string) : string :=
  String dquote (quote_body s +:+ String dquote "").

(** ** Serialization *)

(** What [Buffer.prototype.toJSON] returns. *)
Definition buffer_toJSON (bs : list byte) : value :=
  VObj [("type", VStr "Buffer");
        ("data", VArr ((fun b => VNum (Z.of_N (Byte.to_N b))) <$> bs))].

Definition member (k s : string) : string := quote k +:+ ":" +:+ s.

Definition braces (members : list string) : string :=
  "{" +:+ String.concat "," members +:+ "}".

Definition brackets (elements : list string) : string :=
  "[" +:+ String.concat "," elements +:+ "]".

(** SerializeJSONProperty: [None] is [undefined]. *)
Fixpoint serialize (v : value) : option string :=
  match v with
  | VUndefined => None
  | VNull => Some "null"
  | VBool b => Some (if b then "true" else "false")
  | VNum n => Some (pretty n)
  | VStr s => Some (quote s)
  | VBuffer bs =>
      Some (braces [member "type" (quote "Buffer");
                    member "data" (brackets ((fun b => pretty (Byte.to_N b)) <$> bs))])
  | VArr vs =>
      Some (brackets (map (fun x => default "null" (serialize x)) vs))
  | VObj fields =>
      Some (braces (omap (fun kv => member kv.1 <$> serialize kv.2) fields))
  end.

(** [JSON.stringify(v)]. *)
Definition stringify (v : value) : value :=
  match serialize v with
  | Some s => VStr s
  | None => VUndefined
  end.

(** ** Facts *)

Lemma serialize_None v : serialize v = None <-> v = VUndefined.
Proof. split; [by destruct v | by intros ->]. Qed.

Lemma stringify_undefined v : stringify v = VUndefined <-> v = VUndefined.
Proof.
  unfold stringify. destruct (serialize v) eqn:E.
  - split; [done | intros ->; done].
  - by apply serialize_None in E.
Qed.

Lemma stringify_cases v :
  (v = VUndefined /\ stringify v = VUndefined)
  \/ (v <> VUndefined /\ exists s, stringify v = VStr s).
Proof.
  destruct (decide (v = VUndefined)) as [->|Hv]; [by left | right].
  split; [done|]. unfold stringify.
  destruct (serialize v) eqn:E; [eauto | by apply serialize_None in E].
Qed.

Lemma stringify_string v s : stringify v = VStr s <-> serialize v = Some s.
Proof. unfold stringify. destruct (serialize v); split; congruence. Qed.

Lemma stringify_obj fields :
  stringify (VObj fields)
  = VStr (braces (omap (fun kv => member kv.1 <$> serialize kv.2) fields)).
Proof. reflexivity. Qed.

(** A Buffer serializes as the object its [toJSON] returns. *)
Lemma serialize_buffer bs : serialize (VBuffer bs) = serialize (buffer_toJSON bs).
Proof.
  simpl. rewrite <- list_fmap_compose.
  erewrite (list_fmap_ext (fun b => pretty (Byte.to_N b))); [done|].
  intros _ b _. simpl. by destruct (Byte.to_N b).
Qed.

(** An [undefined] property leaves no trace in the text. *)
Lemma serialize_obj_undefined k fields rest :
  serialize (VObj (fields ++ (k, VUndefined) :: rest)) = serialize (VObj (fields ++ rest)).
Proof. simpl. by rewrite !omap_app. Qed.

(** Every serialization of an object is wrapped in braces. *)
Lemma serialize_obj_braces fields :
  exists members, serialize (VObj fields) = Some (braces members)
    /\ length members <= length fields.
Proof.
  eexists. split; [reflexivity | apply omap_length_le].
Qed.

Lemma quote_length s : 2 <= String.length (quote s).
Proof.
  unfold quote. simpl. rewrite string_app_length. simpl. lia.
Qed.
