(* ===== verification/JsonParse.v ===== *)
(** * JSON.parse

    The structured message of a publish call is JSON text inside JSON
    text: [publishToSNS] serializes the bundle whose entries
    [generatePayload] serialized already.  The transport and the devices
    read it back.  This file is the reader: [parse] is [JSON.parse]
    without a reviver on the texts whose values [JsValue.value] has
    (numbers in integer notation, code units below 256), with the
    grammar's white space, escapes, and the rule that a repeated key keeps
    its first position and its last value.  [None] stands for the
    SyntaxError and for a text outside that fragment.

    The recursion runs on fuel.  [parse] starts with more fuel than the
    text has characters; every reader consumes ([consumes]), and
    [parse_value_fuel] shows that no larger amount changes a result, so
    the fuel is never what makes a parse fail.  What a parse returns is a
    JSON value ([json_value]) with each key once.  [JsonRoundTrip] shows
    that [parse] reads what [Json.stringify] writes. *)

From stdpp Require Import base option list strings pretty.
From Stdlib.Strings Require Import Byte Ascii.
From S2P Require Import Prelude JsValue Hex Json.

(** ** White space and punctuation *)

Definition is_ws (c : ascii) : bool :=
  bool_decide (N_of_ascii c ∈ [9; 10; 13; 32]%N).

Fixpoint skip_ws (s : string) : string :=
  match s with
  | "" => ""
  | String c rest => if is_ws c then skip_ws rest else s
  end.

(** The text after the prefix [p]. *)
Fixpoint strip (p s : string) : option string :=
  match p, s with
  | "", _ => Some s
  | String a p', String b s' => if decide (a = b) then strip p' s' else None
  | _, "" => None
  end.

(** ** Numbers *)

Definition digit_value (c : ascii) : N := (N_of_ascii c - 48)%N.

(** The digits at the head of [s], read in base ten after [acc]. *)
Fixpoint read_digits (acc : N) (s : string) : N * string :=
  match s with
  | "" => (acc, "")
  | String c rest =>
      if is_digit c then read_digits (10 * acc + digit_value c) rest else (acc, s)
  end.

(** The grammar's [int] without its sign: a zero alone, or a digit that is
    not zero and the digits after it. *)
Definition read_nat (s : string) : option (N * string) :=
  match s with
  | "" => None
  | String c rest =>
      if negb (is_digit c) then None
      else if decide (c = "0"%char) then Some (0%N, rest)
      else Some (read_digits (digit_value c) rest)
  end.

Definition read_number (s : string) : option (Z * string) :=
  match s with
  | "" => None
  | String c rest =>
      if decide (c = "-"%char)
      then '(n, rest1) ← read_nat rest; Some (- Z.of_N n, rest1)%Z
      else '(n, rest1) ← read_nat s; Some (Z.of_N n, rest1)
  end.

(** ** Strings *)

(** The value of a hexadecimal digit of either case. *)
Definition hex_value (c : ascii) : option N :=
  let n := N_of_ascii c in
  if is_digit c then Some (n - 48)%N
  else if bool_decide (97 <= n <= 102)%N then Some (n - 87)%N
  else if bool_decide (65 <= n <= 70)%N then Some (n - 55)%N
  else None.

(** The code unit of [ꯍ], when it is below 256. *)
Definition code_unit (a b c d : ascii) : option ascii :=
  x3 ← hex_value a; x2 ← hex_value b; x1 ← hex_value c; x0 ← hex_value d;
  if decide (x3 = 0 ∧ x2 = 0)%N then Some (ascii_of_N (16 * x1 + x0)) else None.

(** The character a two-character escape stands for. *)
Definition escape (e : ascii) : option ascii :=
  if decide (e = dquote) then Some dquote
  else if decide (e = backslash) then Some backslash
  else if decide (e = "/"%char) then Some "/"%char
  else if decide (e = "b"%char) then Some "008"%char
  else if decide (e = "f"%char) then Some "012"%char
  else if decide (e = "n"%char) then Some "010"%char
  else if decide (e = "r"%char) then Some "013"%char
  else if decide (e = "t"%char) then Some "009"%char
  else None.

(** The characters of a string up to its closing quote, the opening one
    being read already. *)
Fixpoint read_string (s : string) : option (string * string) :=
  match s with
  | "" => None
  | String c rest =>
      if decide (c = dquote) then Some ("", rest)
      else if decide (c = backslash) then
        match rest with
        | "" => None
        | String e rest1 =>
            if decide (e = "u"%char) then
              match rest1 with
              | String a (String b (String x (String y rest2))) =>
                  u ← code_unit a b x y;
                  '(t, r) ← read_string rest2;
                  Some (String u t, r)
              | _ => None
              end
            else
              u ← escape e;
              '(t, r) ← read_string rest1;
              Some (String u t, r)
        end
      else if decide (N_of_ascii c < 32)%N then None
      else '(t, r) ← read_string rest; Some (String c t, r)
  end.

(** ** Sequences *)

Section sequences.
Context {A : Type} (item : string -> option (A * string)) (close : ascii).

(** One item, then either the closing character or a comma and the items
    after it. *)
Fixpoint read_items (fuel : nat) (s : string) : option (list A * string) :=
  match fuel with
  | 0 => None
  | S fuel =>
      '(x, rest) ← item s;
      match skip_ws rest with
      | "" => None
      | String c rest1 =>
          if decide (c = close) then Some ([x], rest1)
          else if decide (c = ","%char) then
            '(xs, rest2) ← read_items fuel (skip_ws rest1);
            Some (x :: xs, rest2)
          else None
      end
  end.

(** What follows the opening character: nothing but the closing one, or
    items. *)
Definition read_sequence (fuel : nat) (s : string) : option (list A * string) :=
  match skip_ws s with
  | "" => None
  | String c rest =>
      if decide (c = close) then Some ([], rest) else read_items fuel (skip_ws s)
  end.
End sequences.

(** ** Objects *)

(** [CreateDataProperty] on a property list: a key that is present keeps
    its place and takes the new value. *)
Fixpoint define (k : string) (v : value) (fields : list (string * value))
  : list (string * value) :=
  match fields with
  | [] => [(k, v)]
  | (k', v') :: rest =>
      if decide (k = k') then (k, v) :: rest else (k', v') :: define k v rest
  end.

Definition object_of (members : list (string * value)) : value :=
  VObj (foldl (fun fields kv => define kv.1 kv.2 fields) [] members).

(** A member: a string, a colon, a value. *)
Definition read_member (value_at : string -> option (value * string)) (s : string)
  : option ((string * value) * string) :=
  s1 ← strip (String dquote "") s;
  '(k, s2) ← read_string s1;
  s3 ← strip ":" (skip_ws s2);
  '(v, s4) ← value_at (skip_ws s3);
  Some ((k, v), s4).

(** ** Values *)

Fixpoint parse_value (fuel : nat) (s : string) : option (value * string) :=
  match fuel with
  | 0 => None
  | S fuel =>
      match s with
      | "" => None
      | String c rest =>
          if decide (c = "["%char) then
            '(vs, rest1) ← read_sequence (parse_value fuel) "]"%char fuel rest;
            Some (VArr vs, rest1)
          else if decide (c = "{"%char) then
            '(members, rest1) ←
              read_sequence (read_member (parse_value fuel)) "}"%char fuel rest;
            Some (object_of members, rest1)
          else if decide (c = dquote) then
            '(t, rest1) ← read_string rest; Some (VStr t, rest1)
          else if decide (c = "t"%char) then
            rest1 ← strip "rue" rest; Some (VBool true, rest1)
          else if decide (c = "f"%char) then
            rest1 ← strip "alse" rest; Some (VBool false, rest1)
          else if decide (c = "n"%char) then
            rest1 ← strip "ull" rest; Some (VNull, rest1)
          else
            '(n, rest1) ← read_number s; Some (VNum n, rest1)
      end
  end.

(** [JSON.parse(s)]. *)
Definition parse (s : string) : option value :=
  '(v, rest) ← parse_value (S (String.length s)) (skip_ws s);
  if decide (skip_ws rest = "") then Some v else None.

(** ** JSON values *)

(** The values a JSON text denotes: no [undefined] and no Buffer at any
    depth. *)
Fixpoint json_value (v : value) : bool :=
  match v with
  | VUndefined | VBuffer _ => false
  | VArr vs => forallb json_value vs
  | VObj fields => forallb (fun kv => json_value kv.2) fields
  | _ => true
  end.

(** A text with white space, an escape and a repeated key. *)
Definition example_text : string :=
  "{ 'a' : [1, -20, true, null], 'bu\u0041\n': {}, 'a': 'x' }".

Fixpoint requote (s : string) : string :=
  match s with
  | "" => ""
  | String c rest => String (if decide (c = "'"%char) then dquote else c) (requote rest)
  end.

Example parse_example :
  parse (requote example_text)
  = Some (VObj [("a", VStr "x"); (String "b" (String "u" (String "A" (String "010" ""))), VObj [])]).
Proof. vm_compute. reflexivity. Qed.

(** What the grammar refuses: a leading zero, a lone sign, a trailing
    comma, a missing comma, a literal cut short, text after the value, a
    control character in a string, a key that is no string; and what is
    outside the fragment: a fraction.  What it accepts beside the example:
    white space around the value, and a negative zero. *)
Example parse_refuses :
  Forall (fun text => parse (requote text) = None)
    ["01"; "-"; "[1,]"; "[1 2]"; "tru"; "1 2"; String "'" (String "009" "'"); "{a:1}";
     "{'a':1,}"; "1.5"; ""; "'\x'"; "'\u12"]
  /\ parse " [ ] " = Some (VArr []) /\ parse "-0" = Some (VNum 0).
Proof. split_and!; [|done..]. by apply (bool_decide_unpack _). Qed.

(** * Facts *)

(** ** White space and prefixes *)

Lemma skip_ws_length s : String.length (skip_ws s) <= String.length s.
Proof. induction s as [|c s IH]; simpl; [done|]. case_match; simpl; lia. Qed.

Lemma skip_ws_head c s : is_ws c = false -> skip_ws (String c s) = String c s.
Proof. simpl. by intros ->. Qed.

Lemma strip_app p s : strip p (p +:+ s) = Some s.
Proof.
  induction p as [|a p IH]; [done|]. rewrite string_app_cons. simpl.
  by rewrite decide_True.
Qed.

Lemma strip_char c s : strip (String c "") (String c s) = Some s.
Proof. simpl. by rewrite decide_True. Qed.

Lemma strip_length p s rest :
  strip p s = Some rest -> String.length s = String.length p + String.length rest.
Proof.
  revert s. induction p as [|a p IH]; intros [|b s]; simpl; try naive_solver.
  case_decide; [|done]. intros ?%IH. lia.
Qed.

(** ** Numbers *)

Lemma read_digits_length acc s n rest :
  read_digits acc s = (n, rest) -> String.length rest <= String.length s.
Proof.
  revert acc. induction s as [|c s IH]; intros acc; simpl; [naive_solver|].
  case_match; [intros ?%IH; lia | intros [= _ <-]; done].
Qed.

Lemma read_nat_length s n rest :
  read_nat s = Some (n, rest) -> String.length rest < String.length s.
Proof.
  destruct s as [|c s]; simpl; [done|]. repeat case_match; try done.
  - intros [= _ <-]. lia.
  - intros [= ?%read_digits_length]. lia.
Qed.

Lemma read_number_length s z rest :
  read_number s = Some (z, rest) -> String.length rest < String.length s.
Proof.
  destruct s as [|c s]; cbn -[read_nat]; [done|].
  case_decide; destruct (read_nat _) as [[n r]|] eqn:Hn; cbn; intros [= _ <-];
    apply read_nat_length in Hn; simpl in Hn; lia.
Qed.

(** ** Strings *)

(** A reader consumes: what it leaves is shorter than what it was given. *)
Definition consumes {A} (p : string -> option (A * string)) : Prop :=
  forall s x rest, p s = Some (x, rest) -> String.length rest < String.length s.

Lemma read_string_consumes : consumes read_string.
Proof.
  intros s. remember (S (String.length s)) as n eqn:Hn.
  assert (String.length s < n) as Hlt by lia. clear Hn.
  revert s Hlt. induction n as [|n IH]; intros s Hlt t rest Hread; [lia|].
  destruct s as [|c s]; simpl in *; [done|].
  repeat (case_match; try done); simplify_option_eq;
    repeat match goal with
    | p : _ * _ |- _ => destruct p
    | H : read_string _ = Some _ |- _ => apply IH in H; [|simpl in *; lia]
    end; simplify_eq/=; lia.
Qed.

(** ** Sequences *)

Section sequence_facts.
Context {A : Type}.
Implicit Types (item : string -> option (A * string)) (close : ascii).

Lemma read_items_consumes item close fuel :
  consumes item -> consumes (read_items item close fuel).
Proof.
  intros Hitem. induction fuel as [|fuel IH]; intros s xs rest Hread; [done|].
  simpl in Hread. destruct (item s) as [[x r]|] eqn:Hx; [|done].
  apply Hitem in Hx. pose proof (skip_ws_length r). simpl in Hread.
  destruct (skip_ws r) as [|c r1]; [done|]. pose proof (skip_ws_length r1).
  repeat case_decide; [simplify_eq/=; lia| |done].
  destruct (read_items _ _ _ _) as [[xs1 r2]|] eqn:Hxs; simplify_eq/=.
  apply IH in Hxs. lia.
Qed.

Lemma read_sequence_consumes item close fuel s xs rest :
  consumes item -> read_sequence item close fuel s = Some (xs, rest) ->
  String.length rest < String.length s.
Proof.
  intros Hitem. unfold read_sequence. pose proof (skip_ws_length s).
  destruct (skip_ws s) as [|c r] eqn:Hs; [done|]. case_decide.
  - intros [= _ <-]. simpl in *. lia.
  - intros ?%read_items_consumes; [lia | done].
Qed.

(** Two readers that agree on the texts shorter than [k]. *)
Definition agree_below (k : nat) item1 item2 : Prop :=
  forall s, String.length s < k -> item1 s = item2 s.

Lemma read_items_fuel item1 item2 close k n m s :
  consumes item1 -> agree_below k item1 item2 ->
  String.length s < k -> String.length s < n -> String.length s < m ->
  read_items item1 close n s = read_items item2 close m s.
Proof.
  intros Hitem Hagree. revert m s.
  induction n as [|n IH]; intros [|m] s ???; try lia. simpl.
  rewrite <- Hagree by done. destruct (item1 s) as [[x r]|] eqn:Hx; [|done].
  apply Hitem in Hx. pose proof (skip_ws_length r). simpl.
  destruct (skip_ws r) as [|c r1]; [done|]. pose proof (skip_ws_length r1).
  repeat case_decide; try done. rewrite (IH m); [done|simpl in *; lia..].
Qed.

Lemma read_sequence_fuel item1 item2 close k n m s :
  consumes item1 -> agree_below k item1 item2 ->
  String.length s < k -> String.length s < n -> String.length s < m ->
  read_sequence item1 close n s = read_sequence item2 close m s.
Proof.
  intros. unfold read_sequence. pose proof (skip_ws_length s).
  destruct (skip_ws s) as [|c r] eqn:Hs; [done|]. case_decide; [done|].
  apply (read_items_fuel _ _ _ k); by (done || lia).
Qed.
End sequence_facts.

(** ** Members and values *)

#[local] Arguments strip : simpl never.
#[local] Arguments read_number : simpl never.
#[local] Arguments read_string : simpl never.

Lemma read_member_Some p s k v rest :
  read_member p s = Some ((k, v), rest) ->
  exists s1 s2 s3,
    strip (String dquote "") s = Some s1 /\ read_string s1 = Some (k, s2)
    /\ strip ":" (skip_ws s2) = Some s3 /\ p (skip_ws s3) = Some (v, rest).
Proof.
  unfold read_member.
  destruct (strip _ s) as [s1|] eqn:H1; [|done]. cbn -[strip].
  destruct (read_string s1) as [[k1 s2]|] eqn:H2; [|done]. cbn -[strip].
  destruct (strip ":" (skip_ws s2)) as [s3|] eqn:H3; [|done]. cbn -[strip].
  destruct (p (skip_ws s3)) as [[v1 s4]|] eqn:H4; [|done]. cbn.
  intros [= -> -> ->]. eauto 10.
Qed.

Lemma read_member_consumes p : consumes p -> consumes (read_member p).
Proof.
  intros Hp s [k v] rest (s1 & s2 & s3 & H1 & H2 & H3 & H4)%read_member_Some.
  apply strip_length in H1, H3. apply read_string_consumes in H2. apply Hp in H4.
  pose proof (skip_ws_length s2). pose proof (skip_ws_length s3). simpl in *. lia.
Qed.

Lemma read_member_agree k p q :
  agree_below k p q -> agree_below k (read_member p) (read_member q).
Proof.
  intros Hpq s Hs. unfold read_member.
  destruct (strip _ s) as [s1|] eqn:H1; [|done]. cbn -[strip].
  destruct (read_string s1) as [[k1 s2]|] eqn:H2; [|done]. cbn -[strip].
  destruct (strip ":" (skip_ws s2)) as [s3|] eqn:H3; [|done]. cbn -[strip].
  rewrite Hpq; [done|].
  apply strip_length in H1, H3. apply read_string_consumes in H2.
  pose proof (skip_ws_length s2). pose proof (skip_ws_length s3). simpl in *. lia.
Qed.

Lemma parse_value_consumes fuel : consumes (parse_value fuel).
Proof.
  induction fuel as [|fuel IH]; intros s v rest Hparse; [done|].
  destruct s as [|c s]; [done|]. cbn -[read_number] in Hparse.
  repeat case_decide; simplify_option_eq;
    repeat match goal with q : _ * _ |- _ => destruct q end; simplify_eq/=;
    repeat match goal with
    | H : strip _ _ = Some _ |- _ => apply strip_length in H; simpl in H
    | H : read_string _ = Some _ |- _ => apply read_string_consumes in H
    | H : read_number _ = Some _ |- _ => apply read_number_length in H; simpl in H
    | H : read_sequence _ _ _ _ = Some _ |- _ =>
        apply read_sequence_consumes in H; [|auto using read_member_consumes]
    end; lia.
Qed.

(** More fuel than the text has characters is as good as any larger
    amount. *)
Lemma parse_value_fuel n m s :
  String.length s < n -> String.length s < m -> parse_value n s = parse_value m s.
Proof.
  revert m s. induction n as [|n IH]; intros [|m] s ??; try lia.
  destruct s as [|c s]; [done|]. cbn -[read_number]. simpl in *.
  assert (agree_below (S (String.length s)) (parse_value n) (parse_value m)).
  { intros t ?. apply IH; lia. }
  repeat case_decide; try done.
  - by rewrite (read_sequence_fuel _ (parse_value m) _ (S (String.length s)) n m)
      by (try apply parse_value_consumes; done || lia).
  - by rewrite (read_sequence_fuel _ (read_member (parse_value m)) _
                  (S (String.length s)) n m)
      by (try apply read_member_consumes, parse_value_consumes;
          try apply read_member_agree; done || lia).
Qed.

(** ** What [parse] returns *)

Lemma define_keys k v fields :
  (define k v fields).*1 = if decide (k ∈ fields.*1) then fields.*1 else fields.*1 ++ [k].
Proof.
  induction fields as [|[k1 v1] fields IH]; [done|]. cbn [define].
  destruct (decide (k = k1)) as [->|Hk]; rewrite !fmap_cons; cbn [fst].
  - by rewrite decide_True by left.
  - rewrite IH. destruct (decide (k ∈ fields.*1)).
    + by rewrite decide_True by (by right).
    + by rewrite decide_False by (by intros [?|?]%elem_of_cons).
Qed.

Lemma define_NoDup k v fields : NoDup fields.*1 -> NoDup (define k v fields).*1.
Proof.
  intros Hnd. rewrite define_keys. case_decide; [done|].
  apply NoDup_app. split_and!; [done | | apply NoDup_singleton].
  by intros x ? ->%list_elem_of_singleton.
Qed.

Lemma define_Forall (P : value -> Prop) k v fields :
  P v -> Forall (fun kv => P kv.2) fields -> Forall (fun kv => P kv.2) (define k v fields).
Proof.
  intros Hv. induction 1 as [|[k1 v1] fields ? ? IH]; simpl; [by repeat constructor|].
  case_decide; by constructor.
Qed.

(** A repeated key takes the value of its last member. *)
Lemma assoc_define k k1 v fields :
  assoc k (define k1 v fields) = if decide (k = k1) then Some v else assoc k fields.
Proof.
  induction fields as [|[k2 v2] fields IH]; simpl; [done|].
  destruct (decide (k1 = k2)) as [->|]; simpl; rewrite ?IH; repeat case_decide; by simplify_eq.
Qed.

Lemma object_of_fields members :
  exists fields, object_of members = VObj fields /\ NoDup fields.*1
    /\ (forall k, assoc k fields = assoc k (reverse members))
    /\ forall P : value -> Prop,
         Forall (fun kv => P kv.2) members -> Forall (fun kv => P kv.2) fields.
Proof.
  unfold object_of. induction members as [|[k v] members IH] using rev_ind.
  { eexists. split_and!; [done | constructor | done | done]. }
  destruct IH as (fields & [= <-] & Hnd & Hassoc & Hall). rewrite foldl_app. simpl.
  eexists. split_and!; [done | by apply define_NoDup | |].
  - intros k1. rewrite assoc_define, reverse_snoc. simpl.
    repeat case_decide; by simplify_eq.
  - intros P [? [? _]%Forall_cons]%Forall_app. apply define_Forall; auto.
Qed.

Section sequence_results.
Context {A : Type} (item : string -> option (A * string)) (close : ascii).
Context (P : A -> Prop) (Hitem : forall s x rest, item s = Some (x, rest) -> P x).

Lemma read_items_Forall fuel s xs rest :
  read_items item close fuel s = Some (xs, rest) -> Forall P xs.
Proof.
  revert s xs. induction fuel as [|fuel IH]; intros s xs; simpl; [done|].
  destruct (item s) as [[x r]|] eqn:Hx; [|done]. apply Hitem in Hx. simpl.
  destruct (skip_ws r) as [|c r1]; [done|].
  repeat case_decide; [intros [= <- _]; by repeat constructor| |done].
  destruct (read_items _ _ _ _) as [[xs1 r2]|] eqn:Hxs; intros; simplify_eq/=.
  constructor; eauto.
Qed.

Lemma read_sequence_Forall fuel s xs rest :
  read_sequence item close fuel s = Some (xs, rest) -> Forall P xs.
Proof.
  unfold read_sequence. destruct (skip_ws s); [done|].
  case_decide; [intros [= <- _]; constructor | apply read_items_Forall].
Qed.
End sequence_results.

(** A value that was read has no [undefined] and no Buffer in it, and its
    objects hold each key once. *)
Definition well_read (v : value) : Prop := json_value v = true /\ wf_value v = true.

Lemma parse_value_well_read fuel s v rest :
  parse_value fuel s = Some (v, rest) -> well_read v.
Proof.
  revert s v rest. induction fuel as [|fuel IH]; intros s v rest; [done|].
  destruct s as [|c s]; [done|]. cbn -[read_number].
  repeat case_decide; intros Hparse; simplify_option_eq;
    repeat match goal with q : _ * _ |- _ => destruct q end; simplify_eq/=; try done.
  - apply read_sequence_Forall with (P := well_read) in Heqo; [|eauto].
    unfold well_read in Heqo. apply Forall_and in Heqo as [? ?].
    split; by apply forallb_Forall.
  - apply read_sequence_Forall with (P := fun kv => well_read kv.2) in Heqo.
    + destruct (object_of_fields l) as (fields & Hobj & Hnd & _ & Hall).
      rewrite Hobj. apply (Hall well_read) in Heqo. unfold well_read in Heqo.
      apply Forall_and in Heqo as [? ?]. split; simpl.
      * by apply forallb_Forall.
      * apply andb_true_iff. split; [by apply bool_decide_eq_true|by apply forallb_Forall].
    + intros t [k x] r (_ & _ & s3 & _ & _ & _ & Hx)%read_member_Some. eauto.
Qed.

Lemma parse_Some s v :
  parse s = Some v ->
  exists rest, parse_value (S (String.length s)) (skip_ws s) = Some (v, rest)
    /\ skip_ws rest = "".
Proof.
  unfold parse. destruct (parse_value _ _) as [[v1 rest]|] eqn:Hv; [|done].
  cbn. case_decide; [|done]. intros [= <-]. eauto.
Qed.

(** * Theorems *)

(** Reading is total on the fuel [parse] starts with: any amount
    above the length of the text gives the result that [S (length s)]
    gives, so a parse never fails for want of fuel. *)
Theorem parse_fuel n s :
  String.length s < n -> parse_value n s = parse_value (S (String.length s)) s.
Proof. intros. apply parse_value_fuel; lia. Qed.

(** Whatever [parse] returns is a JSON value: it holds no [undefined]
    and no Buffer, and every object in it holds each key once. *)
Theorem parse_well_read s v :
  parse s = Some v -> json_value v = true /\ wf_value v = true.
Proof.
  intros (rest & Hv & _)%parse_Some. by eapply parse_value_well_read.
Qed.

(** * Witnesses *)

Lemma parse_fuel_witness :
  parse_value 100 example_text = parse_value (S (String.length example_text)) example_text.
Proof. apply parse_fuel. vm_compute. lia. Defined.

Lemma parse_well_read_witness :
  json_value (VArr [VNum 1; VNull]) = true /\ wf_value (VArr [VNum 1; VNull]) = true.
Proof. by apply (parse_well_read "[1, null]"). Defined.
