(* ===== verification/JsonRoundTrip.v ===== *)
(** * JSON.parse after JSON.stringify

    [Json.stringify] writes a value and [JsonParse.parse] reads it back:
    not always the same value, since [undefined] and Buffers have no JSON
    form of their own.  [plain v] is the value
    [JSON.parse(JSON.stringify(v))] returns, and [parse_serialize] is the
    round trip, by induction on the value with one lemma per reader: the
    digits [pretty] writes are read as the number, a quoted string as the
    string, a comma-separated sequence as the list of its items.  On JSON
    values [plain] is the identity, so [stringify] is injective there. *)

From stdpp Require Import base option list strings pretty.
From Stdlib.Strings Require Import Byte Ascii.
From S2P Require Import Prelude JsValue Hex Json JsonParse.

(** ** The image of a value *)

(** What [JSON.parse(JSON.stringify(v))] is: an [undefined] element of an
    array becomes [null], an [undefined] property is dropped, a Buffer
    becomes the object of its [toJSON]. *)
Fixpoint plain (v : value) : value :=
  match v with
  | VBuffer bs => buffer_toJSON bs
  | VArr vs => VArr (map (fun x => if decide (x = VUndefined) then VNull else plain x) vs)
  | VObj fields =>
      VObj (omap (fun kv => if decide (kv.2 = VUndefined) then None
                            else Some (kv.1, plain kv.2)) fields)
  | _ => v
  end.

(** * Facts *)

(** ** Numbers *)

(** The text ends a number: it does not go on with a digit. *)
Definition ends_number (s : string) : bool :=
  match s with
  | "" => true
  | String c _ => negb (is_digit c)
  end.

Lemma read_digits_end acc s : ends_number s = true -> read_digits acc s = (acc, s).
Proof. destruct s as [|c s]; simpl; [done|]. by intros ->%negb_true_iff. Qed.

Lemma digit_value_pretty x : (x < 10)%N -> digit_value (pretty_N_char x) = x.
Proof.
  intros.
  assert (x = 0 \/ x = 1 \/ x = 2 \/ x = 3 \/ x = 4 \/ x = 5 \/ x = 6 \/ x = 7
          \/ x = 8 \/ x = 9)%N by lia.
  destruct_or!; by subst.
Qed.

Lemma pretty_N_go_app x s t : pretty_N_go x s +:+ t = pretty_N_go x (s +:+ t).
Proof.
  revert s. induction (N.lt_wf_0 x) as [x _ IH]; intros s.
  destruct (decide (x = 0%N)) as [->|]; [by rewrite !pretty_N_go_0|].
  rewrite (pretty_N_go_step x s), (pretty_N_go_step x (s +:+ t)) by lia.
  rewrite IH by (apply N.div_lt; lia). by rewrite string_app_cons.
Qed.

(** Reading the digits the printer wrote gives the number back. *)
Lemma read_digits_pretty x s : read_digits 0 (pretty_N_go x s) = read_digits x s.
Proof.
  revert s. induction (N.lt_wf_0 x) as [x _ IH]; intros s.
  destruct (decide (x = 0%N)) as [->|]; [by rewrite pretty_N_go_0|].
  rewrite pretty_N_go_step by lia. rewrite IH by (apply N.div_lt; lia).
  simpl. rewrite pretty_N_char_digit, digit_value_pretty by (apply N.mod_lt; lia).
  f_equal. pose proof (N.div_mod x 10). lia.
Qed.

(** The printer writes no leading zero. *)
Lemma pretty_N_go_head x s :
  (0 < x)%N ->
  exists c t, pretty_N_go x s = String c t /\ is_digit c = true /\ c <> "0"%char.
Proof.
  revert s. induction (N.lt_wf_0 x) as [x _ IH]; intros s Hx.
  rewrite pretty_N_go_step by done.
  destruct (decide (x < 10)%N) as [Hlt|Hge].
  - rewrite N.div_small, pretty_N_go_0 by done. eexists _, _.
    split_and!; [done | apply pretty_N_char_digit |].
    rewrite N.mod_small by done. intros Hc.
    apply (f_equal digit_value) in Hc. rewrite digit_value_pretty in Hc by done.
    vm_compute in Hc. lia.
  - apply IH; [apply N.div_lt; lia|]. apply N.div_str_pos. lia.
Qed.

Lemma read_nat_pretty (x : N) rest :
  ends_number rest = true -> read_nat (pretty x +:+ rest) = Some (x, rest).
Proof.
  intros Hrest. unfold pretty, pretty_N. case_decide as Hx; [by subst|].
  rewrite pretty_N_go_app, string_app_nil_l.
  destruct (pretty_N_go_head x rest) as (c & t & Hgo & Hc & Hc0); [lia|].
  pose proof (read_digits_pretty x rest) as Hread.
  rewrite Hgo in Hread |- *. simpl in Hread |- *.
  rewrite Hc in Hread |- *. simpl. rewrite decide_False by done.
  rewrite N.mul_0_r, N.add_0_l in Hread. by rewrite Hread, read_digits_end.
Qed.

Lemma read_number_pretty (z : Z) rest :
  ends_number rest = true -> read_number (pretty z +:+ rest) = Some (z, rest).
Proof.
  intros Hrest. destruct z as [|p|p]; unfold pretty, pretty_Z.
  - done.
  - change (pretty p) with (pretty (N.pos p)).
    pose proof (read_nat_pretty (N.pos p) rest Hrest) as Hread.
    unfold read_number. destruct (pretty (N.pos p) +:+ rest) as [|c t] eqn:Ht; [done|].
    rewrite decide_False, Hread; [done|]. intros ->. by simpl in Hread.
  - rewrite string_app_assoc, string_app_cons, string_app_nil_l. simpl.
    change (pretty p) with (pretty (N.pos p)). by rewrite read_nat_pretty.
Qed.

(** ** Strings *)

(** One quoted code unit is read back as that code unit. *)
Lemma read_string_quote_char c t :
  read_string (quote_char c +:+ t)
  = '(s, rest) ← read_string t; Some (String c s, rest).
Proof. destruct c as [[] [] [] [] [] [] [] []]; reflexivity. Qed.

Lemma read_string_quote_body s rest :
  read_string (quote_body s +:+ String dquote rest) = Some (s, rest).
Proof.
  induction s as [|c s IH]; [done|]. simpl quote_body.
  by rewrite string_app_assoc, read_string_quote_char, IH.
Qed.

Lemma quote_app s rest :
  quote s +:+ rest = String dquote (quote_body s +:+ String dquote rest).
Proof.
  unfold quote. by rewrite string_app_cons, string_app_assoc, string_app_cons.
Qed.

#[local] Arguments strip : simpl never.
#[local] Arguments read_number : simpl never.
#[local] Arguments read_string : simpl never.

(** ** Reading back a sequence *)

(** The first character of the text satisfies [ok]. *)
Definition begins (ok : ascii -> bool) (s : string) : bool :=
  match s with
  | "" => false
  | String c _ => ok c
  end.

Lemma begins_app ok s t : begins ok s = true -> begins ok (s +:+ t) = true.
Proof. destruct s; [done|]. by rewrite string_app_cons. Qed.

Lemma begins_impl (ok1 ok2 : ascii -> bool) s :
  (forall c, ok1 c = true -> ok2 c = true) -> begins ok1 s = true -> begins ok2 s = true.
Proof. destruct s; simpl; auto. Qed.

Lemma skip_ws_begins s : begins (fun c => negb (is_ws c)) s = true -> skip_ws s = s.
Proof. destruct s; simpl; [done|]. by intros ->%negb_true_iff. Qed.

Section read_back.
Context {A : Type} (item : string -> option (A * string)) (close : ascii) (k : nat).
Hypothesis close_ws : is_ws close = false.
Hypothesis close_digit : is_digit close = false.
Hypothesis close_comma : close <> ","%char.

(** What the first character of an item is not. *)
Definition item_head (c : ascii) : bool := negb (is_ws c) && bool_decide (c <> close).

(** [item] reads [x] off the text [t], whatever follows it but a digit. *)
Definition reads (t : string) (x : A) : Prop :=
  begins item_head t = true
  /\ forall rest, ends_number rest = true -> String.length (t +:+ rest) < k ->
       item (t +:+ rest) = Some (x, rest).

Lemma item_head_skip_ws t rest :
  begins item_head t = true -> skip_ws (t +:+ rest) = t +:+ rest.
Proof.
  intros Ht. apply skip_ws_begins, begins_app.
  revert Ht. apply begins_impl. by intros c [? _]%andb_true_iff.
Qed.

Lemma read_items_concat texts results n rest :
  Forall2 reads texts results -> texts <> [] ->
  String.length (String.concat "," texts +:+ String close rest) <= n ->
  String.length (String.concat "," texts +:+ String close rest) < k ->
  read_items item close n (String.concat "," texts +:+ String close rest)
  = Some (results, rest).
Proof.
  intros Hall. revert n.
  induction Hall as [|t x texts results [Ht Hx] Hall IH]; intros n Hne Hn Hk; [done|].
  assert (0 < n) by (rewrite string_app_length in Hn; simpl in Hn; lia).
  destruct n as [|n]; [lia|]. destruct Hall as [|t2 x2 texts results Ht2 Hall].
  - simpl in *. rewrite Hx; [|by simpl; rewrite close_digit|done]. cbn.
    by rewrite close_ws, decide_True.
  - rewrite string_concat_cons, !string_app_assoc in Hn, Hk |- *.
    rewrite string_app_cons, string_app_nil_l in Hn, Hk |- *.
    cbn [read_items]. rewrite Hx by done. cbn [mbind option_bind].
    rewrite skip_ws_head, decide_False, decide_True by done.
    rewrite (item_head_skip_ws (String.concat "," (t2 :: texts)));
      [|destruct texts; simpl; [|apply begins_app]; apply Ht2].
    rewrite string_app_length in Hn, Hk. cbn [String.length] in Hn, Hk.
    rewrite IH; [done | done | lia..].
Qed.

Lemma read_sequence_concat texts results n rest :
  Forall2 reads texts results ->
  String.length (String.concat "," texts +:+ String close rest) <= n ->
  String.length (String.concat "," texts +:+ String close rest) < k ->
  read_sequence item close n (String.concat "," texts +:+ String close rest)
  = Some (results, rest).
Proof.
  intros Hall Hn Hk. unfold read_sequence. destruct Hall as [|t x texts results Ht Hall].
  - simpl. by rewrite close_ws, decide_True.
  - assert (begins item_head (String.concat "," (t :: texts)) = true) as Hhead.
    { destruct texts; simpl; [|apply begins_app]; apply Ht. }
    rewrite item_head_skip_ws by done.
    rewrite (read_items_concat (t :: texts) (x :: results)) by (done || by constructor).
    apply (begins_app _ _ (String close rest)) in Hhead.
    destruct (_ +:+ _) as [|c s]; [done|]. simpl in Hhead.
    apply andb_true_iff in Hhead as [_ ?%bool_decide_eq_true]. by rewrite decide_False.
Qed.
End read_back.

(** ** Reading back a value *)

(** The first character of a serialized value. *)
Definition value_head (c : ascii) : bool :=
  is_digit c || bool_decide (c ∈ ["-"; "n"; "t"; "f"; dquote; "["; "{"]%char).

Definition number_head (c : ascii) : bool :=
  is_digit c || bool_decide (c = "-"%char).

Lemma number_head_value_head c : number_head c = true -> value_head c = true.
Proof. destruct c as [[] [] [] [] [] [] [] []]; by vm_compute. Qed.

Lemma value_head_item_head close c :
  close ∈ ["]"; "}"]%char -> value_head c = true -> item_head close c = true.
Proof.
  intros [->|[->|[]%elem_of_nil]%elem_of_cons]%elem_of_cons;
    destruct c as [[] [] [] [] [] [] [] []]; by vm_compute.
Qed.

Lemma pretty_Z_head (z : Z) : begins number_head (pretty z) = true.
Proof.
  assert (forall x : N, begins number_head (pretty x) = true) as HN.
  { intros x. unfold pretty, pretty_N. case_decide; [done|].
    destruct (pretty_N_go_head x "") as (c & t & -> & Hc & _); [lia|].
    simpl. unfold number_head. by rewrite Hc. }
  destruct z as [|p|p]; [done | apply (HN (N.pos p)) | done].
Qed.

Lemma serialize_head v s : serialize v = Some s -> begins value_head s = true.
Proof.
  destruct v as [| |[]| | | | |]; intros; simplify_eq/=; try done.
  eapply begins_impl; [apply number_head_value_head | apply pretty_Z_head].
Qed.

(** A text that begins like a number is read by [read_number]. *)
Lemma parse_value_number n s :
  begins number_head s = true ->
  parse_value (S n) s = '(z, rest) ← read_number s; Some (VNum z, rest).
Proof.
  destruct s as [|c s]; [done|]. intros Hc.
  destruct c as [[] [] [] [] [] [] [] []]; (discriminate Hc || reflexivity).
Qed.

(** [parse_value] reads the image of [v] off the text of [v]. *)
Definition reads_back (v : value) : Prop :=
  forall s rest n,
    wf_value v = true -> serialize v = Some s -> ends_number rest = true ->
    String.length (s +:+ rest) < n ->
    parse_value n (s +:+ rest) = Some (plain v, rest).

(** The image of an element of an array. *)
Definition element (x : value) : value :=
  if decide (x = VUndefined) then VNull else plain x.

Lemma reads_back_element n x :
  reads_back x -> wf_value x = true ->
  reads (parse_value n) "]" n (default "null" (serialize x)) (element x).
Proof.
  intros Hx Hwf. unfold element. destruct (serialize x) as [s|] eqn:Hs.
  - rewrite decide_False by (by intros ->). split; [|by eauto].
    eapply begins_impl, serialize_head; [|done].
    intros c. apply value_head_item_head. by left.
  - apply serialize_None in Hs as ->. split; [done|].
    intros rest _ Hn. by destruct n; [simpl in Hn; lia|].
Qed.

Lemma reads_back_array vs : Forall reads_back vs -> reads_back (VArr vs).
Proof.
  intros Hvs s rest n Hwf [= <-] Hrest Hn. destruct n as [|n]; [lia|].
  unfold brackets in *. rewrite !string_app_assoc, !string_app_cons, !string_app_nil_l in *.
  cbn [parse_value]. rewrite decide_True by done.
  rewrite (read_sequence_concat _ _ n) with (results := element <$> vs); try done.
  - apply Forall2_fmap, Forall_Forall2_diag. simpl in Hwf.
    apply forallb_Forall in Hwf. rewrite Forall_forall in Hvs, Hwf |- *.
    intros x Hx. apply reads_back_element; auto.
  - simpl in Hn. lia.
  - simpl in Hn. lia.
Qed.

(** ** Objects *)

Lemma define_fresh k v fields :
  k ∉ fields.*1 -> define k v fields = fields ++ [(k, v)].
Proof.
  induction fields as [|[k1 v1] fields IH]; simpl; [done|].
  intros [? ?]%not_elem_of_cons. rewrite decide_False by done. by rewrite IH.
Qed.

(** Members with distinct keys are the properties of the object, in the
    order of the text. *)
Lemma object_of_NoDup members : NoDup members.*1 -> object_of members = VObj members.
Proof.
  unfold object_of. change members with ([] ++ members) at 1 3.
  generalize (@nil (string * value)) as acc.
  induction members as [|[k v] members IH]; intros acc Hacc; simpl.
  - by rewrite app_nil_r.
  - rewrite fmap_app in Hacc. simpl in Hacc.
    rewrite define_fresh, (IH (acc ++ [(k, v)])), <- ?app_assoc; [done|..].
    + by rewrite <- app_assoc, fmap_app.
    + apply NoDup_app in Hacc as (_ & Hacc & _). intros Hk. apply (Hacc k Hk). by left.
Qed.

(** A member is read back as its key and what the value reader returns. *)
Lemma read_member_text p key t x rest :
  begins value_head t = true -> p (t +:+ rest) = Some (x, rest) ->
  read_member p (member key t +:+ rest) = Some ((key, x), rest).
Proof.
  intros Ht Hp. unfold read_member, member.
  rewrite !string_app_assoc, quote_app, strip_char. cbn [mbind option_bind].
  rewrite read_string_quote_body. cbn [mbind option_bind].
  rewrite string_app_cons, string_app_nil_l, skip_ws_begins, strip_char by done.
  cbn [mbind option_bind]. rewrite skip_ws_begins, Hp; [done|]. apply begins_app.
  revert Ht. apply begins_impl. intros c Hc.
  apply (value_head_item_head "}") in Hc as [? _]%andb_true_iff; [done|by right; left].
Qed.

(** The members of [plain (VObj fields)]. *)
Definition property (kv : string * value) : option (string * value) :=
  if decide (kv.2 = VUndefined) then None else Some (kv.1, plain kv.2).

Lemma plain_obj fields : plain (VObj fields) = VObj (omap property fields).
Proof. reflexivity. Qed.

Lemma reads_back_members n fields :
  Forall (fun kv => reads_back kv.2) fields ->
  Forall (fun kv => wf_value kv.2 = true) fields ->
  Forall2 (reads (read_member (parse_value n)) "}" n)
    (omap (fun kv => member kv.1 <$> serialize kv.2) fields) (omap property fields).
Proof.
  induction 1 as [|[key v] fields Hv _ IH]; intros Hwf; [constructor|].
  apply Forall_cons in Hwf as [Hwf ?]. rewrite !omap_cons. unfold property at 1.
  simpl in *. destruct (serialize v) as [t|] eqn:Ht; simpl.
  - rewrite decide_False by (by intros ->). constructor; [|by auto]. split; [done|].
    intros rest Hrest Hn. apply read_member_text; [by eapply serialize_head|].
    apply Hv; [done..|]. unfold member in Hn.
    rewrite !string_app_length in Hn. rewrite string_app_length. lia.
  - apply serialize_None in Ht as ->. rewrite decide_True by done. auto.
Qed.

Lemma property_keys fields : (omap property fields).*1 `sublist_of` fields.*1.
Proof.
  induction fields as [|[k v] fields IH]; [done|]. rewrite omap_cons.
  unfold property at 1. simpl. case_decide; [by apply sublist_cons|].
  by apply sublist_skip.
Qed.

Lemma reads_back_object fields :
  Forall (fun kv => reads_back kv.2) fields -> reads_back (VObj fields).
Proof.
  intros Hfields s rest n Hwf [= <-] Hrest Hn. destruct n as [|n]; [lia|].
  simpl in Hwf. apply andb_true_iff in Hwf as [Hkeys%bool_decide_eq_true Hwf].
  apply forallb_Forall in Hwf.
  unfold braces in *. rewrite !string_app_assoc, !string_app_cons, !string_app_nil_l in *.
  cbn [parse_value]. rewrite decide_False, decide_True by done.
  rewrite (read_sequence_concat _ _ n) with (results := omap property fields);
    [|done..|by apply reads_back_members|simpl in Hn; lia|simpl in Hn; lia].
  cbn. rewrite object_of_NoDup; [done|].
  eapply sublist_NoDup; [done | apply property_keys].
Qed.

Lemma plain_json v : json_value v = true -> plain v = v.
Proof.
  induction v as [| | | | | |vs IH|fields IH]; simpl; try done; intros Hv%forallb_Forall.
  - f_equal. rewrite <- (map_id vs) at 2. apply map_ext_Forall.
    rewrite Forall_forall in IH, Hv |- *. intros x Hx.
    rewrite decide_False by (intros ->; by apply Hv in Hx). by apply IH, Hv.
  - f_equal. induction IH as [|[k v] fields Hkv _ IHfields]; [done|].
    apply Forall_cons in Hv as [Hv ?]. rewrite omap_cons. simpl in *.
    rewrite decide_False by (by intros ->). by rewrite Hkv, IHfields.
Qed.

Lemma buffer_toJSON_json bs : json_value (buffer_toJSON bs) = true.
Proof. simpl. rewrite andb_true_r. by induction bs. Qed.

Lemma buffer_toJSON_wf bs : wf_value (buffer_toJSON bs) = true.
Proof.
  unfold buffer_toJSON. cbn [wf_value forallb fmap list_fmap snd].
  rewrite bool_decide_eq_true_2 by (by apply (bool_decide_unpack _)).
  rewrite !andb_true_r. by induction bs.
Qed.

Lemma reads_back_number z : reads_back (VNum z).
Proof.
  intros ? ? [|n] _ [= <-] ? Hn; [lia|].
  rewrite parse_value_number, read_number_pretty; [done..|].
  apply begins_app, pretty_Z_head.
Qed.

Lemma reads_back_string t : reads_back (VStr t).
Proof.
  intros ? ? [|n] _ [= <-] ? Hn; [lia|]. rewrite quote_app. cbn [parse_value].
  by rewrite decide_False, decide_False, decide_True, read_string_quote_body.
Qed.

Lemma reads_back_buffer_toJSON bs : reads_back (buffer_toJSON bs).
Proof.
  apply reads_back_object. repeat constructor; simpl.
  - apply reads_back_string.
  - apply reads_back_array, Forall_fmap, Forall_true. intros b. apply reads_back_number.
Qed.

Lemma reads_back_all v : reads_back v.
Proof.
  induction v as [| |b|z|t|bs|vs IH|fields IH];
    [..|by apply reads_back_array|by apply reads_back_object];
    auto using reads_back_number, reads_back_string;
    intros s rest n Hwf Hs Hrest Hn; (destruct n as [|n]; [lia|]).
  - done.
  - by simplify_eq/=.
  - by destruct b; simplify_eq/=.
  - rewrite serialize_buffer in Hs. change (plain (VBuffer bs)) with (buffer_toJSON bs).
    rewrite <- (plain_json (buffer_toJSON bs)) by apply buffer_toJSON_json.
    by apply reads_back_buffer_toJSON; [apply buffer_toJSON_wf|..].
Qed.

(** ** The round trip *)

(** [JSON.parse(JSON.stringify(v))] is the image of [v]. *)
Lemma parse_serialize v s :
  wf_value v = true -> serialize v = Some s -> parse s = Some (plain v).
Proof.
  intros Hwf Hs. unfold parse. pose proof (serialize_head v s Hs) as Hhead.
  rewrite skip_ws_begins.
  - rewrite <- (string_app_nil_r s) at 2.
    rewrite (reads_back_all v s "") by (rewrite ?string_app_nil_r; done || lia).
    done.
  - revert Hhead. apply begins_impl. intros c Hc.
    by apply (value_head_item_head "}") in Hc as [? _]%andb_true_iff; [|right; left].
Qed.

(** * Theorems *)

(** The round trip of [JSON.parse] after [JSON.stringify]: the text of
    a well-formed value parses, with nothing left over, to the image of
    the value, in which [undefined] elements are [null], [undefined]
    properties are gone and Buffers are the objects of [toJSON]. *)
Theorem parse_stringify v s :
  wf_value v = true -> stringify v = VStr s -> parse s = Some (plain v).
Proof. intros Hwf Hs%stringify_string. by apply parse_serialize. Qed.

(** [JSON.stringify] loses nothing of a JSON value: two well-formed
    values without [undefined] and Buffers that have the same text are the
    same value. *)
Theorem stringify_inj v1 v2 :
  json_value v1 = true -> wf_value v1 = true ->
  json_value v2 = true -> wf_value v2 = true ->
  stringify v1 = stringify v2 -> v1 = v2.
Proof.
  intros Hj1 Hwf1 Hj2 Hwf2 Heq.
  destruct (stringify_cases v1) as [[-> _]|[_ [s Hs1]]]; [done|].
  pose proof Hs1 as Hs2. rewrite Heq in Hs2.
  apply stringify_string, parse_serialize in Hs1, Hs2; [|done..].
  rewrite !plain_json in * by done. congruence.
Qed.

(** A value that was read is read again from its own text: printing
    and parsing is the identity on what [parse] returns. *)
Theorem parse_stringify_parse s v :
  parse s = Some v -> exists t, stringify v = VStr t /\ parse t = Some v.
Proof.
  intros (rest & [Hj Hwf]%parse_value_well_read & _)%parse_Some.
  destruct (stringify_cases v) as [[-> _]|[_ [t Ht]]]; [done|].
  exists t. split; [done|]. apply stringify_string, parse_serialize in Ht; [|done].
  by rewrite plain_json in Ht.
Qed.

(** * Witnesses *)

Definition demo_nested : value :=
  VObj [("alert", VStr (String "h" (String "i" (String "010" ""))));
        ("badge", VNum (-3));
        ("skipped", VUndefined);
        ("tags", VArr [VBool true; VUndefined; VNull; VArr []]);
        ("token", VBuffer [x01; xff])].

Lemma parse_stringify_witness :
  exists s, stringify demo_nested = VStr s /\ parse s = Some (plain demo_nested).
Proof.
  eexists. split; [reflexivity|]. by apply (parse_stringify demo_nested).
Defined.

Lemma stringify_inj_witness : plain (VArr [VNum 1; VUndefined]) = VArr [VNum 1; VNull].
Proof. by apply stringify_inj. Defined.

Lemma parse_stringify_parse_witness :
  exists t, stringify (VArr [VNum 1; VNull]) = VStr t
    /\ parse t = Some (VArr [VNum 1; VNull]).
Proof. by apply (parse_stringify_parse "[1, null]"). Defined.
