(* ===== verification/Promise.v ===== *)
(** * Parse.Promise, as the adapter uses it

    The adapter creates one promise per device ([new Parse.Promise()]),
    resolves it from the publish callback ([promise.resolve(response)]) and
    joins the promises with [Parse.Promise.when].  This file models that
    part of the library: a promise is a [cell] of the heap; [when] creates a
    [join] with one result slot per input, a countdown and the state of the
    aggregate promise, and registers on each input a [reaction] that fills
    its slot; resolving a cell runs its reactions at once, as the library
    does outside its A+ mode.  The promise that [then] derives for each
    reaction is not represented: nothing reads it. *)

From stdpp Require Import base option list strings.
From S2P Require Import Prelude JsValue.

(** ** The heap of promises *)

Inductive pstate : Type :=
| Pending
| Resolved (v : value)
| Rejected (e : value).

(** A callback registered by [when]: it fills slot [r_index] of join
    [r_join]. *)
Record reaction : Type := Reaction { r_join : nat; r_index : nat }.

Record cell : Type := Cell { c_state : pstate; c_reactions : list reaction }.

Inductive status : Type := SPending | SResolved | SRejected.

(** The closure of one call of [when]: [total], [hadError], the arrays
    [results] and [errors], and the aggregate promise.  The aggregate is
    resolved with the array [results] itself, so its value is read from
    [j_results]. *)
Record join : Type := Join {
  j_total : Z;
  j_hadError : bool;
  j_results : list value;
  j_errors : list value;
  j_status : status
}.

Record pheap : Type := PHeap { cells : list cell; joins : list join }.

#[export] Instance pstate_eq_dec : EqDecision pstate.
Proof. solve_decision. Defined.
#[export] Instance reaction_eq_dec : EqDecision reaction.
Proof. solve_decision. Defined.
#[export] Instance cell_eq_dec : EqDecision cell.
Proof. solve_decision. Defined.
#[export] Instance status_eq_dec : EqDecision status.
Proof. solve_decision. Defined.
#[export] Instance join_eq_dec : EqDecision join.
Proof. solve_decision. Defined.
#[export] Instance pheap_eq_dec : EqDecision pheap.
Proof. solve_decision. Defined.

Definition empty_heap : pheap := PHeap [] [].

Definition set_cells (f : list cell -> list cell) (h : pheap) : pheap :=
  PHeap (f (cells h)) (joins h).

Definition set_joins (f : list join -> list join) (h : pheap) : pheap :=
  PHeap (cells h) (f (joins h)).

(** The value of the aggregate promise of a join. *)
Definition join_state (j : join) : pstate :=
  match j_status j with
  | SPending => Pending
  | SResolved => Resolved (VArr (j_results j))
  | SRejected => Rejected (VArr (j_errors j))
  end.

(** ** Operations *)

(** [new Parse.Promise()]. *)
Definition promise_new : eff pheap exn nat :=
  fun h => (Normal (length (cells h)), set_cells (fun cs => cs ++ [Cell Pending []]) h).

(** [resolveOne] of [when]: count down, and complete the aggregate when
    the count reaches zero.  Completing a completed promise throws, after
    the count has been written. *)
Definition resolve_one : eff join exn unit :=
  fun j =>
    let total := (j_total j - 1)%Z in
    let j' := Join total (j_hadError j) (j_results j) (j_errors j) (j_status j) in
    if decide (total <= 0)%Z then
      match j_status j with
      | SPending =>
          (Normal tt, Join total (j_hadError j) (j_results j) (j_errors j)
                        (if j_hadError j then SRejected else SResolved))
      | _ => (Throw PromiseCompleted, j')
      end
    else (Normal tt, j').

(** Run a computation on one join of the heap. *)
Definition on_join (i : nat) (c : eff join exn unit) : eff pheap exn unit :=
  fun h =>
    match joins h !! i with
    | None => (Throw TypeError, h)
    | Some j => let '(r, j') := c j in (r, set_joins (fun js => <[i := j']> js) h)
    end.

(** The resolved callback of [chain]: [results[index] = result;
    resolveOne()]. *)
Definition fill (r : reaction) (v : value) : eff pheap exn unit :=
  on_join (r_join r)
    (fun j => resolve_one (Join (j_total j) (j_hadError j) (<[r_index r := v]> (j_results j))
                             (j_errors j) (j_status j))).

(** The rejected callback of [chain]: [errors[index] = error; hadError =
    true; resolveOne()]. *)
Definition fill_error (r : reaction) (e : value) : eff pheap exn unit :=
  on_join (r_join r)
    (fun j => resolve_one (Join (j_total j) true (j_results j)
                             (<[r_index r := e]> (j_errors j)) (j_status j))).

(** Run the callbacks of a completed promise in registration order; an
    exception of one stops the loop. *)
Fixpoint run_reactions (f : reaction -> eff pheap exn unit) (rs : list reaction)
  : eff pheap exn unit :=
  match rs with
  | [] => eret tt
  | r :: rs' => run f r ;; run_reactions f rs'
  end.

(** [promise.resolve(v)]: throws on a completed promise; otherwise records
    the result and runs the resolved callbacks. *)
Definition promise_resolve (p : nat) (v : value) : eff pheap exn unit :=
  fun h =>
    match cells h !! p with
    | Some (Cell Pending rs) =>
        run_reactions (fun r => fill r v) rs
          (set_cells (fun cs => <[p := Cell (Resolved v) rs]> cs) h)
    | Some _ => (Throw PromiseCompleted, h)
    | None => (Throw TypeError, h)
    end.

(** [promise.reject(e)]. *)
Definition promise_reject (p : nat) (e : value) : eff pheap exn unit :=
  fun h =>
    match cells h !! p with
    | Some (Cell Pending rs) =>
        run_reactions (fun r => fill_error r e) rs
          (set_cells (fun cs => <[p := Cell (Rejected e) rs]> cs) h)
    | Some _ => (Throw PromiseCompleted, h)
    | None => (Throw TypeError, h)
    end.

(** [chain(object, index)] of [when]: [then] on a completed promise calls
    back at once, on a pending one it registers the callbacks. *)
Definition chain (j : nat) (p : nat) (index : nat) : eff pheap exn unit :=
  fun h =>
    match cells h !! p with
    | Some (Cell Pending rs) =>
        (Normal tt, set_cells (fun cs => <[p := Cell Pending (rs ++ [Reaction j index])]> cs) h)
    | Some (Cell (Resolved v) _) => fill (Reaction j index) v h
    | Some (Cell (Rejected e) _) => fill_error (Reaction j index) e h
    | None => (Throw TypeError, h)
    end.

Fixpoint chain_all (j : nat) (ps : list nat) (index : nat) : eff pheap exn unit :=
  match ps with
  | [] => eret tt
  | p :: ps' => run chain j p index ;; chain_all j ps' (S index)
  end.

(** [Parse.Promise.when(promises)] on an array of promises: the aggregate
    of an empty array is resolved at once with the empty array. *)
Definition promise_when (ps : list nat) : eff pheap exn nat :=
  fun h =>
    let n := length ps in
    let slots := replicate n VUndefined in
    let id := length (joins h) in
    if decide (n = 0) then
      (Normal id, set_joins (fun js => js ++ [Join 0 false slots slots SResolved]) h)
    else
      match chain_all id ps 0
              (set_joins (fun js => js ++ [Join (Z.of_nat n) false slots slots SPending]) h) with
      | (Normal _, h') => (Normal id, h')
      | (Throw e, h') => (Throw e, h')
      end.

(** ** Reading the heap *)

Definition cell_state (h : pheap) (p : nat) : option pstate :=
  c_state <$> cells h !! p.

Definition aggregate (h : pheap) (j : nat) : option pstate :=
  join_state <$> joins h !! j.

(** The slots of a join that a cell will fill. *)
Definition registered (h : pheap) (p : nat) : list reaction :=
  default [] (c_reactions <$> cells h !! p).

(** ** Facts about allocation and completion of cells *)

Lemma promise_new_spec h :
  promise_new h = (Normal (length (cells h)), PHeap (cells h ++ [Cell Pending []]) (joins h)).
Proof. reflexivity. Qed.

Lemma promise_new_state h p h' :
  promise_new h = (Normal p, h') -> cell_state h' p = Some Pending.
Proof.
  rewrite promise_new_spec. intros [= <- <-].
  unfold cell_state. simpl. by rewrite list_lookup_snoc.
Qed.

Lemma promise_new_old h p h' q :
  promise_new h = (Normal p, h') -> q < length (cells h) -> cells h' !! q = cells h !! q.
Proof.
  rewrite promise_new_spec. intros [= <- <-] Hq. simpl. by apply list_lookup_snoc_lt.
Qed.

Lemma promise_resolve_completed h p s rs v :
  cells h !! p = Some (Cell s rs) -> s <> Pending ->
  promise_resolve p v h = (Throw PromiseCompleted, h).
Proof. unfold promise_resolve. intros -> Hs. by destruct s. Qed.

Lemma promise_resolve_no_reactions h p v :
  cells h !! p = Some (Cell Pending []) ->
  promise_resolve p v h
  = (Normal tt, PHeap (<[p := Cell (Resolved v) []]> (cells h)) (joins h)).
Proof. unfold promise_resolve. by intros ->. Qed.

(** Resolving a promise that has no callback changes its own cell at most,
    and leaves it without callback. *)
Lemma promise_resolve_orphan h p s v r h' :
  cells h !! p = Some (Cell s []) -> promise_resolve p v h = (r, h') ->
  joins h' = joins h /\ exists s', cells h' = <[p := Cell s' []]> (cells h).
Proof.
  intros Hp. unfold promise_resolve. rewrite Hp.
  destruct s; intros [= <- <-]; (split; [done|]).
  - by eexists.
  - eexists. by rewrite (list_insert_id _ _ _ Hp).
  - eexists. by rewrite (list_insert_id _ _ _ Hp).
Qed.

(** ** Facts about [resolve_one] and [fill] *)

Lemma resolve_one_counting j :
  (1 < j_total j)%Z ->
  resolve_one j
  = (Normal tt, Join (j_total j - 1) (j_hadError j) (j_results j) (j_errors j) (j_status j)).
Proof. intros. unfold resolve_one. case_decide; [lia | done]. Qed.

Lemma resolve_one_last j :
  (j_total j <= 1)%Z -> j_status j = SPending ->
  resolve_one j
  = (Normal tt, Join (j_total j - 1) (j_hadError j) (j_results j) (j_errors j)
                  (if j_hadError j then SRejected else SResolved)).
Proof. intros ? Hs. unfold resolve_one. case_decide; [by rewrite Hs | lia]. Qed.

Lemma resolve_one_completed j :
  (j_total j <= 1)%Z -> j_status j <> SPending ->
  resolve_one j
  = (Throw PromiseCompleted,
     Join (j_total j - 1) (j_hadError j) (j_results j) (j_errors j) (j_status j)).
Proof. intros ? Hs. unfold resolve_one. case_decide; [by destruct (j_status j) | lia]. Qed.

Lemma resolve_one_preserves j r j' :
  resolve_one j = (r, j') ->
  j_results j' = j_results j /\ j_errors j' = j_errors j
  /\ j_hadError j' = j_hadError j /\ j_total j' = (j_total j - 1)%Z.
Proof.
  unfold resolve_one. case_decide; [destruct (j_status j)|]; by intros [= <- <-].
Qed.

Lemma fill_spec r v h j :
  joins h !! r_join r = Some j ->
  fill r v h
  = let '(c, j') := resolve_one (Join (j_total j) (j_hadError j)
                                   (<[r_index r := v]> (j_results j)) (j_errors j) (j_status j)) in
    (c, PHeap (cells h) (<[r_join r := j']> (joins h))).
Proof. unfold fill, on_join. by intros ->. Qed.

Lemma fill_cells r v h c h' : fill r v h = (c, h') -> cells h' = cells h.
Proof.
  unfold fill, on_join. destruct (joins h !! r_join r); [|by intros [= <- <-]].
  destruct (resolve_one _). by intros [= <- <-].
Qed.

Lemma fill_joins_length r v h c h' : fill r v h = (c, h') -> length (joins h') = length (joins h).
Proof.
  unfold fill, on_join. destruct (joins h !! r_join r); [|by intros [= <- <-]].
  destruct (resolve_one _). intros [= <- <-]. simpl. by rewrite length_insert.
Qed.

(** ** Completing a promise allocates nothing *)

(** The number of promises and of joins of a heap. *)
Definition heap_size (h : pheap) : nat * nat := (length (cells h), length (joins h)).

Lemma fill_size r v h c h' : fill r v h = (c, h') -> heap_size h' = heap_size h.
Proof.
  intros Hfill. unfold heap_size.
  by rewrite (fill_cells _ _ _ _ _ Hfill), (fill_joins_length _ _ _ _ _ Hfill).
Qed.

Lemma run_reactions_size f rs :
  (forall r h c h', f r h = (c, h') -> heap_size h' = heap_size h) ->
  forall h c h', run_reactions f rs h = (c, h') -> heap_size h' = heap_size h.
Proof.
  intros Hf. induction rs as [|r rs IH]; intros h c h'; simpl; [by intros [= _ <-]|].
  unfold ebind. destruct (f r h) as [[[]|e] h1] eqn:Hr.
  - intros Hrest%IH. rewrite Hrest. eauto.
  - intros [= _ <-]. eauto.
Qed.

Lemma promise_resolve_size p v h c h' :
  promise_resolve p v h = (c, h') -> heap_size h' = heap_size h.
Proof.
  unfold promise_resolve. destruct (cells h !! p) as [[[] rs]|]; try by intros [= _ <-].
  intros Hrun%(run_reactions_size _ _ (fun r => fill_size r v)). rewrite Hrun.
  unfold heap_size. cbn. by rewrite length_insert.
Qed.

(** ** Facts about [when] on fresh promises *)

(** Registering on [n] consecutive pending promises without callbacks
    gives each its slot, in order. *)
Lemma chain_all_fresh j pre n index rest js :
  chain_all j (seq (length pre) n) index
    (PHeap (pre ++ replicate n (Cell Pending []) ++ rest) js)
  = (Normal tt,
     PHeap (pre ++ ((fun i => Cell Pending [Reaction j i]) <$> seq index n) ++ rest) js).
Proof.
  revert pre index. induction n as [|n IH]; intros pre index; [done|].
  simpl. unfold ebind at 1, chain. simpl.
  rewrite list_lookup_middle by done. simpl.
  unfold set_cells. simpl. rewrite insert_app_r_alt, Nat.sub_diag by done. simpl.
  rewrite (cons_middle _ pre). rewrite app_assoc.
  replace (S (length pre)) with (length (pre ++ [Cell Pending [Reaction j index]]))
    by (rewrite length_app; simpl; lia).
  rewrite IH. by rewrite <- app_assoc.
Qed.

(** [when] on [n] fresh promises: a new pending join with [n] empty slots,
    or a join resolved with the empty array when [n] is zero. *)
Lemma promise_when_fresh pre n js :
  promise_when (seq (length pre) n) (PHeap (pre ++ replicate n (Cell Pending [])) js)
  = (Normal (length js),
     PHeap (pre ++ ((fun i => Cell Pending [Reaction (length js) i]) <$> seq 0 n))
       (js ++ [Join (Z.of_nat n) false (replicate n VUndefined) (replicate n VUndefined)
                 (if decide (n = 0) then SResolved else SPending)])).
Proof.
  unfold promise_when. rewrite length_seq. simpl.
  case_decide as Hn; [by subst|].
  unfold set_joins. simpl.
  pose proof (chain_all_fresh (length js) pre n 0 [] ) as Hc.
  rewrite !app_nil_r in Hc. by rewrite Hc.
Qed.

(** ** Resolving a promise registered in one join *)

Lemma promise_resolve_registered h p v j i jn :
  cells h !! p = Some (Cell Pending [Reaction j i]) ->
  joins h !! j = Some jn ->
  promise_resolve p v h
  = let '(c, jn') := resolve_one (Join (j_total jn) (j_hadError jn) (<[i := v]> (j_results jn))
                                    (j_errors jn) (j_status jn)) in
    (c, PHeap (<[p := Cell (Resolved v) [Reaction j i]]> (cells h)) (<[j := jn']> (joins h))).
Proof.
  intros Hp Hj. unfold promise_resolve. rewrite Hp. simpl.
  unfold ebind, fill, on_join. simpl. rewrite Hj.
  destruct (resolve_one _) as [[[]|e] jn']; done.
Qed.
