(* ===== verification/World.v ===== *)
(** * The state the adapter runs in and the collaborators it calls

    [world] holds everything the module of [src/src/SNS.js] reads or writes
    outside its own variables: the SDK's shared configuration
    ([AWS.config]), the clock ([Date.now()]), the entropy behind
    [randomString], the heap of promises, the publish calls in flight at
    the transport, the log ([npmlog]), the exceptions that left a callback,
    and the global scope in which free identifiers are resolved.

    [Collaborators] is the interface of the code the module imports and
    does not define: the GCM and APNS payload encoders and the random
    identifier generator.  The adapter's theorems are proved against the
    interface; [Payload] discharges it with a concrete instance for the
    witnesses. *)

From stdpp Require Import base option list strings gmap.
From S2P Require Import Prelude JsValue Promise.

(** ** The SDK's shared configuration and its clients *)

(** [AWS.config], as far as the adapter writes it. *)
Record aws_config : Type := AwsConfig {
  accessKeyId : value;
  secretAccessKey : value;
  region : value
}.

(** An [AWS.SNS] service object: it keeps the configuration it was created
    under. *)
Record sns_client : Type := SnsClient { client_config : aws_config }.

(** The object the constructor initialises: [this.sns]. *)
Record sns_adapter : Type := SnsAdapter { sns : sns_client }.

(** ** Publish calls in flight *)

(** One call [sns.publish(params, callback)] whose callback has not run:
    the client, the parameters, and the variables the callback closes over
    ([device] and [promise]). *)
Record request : Type := Request {
  rq_client : sns_client;
  rq_params : value;
  rq_device : value;
  rq_promise : nat
}.

(** ** The log *)

Inductive log_level : Type := LError | LVerbose.

(** One call of [log.error] or [log.verbose] with its arguments. *)
Record log_entry : Type := LogEntry { l_level : log_level; l_args : list value }.

(** ** The world *)

Record world : Type := World {
  w_config : aws_config;
  w_clock : Z;
  w_seed : N;
  w_heap : pheap;
  w_inflight : list (option request);
  w_log : list log_entry;
  w_uncaught : list exn;
  w_globals : gmap string value
}.

#[export] Instance aws_config_eq_dec : EqDecision aws_config.
Proof. solve_decision. Defined.
#[export] Instance sns_client_eq_dec : EqDecision sns_client.
Proof. solve_decision. Defined.
#[export] Instance sns_adapter_eq_dec : EqDecision sns_adapter.
Proof. solve_decision. Defined.
#[export] Instance request_eq_dec : EqDecision request.
Proof. solve_decision. Defined.
#[export] Instance log_level_eq_dec : EqDecision log_level.
Proof. solve_decision. Defined.
#[export] Instance log_entry_eq_dec : EqDecision log_entry.
Proof. solve_decision. Defined.
#[export] Instance world_eq_dec : EqDecision world.
Proof. solve_decision. Defined.

(** A process in which nothing has happened yet. *)
Definition initial_config : aws_config := AwsConfig VUndefined VUndefined VUndefined.

Definition initial_world (clock : Z) (seed : N) (globals : gmap string value) : world :=
  World initial_config clock seed empty_heap [] [] [] globals.

Definition set_config (c : aws_config) (w : world) : world :=
  World c (w_clock w) (w_seed w) (w_heap w) (w_inflight w) (w_log w) (w_uncaught w)
    (w_globals w).

Definition set_seed (s : N) (w : world) : world :=
  World (w_config w) (w_clock w) s (w_heap w) (w_inflight w) (w_log w) (w_uncaught w)
    (w_globals w).

Definition set_heap (h : pheap) (w : world) : world :=
  World (w_config w) (w_clock w) (w_seed w) h (w_inflight w) (w_log w) (w_uncaught w)
    (w_globals w).

Definition set_inflight (l : list (option request)) (w : world) : world :=
  World (w_config w) (w_clock w) (w_seed w) (w_heap w) l (w_log w) (w_uncaught w)
    (w_globals w).

Definition set_log (l : list log_entry) (w : world) : world :=
  World (w_config w) (w_clock w) (w_seed w) (w_heap w) (w_inflight w) l (w_uncaught w)
    (w_globals w).

Definition set_uncaught (l : list exn) (w : world) : world :=
  World (w_config w) (w_clock w) (w_seed w) (w_heap w) (w_inflight w) (w_log w) l
    (w_globals w).

Abbreviation io := (eff world exn).

(** ** Collaborators *)

Class Collaborators : Type := {
  (** [GCM.generateGCMPayload(coreData, pushId, timeStamp, expirationTime)] *)
  generateGCMPayload : value -> value -> value -> value -> js value;
  (** [APNS.generateNotification(coreData, expirationTime)] *)
  generateNotification : value -> value -> js value;
  (** [randomString(size)], as a function of the entropy it consumes *)
  randomString : nat -> N -> string * N;
  randomString_length : forall size seed, String.length (randomString size seed).1 = size
}.

(** ** Primitive effects *)

(** Run a computation on the heap of promises. *)
Definition on_heap {A} (c : eff pheap exn A) : io A :=
  fun w => let '(r, h) := c (w_heap w) in (r, set_heap h w).

(** [Date.now()]. *)
Definition date_now : io value := fun w => (Normal (VNum (w_clock w)), w).

(** [randomString(size)]. *)
Definition random_string `{Collaborators} (size : nat) : io value :=
  fun w => let '(s, seed) := randomString size (w_seed w) in (Normal (VStr s), set_seed seed w).

(** A free identifier of the module: its binding in the global scope, or a
    ReferenceError. *)
Definition lookup_global (name : string) : io value :=
  fun w =>
    match w_globals w !! name with
    | Some v => (Normal v, w)
    | None => (Throw (ReferenceError name), w)
    end.

(** [log.error(...)] and [log.verbose(...)]. *)
Definition log_call (level : log_level) (args : list value) : io unit :=
  emodify (fun w => set_log (w_log w ++ [LogEntry level args]) w).

(** [AWS.config.update({accessKeyId, secretAccessKey, region})]. *)
Definition aws_config_update (c : aws_config) : io unit := emodify (set_config c).

(** [new AWS.SNS()]. *)
Definition new_sns_client : io sns_client := fun w => (Normal (SnsClient (w_config w)), w).

(** [sns.publish(params, callback)]: the call is handed to the transport
    and returns; [device] and [promise] are what the callback closes
    over. *)
Definition sns_publish (client : sns_client) (params device : value) (promise : nat) : io unit :=
  emodify (fun w => set_inflight (w_inflight w ++ [Some (Request client params device promise)]) w).

(** ** The primitives under a bind *)

Lemma ebind_log_call {B} level args (k : unit -> io B) w :
  ebind (log_call level args) k w = k tt (set_log (w_log w ++ [LogEntry level args]) w).
Proof. reflexivity. Qed.

Lemma ebind_sns_publish {B} client params device promise (k : unit -> io B) w :
  ebind (sns_publish client params device promise) k w
  = k tt (set_inflight (w_inflight w ++ [Some (Request client params device promise)]) w).
Proof. reflexivity. Qed.

Lemma ebind_on_heap {A B} (c : eff pheap exn A) (k : A -> io B) w :
  ebind (on_heap c) k w
  = match c (w_heap w) with
    | (Normal a, h) => k a (set_heap h w)
    | (Throw e, h) => (Throw e, set_heap h w)
    end.
Proof. unfold ebind, on_heap. by destruct (c (w_heap w)) as [[] ?]. Qed.

Lemma set_log_set_log l l' w : set_log l (set_log l' w) = set_log l w.
Proof. reflexivity. Qed.

Lemma set_log_id w : set_log (w_log w) w = w.
Proof. by destruct w. Qed.

Lemma set_heap_id w : set_heap (w_heap w) w = w.
Proof. by destruct w. Qed.

#[export] Hint Rewrite @ebind_log_call @ebind_sns_publish set_log_set_log set_log_id
  set_heap_id : js_rw.

(** ** Frame facts: what each primitive leaves alone *)

Lemma on_heap_spec {A} (c : eff pheap exn A) w r h :
  c (w_heap w) = (r, h) -> on_heap c w = (r, set_heap h w).
Proof. unfold on_heap. by intros ->. Qed.

Lemma on_heap_frame {A} (c : eff pheap exn A) w r w' :
  on_heap c w = (r, w') ->
  w_config w' = w_config w /\ w_inflight w' = w_inflight w /\ w_log w' = w_log w
  /\ w_globals w' = w_globals w /\ w_uncaught w' = w_uncaught w
  /\ c (w_heap w) = (r, w_heap w').
Proof. unfold on_heap. destruct (c (w_heap w)). by intros [= <- <-]. Qed.

Lemma lookup_global_bound name v w :
  w_globals w !! name = Some v -> lookup_global name w = (Normal v, w).
Proof. unfold lookup_global. by intros ->. Qed.

Lemma lookup_global_unbound name w :
  w_globals w !! name = None -> lookup_global name w = (Throw (ReferenceError name), w).
Proof. unfold lookup_global. by intros ->. Qed.

Lemma random_string_length `{Collaborators} size w v w' :
  random_string size w = (Normal v, w') -> exists s, v = VStr s /\ String.length s = size.
Proof.
  unfold random_string. pose proof (randomString_length size (w_seed w)) as Hlen.
  destruct (randomString size (w_seed w)) as [s seed]. intros [= <- <-]. eauto.
Qed.
