(* ===== verification/Config.v ===== *)
(** * The constructor [SNS(args)]

    [src/src/SNS.js] lines 10-25: the module constants, the guard on the
    configuration, the update of the SDK's shared configuration and the
    creation of the client, for [new SNS(args)] and, under the strict mode
    of line 1, for a call without [new].  [valid_config] is the contract of the spec (an
    object carrying a truthy [accessKey] and [secretKey]); the theorems
    relate the constructor to it on every input. *)

From stdpp Require Import base option list strings gmap.
From S2P Require Import Prelude JsValue Promise World.

(** ** The module constants (lines 10-11) *)

Definition LOG_PREFIX : string := "parse-server-push-adapter SNS".
Definition DEFAULT_REGION : string := "us-east-1".

(** ** The constructor (lines 13-25) *)

(** The condition of line 14, [typeof args !== 'object' || !args.accessKey
    || !args.secretKey], with the short circuit of [||]: a property is read
    only when the tests before it were false. *)
Definition config_invalid (args : value) : js bool :=
  if negb (bool_decide (typeof args = "object")) then Normal true
  else
    accessKey <- get args "accessKey" ;;
    if negb (truthy accessKey) then Normal true
    else
      secretKey <- get args "secretKey" ;;
      Normal (negb (truthy secretKey)).

(** The object literal of lines 19-23. *)
Definition config_of_args (args : value) : js aws_config :=
  accessKey <- get args "accessKey" ;;
  secretKey <- get args "secretKey" ;;
  region <- get args "region" ;;
  Normal (AwsConfig accessKey secretKey (js_or region (VStr DEFAULT_REGION))).

Definition SNS (args : value) : io sns_adapter :=
  invalid <~ elift (config_invalid args) ;;
  if (invalid : bool) then
    ethrow (ParseError PUSH_MISCONFIGURED "SNS Configuration is invalid")
  else
    config <~ elift (config_of_args args) ;;
    run aws_config_update config ;;
    client <~ new_sns_client ;;
    eret (SnsAdapter client).

(** ** The constructor called as a function (line 1) *)

(** The module is strict code: a function called without [new] and without
    a receiver runs with [this] undefined. *)
Definition this_of_call : value := VUndefined.

(** [SNS(args)] without [new]: the statements of the constructor in their
    order, and the assignment to [this.sns] of line 24 on the [this] of a
    plain call. *)
Definition SNS_call (args : value) : io value :=
  invalid <~ elift (config_invalid args) ;;
  if (invalid : bool) then
    ethrow (ParseError PUSH_MISCONFIGURED "SNS Configuration is invalid")
  else
    config <~ elift (config_of_args args) ;;
    run aws_config_update config ;;
    client <~ new_sns_client ;;
    if loose_neq_null this_of_call then eret VUndefined else ethrow TypeError.

(** ** The contract *)

(** What the spec asks of a configuration: an object with a non-empty
    [accessKey] and [secretKey]. *)
Definition valid_config (args : value) : bool :=
  match args with
  | VObj _ => truthy (field args "accessKey") && truthy (field args "secretKey")
  | _ => false
  end.

(** The configuration an accepted [args] installs. *)
Definition installed_config (args : value) : aws_config :=
  AwsConfig (field args "accessKey") (field args "secretKey")
    (js_or (field args "region") (VStr DEFAULT_REGION)).

(** ** The guard *)

Lemma config_invalid_obj fields :
  config_invalid (VObj fields) = Normal (negb (valid_config (VObj fields))).
Proof.
  unfold config_invalid, valid_config. simpl.
  by destruct (truthy (field (VObj fields) "accessKey")).
Qed.

Lemma config_invalid_null : config_invalid VNull = Throw TypeError.
Proof. reflexivity. Qed.

(** The guard computes the negation of the contract on every input but
    [null], where reading [accessKey] throws. *)
Lemma config_invalid_spec args :
  args <> VNull -> config_invalid args = Normal (negb (valid_config args)).
Proof.
  intros Hnull. destruct args; try done; try apply config_invalid_obj.
  - unfold config_invalid. by rewrite get_named.
  - unfold config_invalid. by rewrite get_named.
Qed.

Lemma config_of_args_obj fields :
  config_of_args (VObj fields) = Normal (installed_config (VObj fields)).
Proof. reflexivity. Qed.

Lemma valid_config_obj args :
  valid_config args = true -> exists fields, args = VObj fields.
Proof. destruct args; naive_solver. Qed.

(** ** The constructor on every input *)

(** The three ways the constructor can go. *)
Lemma SNS_run args w :
  SNS args w
  = if decide (args = VNull) then (Throw TypeError, w)
    else if valid_config args
    then (Normal (SnsAdapter (SnsClient (installed_config args))),
          set_config (installed_config args) w)
    else (Throw (ParseError PUSH_MISCONFIGURED "SNS Configuration is invalid"), w).
Proof.
  case_decide as Hnull; [by subst|]. unfold SNS.
  rewrite ebind_Normal with (a := negb (valid_config args)) (s' := w)
    by (unfold elift; by rewrite config_invalid_spec).
  destruct (valid_config args) eqn:Hvalid; [|done].
  by destruct (valid_config_obj _ Hvalid) as [fields ->].
Qed.



(** A configuration that is not [null] and does not satisfy the contract
    makes the constructor throw PUSH_MISCONFIGURED, with the world
    untouched: the shared configuration is not updated and no client is
    created. *)
Theorem SNS_rejects args w :
  args <> VNull -> valid_config args = false ->
  SNS args w = (Throw (ParseError PUSH_MISCONFIGURED "SNS Configuration is invalid"), w).
Proof. intros Hnull Hvalid. by rewrite SNS_run, Hvalid, decide_False. Qed.

(** [new SNS(null)] does not raise the misconfiguration error:
    [typeof null] is ['object'], so the guard goes on to read
    [null.accessKey], which throws a TypeError. *)
Theorem SNS_null_TypeError w : SNS VNull w = (Throw TypeError, w).
Proof. reflexivity. Qed.

(** C8: the constructor on every input.  It succeeds exactly when the
    contract holds, and then returns a client created under the
    configuration it has installed; otherwise it throws and leaves the
    whole world as it was, the shared configuration included: a TypeError
    for [null], of which [typeof] is ['object'], and PUSH_MISCONFIGURED for
    every other argument.  It never touches the transport, the heap or the
    log. *)
Theorem SNS_total args w :
  match SNS args w with
  | (Normal a, w') =>
      valid_config args = true
      /\ a = SnsAdapter (SnsClient (installed_config args))
      /\ w' = set_config (installed_config args) w
  | (Throw e, w') =>
      valid_config args = false /\ w' = w
      /\ e = (if decide (args = VNull) then TypeError
              else ParseError PUSH_MISCONFIGURED "SNS Configuration is invalid")
  end.
Proof.
  rewrite SNS_run. case_decide as Hnull; [by subst|].
  by destruct (valid_config args).
Qed.

(** C31: without [new] the constructor never returns: it throws what [new
    SNS(args)] throws, and where that would have succeeded it throws a
    TypeError after the shared configuration has been replaced. *)
Theorem SNS_call_throws args w :
  SNS_call args w
  = match SNS args w with
    | (Normal _, w') => (Throw TypeError, w')
    | (Throw e, w') => (Throw e, w')
    end.
Proof.
  rewrite SNS_run. unfold SNS_call. case_decide as Hnull; [by subst|].
  rewrite ebind_Normal with (a := negb (valid_config args)) (s' := w)
    by (unfold elift; by rewrite config_invalid_spec).
  destruct (valid_config args) eqn:Hvalid; [|done].
  by destruct (valid_config_obj _ Hvalid) as [fields ->].
Qed.

(** What a construction that succeeded has done. *)
Lemma SNS_Normal args w a w' :
  SNS args w = (Normal a, w') ->
  a = SnsAdapter (SnsClient (installed_config args))
  /\ w' = set_config (installed_config args) w.
Proof.
  rewrite SNS_run. case_decide; [done|]. destruct (valid_config args); naive_solver.
Qed.

(** The region a successful construction installs is [args.region]
    when that is truthy and the default us-east-1 otherwise; the client
    sees the same region. *)
Theorem SNS_region args w a w' :
  SNS args w = (Normal a, w') ->
  region (w_config w')
  = (if truthy (field args "region") then field args "region" else VStr "us-east-1")
  /\ region (client_config (sns a)) = region (w_config w').
Proof. by intros [-> ->]%SNS_Normal. Qed.

(** The configuration is shared: a second construction overwrites what
    the first installed, while the client of the first keeps the
    configuration it was created under. *)
Theorem SNS_shared_config args1 args2 w a1 w1 a2 w2 :
  SNS args1 w = (Normal a1, w1) -> SNS args2 w1 = (Normal a2, w2) ->
  w_config w2 = client_config (sns a2)
  /\ client_config (sns a1) = w_config w1
  /\ w2 = set_config (client_config (sns a2)) w.
Proof. by intros [-> ->]%SNS_Normal [-> ->]%SNS_Normal. Qed.

(** ** Witnesses *)

Definition witness_args : value :=
  VObj [("accessKey", VStr "AKIA"); ("secretKey", VStr "s3cr3t")].

Definition witness_world : world := initial_world 1000 7 ∅.


Lemma SNS_rejects_witness :
  SNS (VObj [("accessKey", VStr "AKIA"); ("secretKey", VStr "")]) witness_world
  = (Throw (ParseError PUSH_MISCONFIGURED "SNS Configuration is invalid"), witness_world).
Proof. apply SNS_rejects; [discriminate | reflexivity]. Defined.

Definition witness_args2 : value :=
  VObj [("accessKey", VStr "K2"); ("secretKey", VStr "S2"); ("region", VStr "eu-west-1")].

Definition witness_config1 : aws_config :=
  AwsConfig (VStr "AKIA") (VStr "s3cr3t") (VStr "us-east-1").

Definition witness_config2 : aws_config :=
  AwsConfig (VStr "K2") (VStr "S2") (VStr "eu-west-1").

Lemma SNS_shared_config_witness :
  w_config (set_config witness_config2 witness_world) = witness_config2
  /\ witness_config1 = w_config (set_config witness_config1 witness_world)
  /\ set_config witness_config2 witness_world = set_config witness_config2 witness_world.
Proof.
  apply (SNS_shared_config witness_args witness_args2 witness_world
           (SnsAdapter (SnsClient witness_config1)) (set_config witness_config1 witness_world)
           (SnsAdapter (SnsClient witness_config2)) (set_config witness_config2 witness_world));
    reflexivity.
Defined.

Lemma SNS_region_witness :
  region (w_config (set_config witness_config1 witness_world)) = VStr "us-east-1"
  /\ region (client_config (sns (SnsAdapter (SnsClient witness_config1))))
     = region (w_config (set_config witness_config1 witness_world)).
Proof.
  by apply (SNS_region witness_args witness_world (SnsAdapter (SnsClient witness_config1))
              (set_config witness_config1 witness_world)).
Defined.
