(* ===== verification/Payload.v ===== *)
(** * The payload builder and the attribute builder

    [src/src/SNS.js] lines 28-56.  [generatePayload] reads [data.data] and
    [data.expirationTime] as often and in the order the source does, draws
    the random identifier and the timestamp between the two reads of the
    first call, runs the two encoders and builds the six-entry object whose
    values are [JSON.stringify] results.  [bundle] is the object it returns
    on the normal path; the theorems describe every path. *)

From stdpp Require Import base option list strings gmap.
From Stdlib.Strings Require Import Ascii.
From S2P Require Import Prelude JsValue Hex Json Promise World.

Section payload.
Context `{Collaborators}.

(** ** [generatePayload] (lines 28-42) *)

Definition generatePayload (data : value) : io value :=
  coreData <~ elift (get data "data") ;;
  pushId <~ random_string 10 ;;
  timeStamp <~ date_now ;;
  expirationTime <~ elift (get data "expirationTime") ;;
  gcmPayload <~ elift (generateGCMPayload coreData pushId timeStamp expirationTime) ;;
  coreData2 <~ elift (get data "data") ;;
  expirationTime2 <~ elift (get data "expirationTime") ;;
  apnsPayload <~ elift (generateNotification coreData2 expirationTime2) ;;
  coreData3 <~ elift (get data "data") ;;
  let admPayload := VObj [("data", coreData3)] in
  wnsPayload <~ elift (get data "data") ;;
  coreData4 <~ elift (get data "data") ;;
  eret (VObj [("GCM", stringify gcmPayload);
              ("APNS", stringify apnsPayload);
              ("APNS_SANDBOX", stringify apnsPayload);
              ("ADM", stringify admPayload);
              ("WNS", stringify wnsPayload);
              ("default", stringify coreData4)]).

(** ** [generateMessageAttributes] (lines 45-56) *)

Definition generateMessageAttributes (data : value) : value :=
  VObj [("AWS.SNS.MOBILE.WNS.Type",
         VObj [("DataType", VStr "String"); ("StringValue", VStr "wns/raw")]);
        ("AWS.SNS.MOBILE.WNS.CachePolicy",
         VObj [("DataType", VStr "String"); ("StringValue", VStr "cache")])].

(** ** The bundle *)

(** The platform families, in the order of the object literal. *)
Definition platform_keys : list string :=
  ["GCM"; "APNS"; "APNS_SANDBOX"; "ADM"; "WNS"; "default"].

(** The payload bundle for the outputs [gcm] and [apns] of the encoders and
    the application data [coreData]. *)
Definition bundle (gcm apns coreData : value) : value :=
  VObj [("GCM", stringify gcm);
        ("APNS", stringify apns);
        ("APNS_SANDBOX", stringify apns);
        ("ADM", stringify (VObj [("data", coreData)]));
        ("WNS", stringify coreData);
        ("default", stringify coreData)].

(** ** Every path of [generatePayload] *)

(** The builder on an intent that is not [null] or [undefined]: the
    identifier is drawn first, then the encoders run in order; the first
    exception ends the call, and the entropy consumed stays consumed. *)
Lemma generatePayload_run data w :
  loose_neq_null data = true ->
  generatePayload data w
  = match generateGCMPayload (field data "data") (VStr (randomString 10 (w_seed w)).1)
            (VNum (w_clock w)) (field data "expirationTime") with
    | Throw e => (Throw e, set_seed (randomString 10 (w_seed w)).2 w)
    | Normal gcm =>
        match generateNotification (field data "data") (field data "expirationTime") with
        | Throw e => (Throw e, set_seed (randomString 10 (w_seed w)).2 w)
        | Normal apns =>
            (Normal (bundle gcm apns (field data "data")),
             set_seed (randomString 10 (w_seed w)).2 w)
        end
    end.
Proof.
  intros Hdata. unfold generatePayload. rewrite !get_field by done.
  rewrite ebind_elift. unfold ebind at 1, random_string.
  destruct (randomString 10 (w_seed w)) as [pushId seed].
  unfold ebind at 1, date_now. simpl.
  rewrite !ebind_elift.
  destruct (generateGCMPayload _ _ _ _) as [gcm|e]; [|done].
  rewrite !ebind_elift.
  by destruct (generateNotification _ _) as [apns|e].
Qed.

(** ** The normal path *)

(** C7: for an intent that is not [null] or [undefined] and encoders that
    return, the builder returns the bundle of the two encodings and of
    [data.data], the GCM encoder having received a fresh ten-character
    identifier and the current time; the only effect is the entropy
    consumed. *)
Theorem generatePayload_ok data w gcm apns :
  loose_neq_null data = true ->
  generateGCMPayload (field data "data") (VStr (randomString 10 (w_seed w)).1)
    (VNum (w_clock w)) (field data "expirationTime") = Normal gcm ->
  generateNotification (field data "data") (field data "expirationTime") = Normal apns ->
  generatePayload data w
  = (Normal (bundle gcm apns (field data "data")), set_seed (randomString 10 (w_seed w)).2 w)
  /\ String.length (randomString 10 (w_seed w)).1 = 10.
Proof.
  intros Hdata Hgcm Hapns. split; [|apply randomString_length].
  rewrite generatePayload_run by done. by rewrite Hgcm, Hapns.
Qed.

(** The builder changes nothing of the world but the seed of the random
    source. *)
Lemma generatePayload_world data w r w' :
  generatePayload data w = (r, w') -> exists seed, w' = set_seed seed w.
Proof.
  destruct (loose_neq_null data) eqn:Hdata.
  - rewrite generatePayload_run by done. exists (randomString 10 (w_seed w)).2.
    destruct (generateGCMPayload _ _ _ _); [destruct (generateNotification _ _)|];
      congruence.
  - unfold generatePayload. rewrite get_null by done. intros [= _ <-].
    exists (w_seed w). by destruct w.
Qed.

(** Whatever the builder returns normally is a bundle. *)
Lemma generatePayload_Normal data w p w' :
  generatePayload data w = (Normal p, w') ->
  loose_neq_null data = true
  /\ exists gcm apns, p = bundle gcm apns (field data "data")
       /\ generateNotification (field data "data") (field data "expirationTime") = Normal apns.
Proof.
  destruct (loose_neq_null data) eqn:Hdata.
  - rewrite generatePayload_run by done.
    destruct (generateGCMPayload _ _ _ _) as [gcm|]; [|done].
    destruct (generateNotification _ _) as [apns|] eqn:Hapns; [|done].
    intros [= <- <-]. eauto.
  - unfold generatePayload. rewrite get_null by done. done.
Qed.

(** The bundle holds what the two encoders returned on the data of the
    intent, the GCM encoder having been given the identifier drawn from
    the seed and the time of the clock. *)
Lemma generatePayload_encodings data w p w' :
  generatePayload data w = (Normal p, w') ->
  exists gcm apns,
    p = bundle gcm apns (field data "data")
    /\ generateGCMPayload (field data "data") (VStr (randomString 10 (w_seed w)).1)
         (VNum (w_clock w)) (field data "expirationTime") = Normal gcm
    /\ generateNotification (field data "data") (field data "expirationTime") = Normal apns.
Proof.
  destruct (loose_neq_null data) eqn:Hdata.
  - rewrite generatePayload_run by done.
    destruct (generateGCMPayload _ _ _ _) as [gcm|]; [|done].
    destruct (generateNotification _ _) as [apns|]; [|done].
    intros [= <- <-]. eauto.
  - unfold generatePayload. by rewrite get_null.
Qed.

(** C13: a bundle has exactly the six platform keys, in the order of the
    object literal and each once, whatever the intent and the encoders; and
    its APNS and APNS_SANDBOX entries are the same value: one encoding,
    serialized twice. *)
Theorem generatePayload_keys data w p w' :
  generatePayload data w = (Normal p, w') ->
  (own_properties p).*1 = platform_keys /\ NoDup (own_properties p).*1
  /\ field p "APNS" = field p "APNS_SANDBOX"
  /\ exists apns,
       generateNotification (field data "data") (field data "expirationTime") = Normal apns
       /\ field p "APNS" = stringify apns.
Proof.
  intros (_ & gcm & apns & -> & Hapns)%generatePayload_Normal.
  split_and!; [done|by apply (bool_decide_unpack (NoDup platform_keys))|done|eauto].
Qed.

(** The ADM entry wraps the application data under the single key
    [data] and is always a string; the WNS and default entries are the
    serialization of the application data itself. *)
Theorem generatePayload_adm_wns data w p w' :
  generatePayload data w = (Normal p, w') ->
  field p "ADM" = stringify (VObj [("data", field data "data")])
  /\ (exists s, field p "ADM" = VStr s)
  /\ field p "WNS" = stringify (field data "data")
  /\ field p "default" = stringify (field data "data").
Proof.
  intros (_ & gcm & apns & -> & _)%generatePayload_Normal.
  repeat split; eauto.
Qed.

(** When the encoders return defined values and the intent carries
    application data, every entry of the bundle is a string. *)
Theorem generatePayload_all_strings gcm apns coreData k :
  gcm <> VUndefined -> apns <> VUndefined -> coreData <> VUndefined ->
  k ∈ platform_keys ->
  exists s, field (bundle gcm apns coreData) k = VStr s.
Proof.
  intros Hg Ha Hd Hk.
  destruct (stringify_cases gcm) as [[? _]|[_ [sg Hsg]]]; [done|].
  destruct (stringify_cases apns) as [[? _]|[_ [sa Hsa]]]; [done|].
  destruct (stringify_cases coreData) as [[? _]|[_ [sd Hsd]]]; [done|].
  unfold platform_keys in Hk. unfold bundle, field. simpl own_properties.
  rewrite Hsg, Hsa, Hsd.
  repeat (apply elem_of_cons in Hk as [->|Hk]; [simpl; eauto|]).
  by apply elem_of_nil in Hk.
Qed.

(** An intent without application data yields a bundle whose WNS and
    default entries are [undefined], not strings, and whose ADM entry is
    the empty object. *)
Theorem generatePayload_no_data data w p w' :
  generatePayload data w = (Normal p, w') ->
  field data "data" = VUndefined ->
  field p "WNS" = VUndefined /\ field p "default" = VUndefined
  /\ field p "ADM" = VStr "{}".
Proof.
  intros (_ & gcm & apns & -> & _)%generatePayload_Normal Hd.
  rewrite Hd. done.
Qed.

(** ** The exceptional paths *)

(** An intent that is [null] or [undefined] makes the builder throw a
    TypeError at the first read of [data.data], before any entropy is
    consumed. *)
Theorem generatePayload_null data w :
  loose_neq_null data = false -> generatePayload data w = (Throw TypeError, w).
Proof. intros Hdata. unfold generatePayload. by rewrite get_null. Qed.

(** An exception of the GCM encoder leaves the builder as it is,
    after the identifier has been drawn, and the APNS encoder is not
    called; an exception of the APNS encoder leaves it likewise. *)
Theorem generatePayload_encoder_throws data w e :
  loose_neq_null data = true ->
  generateGCMPayload (field data "data") (VStr (randomString 10 (w_seed w)).1)
    (VNum (w_clock w)) (field data "expirationTime") = Throw e
  \/ ((exists gcm,
        generateGCMPayload (field data "data") (VStr (randomString 10 (w_seed w)).1)
          (VNum (w_clock w)) (field data "expirationTime") = Normal gcm)
      /\ generateNotification (field data "data") (field data "expirationTime") = Throw e) ->
  generatePayload data w = (Throw e, set_seed (randomString 10 (w_seed w)).2 w).
Proof.
  intros Hdata Hthrow. rewrite generatePayload_run by done.
  destruct Hthrow as [->|[[gcm ->] ->]]; done.
Qed.

(** ** Independence of the random identifier and of the time *)

(** C39: two runs of the builder on the same intent, at any two times and
    with any entropy, agree on every entry but GCM. *)
Theorem generatePayload_idempotent data w1 w2 p1 p2 w1' w2' k :
  generatePayload data w1 = (Normal p1, w1') ->
  generatePayload data w2 = (Normal p2, w2') ->
  k <> "GCM" -> field p1 k = field p2 k.
Proof.
  intros (_ & g1 & a1 & -> & Ha1)%generatePayload_Normal
         (_ & g2 & a2 & -> & Ha2)%generatePayload_Normal Hk.
  rewrite Ha1 in Ha2. injection Ha2 as <-.
  unfold bundle, field. simpl. by case_decide.
Qed.

End payload.

(** ** Instances of the collaborators, for the witnesses *)

(** Encoders that wrap their inputs, and an identifier made of one
    letter. *)
Definition demo_gcm (coreData pushId timeStamp expirationTime : value) : js value :=
  Normal (VObj [("priority", VStr "normal");
                ("data", VObj [("time", timeStamp); ("push_id", pushId);
                               ("data", stringify coreData)])]).

Definition demo_apns (coreData expirationTime : value) : js value :=
  Normal (VObj [("expiry", expirationTime); ("payload", coreData)]).

Fixpoint letters (size : nat) : string :=
  match size with
  | 0 => ""
  | S n => String "a"%char (letters n)
  end.

Lemma letters_length size : String.length (letters size) = size.
Proof. induction size; simpl; congruence. Qed.

Definition demo_collaborators : Collaborators :=
  {| generateGCMPayload := demo_gcm;
     generateNotification := demo_apns;
     randomString := fun size seed => (letters size, N.succ seed);
     randomString_length := fun size _ => letters_length size |}.

(** The same with an APNS encoder that throws. *)
Definition failing_collaborators : Collaborators :=
  {| generateGCMPayload := demo_gcm;
     generateNotification := fun _ _ => Throw (Foreign (VStr "bad alert"));
     randomString := fun size seed => (letters size, N.succ seed);
     randomString_length := fun size _ => letters_length size |}.

(** The intent of the spec's example: [{ data: { alert: "hi" },
    expirationTime: 1000 }]. *)
Definition demo_data : value :=
  VObj [("data", VObj [("alert", VStr "hi")]); ("expirationTime", VNum 1000)].

Definition demo_world : world := initial_world 1478000000000 7 ∅.

Definition demo_gcm_value : value :=
  VObj [("priority", VStr "normal");
        ("data", VObj [("time", VNum 1478000000000); ("push_id", VStr "aaaaaaaaaa");
                       ("data", stringify (VObj [("alert", VStr "hi")]))])].

Definition demo_apns_value : value :=
  VObj [("expiry", VNum 1000); ("payload", VObj [("alert", VStr "hi")])].

Definition demo_bundle : value :=
  bundle demo_gcm_value demo_apns_value (VObj [("alert", VStr "hi")]).

Lemma generatePayload_ok_witness :
  generatePayload (H := demo_collaborators) demo_data demo_world
  = (Normal demo_bundle, set_seed 8 demo_world)
  /\ String.length "aaaaaaaaaa" = 10.
Proof.
  apply (generatePayload_ok (H := demo_collaborators) demo_data demo_world
           demo_gcm_value demo_apns_value); reflexivity.
Defined.

Lemma generatePayload_keys_witness :
  (own_properties demo_bundle).*1 = platform_keys /\ NoDup (own_properties demo_bundle).*1
  /\ field demo_bundle "APNS" = field demo_bundle "APNS_SANDBOX"
  /\ exists apns, demo_apns (VObj [("alert", VStr "hi")]) (VNum 1000) = Normal apns
       /\ field demo_bundle "APNS" = stringify apns.
Proof.
  apply (generatePayload_keys (H := demo_collaborators) demo_data demo_world
           demo_bundle (set_seed 8 demo_world)); reflexivity.
Defined.

Lemma generatePayload_adm_wns_witness :
  field demo_bundle "ADM" = stringify (VObj [("data", VObj [("alert", VStr "hi")])])
  /\ (exists s, field demo_bundle "ADM" = VStr s)
  /\ field demo_bundle "WNS" = stringify (VObj [("alert", VStr "hi")])
  /\ field demo_bundle "default" = stringify (VObj [("alert", VStr "hi")]).
Proof.
  apply (generatePayload_adm_wns (H := demo_collaborators) demo_data demo_world
           demo_bundle (set_seed 8 demo_world)); reflexivity.
Defined.

Lemma generatePayload_all_strings_witness :
  exists s, field demo_bundle "WNS" = VStr s.
Proof.
  apply (generatePayload_all_strings demo_gcm_value demo_apns_value
           (VObj [("alert", VStr "hi")]) "WNS"); [discriminate..|].
  unfold platform_keys. repeat constructor.
Defined.

(** An intent with no [data] property. *)
Definition empty_intent : value := VObj [("expirationTime", VNum 1000)].

Lemma generatePayload_no_data_witness :
  let p := bundle (VObj [("priority", VStr "normal");
                         ("data", VObj [("time", VNum 1478000000000);
                                        ("push_id", VStr "aaaaaaaaaa");
                                        ("data", VUndefined)])])
             (VObj [("expiry", VNum 1000); ("payload", VUndefined)]) VUndefined in
  field p "WNS" = VUndefined /\ field p "default" = VUndefined /\ field p "ADM" = VStr "{}".
Proof.
  apply (generatePayload_no_data (H := demo_collaborators) empty_intent demo_world
           _ (set_seed 8 demo_world)); reflexivity.
Defined.

Lemma generatePayload_null_witness :
  generatePayload (H := demo_collaborators) VUndefined demo_world = (Throw TypeError, demo_world).
Proof. apply (generatePayload_null (H := demo_collaborators)); reflexivity. Defined.

Lemma generatePayload_encoder_throws_witness :
  generatePayload (H := failing_collaborators) demo_data demo_world
  = (Throw (Foreign (VStr "bad alert")), set_seed 8 demo_world).
Proof.
  apply (generatePayload_encoder_throws (H := failing_collaborators) demo_data demo_world);
    [reflexivity|].
  right. split; [by eexists | reflexivity].
Defined.

Lemma generatePayload_idempotent_witness :
  field demo_bundle "ADM"
  = field (bundle (VObj [("priority", VStr "normal");
                         ("data", VObj [("time", VNum 5); ("push_id", VStr "aaaaaaaaaa");
                                        ("data", stringify (VObj [("alert", VStr "hi")]))])])
             demo_apns_value (VObj [("alert", VStr "hi")])) "ADM".
Proof.
  apply (generatePayload_idempotent (H := demo_collaborators) demo_data demo_world
           (initial_world 5 99 ∅) _ _ (set_seed 8 demo_world)
           (set_seed 100 (initial_world 5 99 ∅)) "ADM"); [reflexivity..|discriminate].
Defined.
