(* ===== verification/Publish.v ===== *)
(** * [publishToSNS]: one delivery

    [src/src/SNS.js] lines 67-105.  [publishToSNS] creates the promise of
    the device, builds the parameters of the publish call and hands the
    call to the transport with its callback; it returns the promise.
    [publishCallback] is the arrow function of lines 77-102, which the
    transport calls later with [(err, data)]: it builds the outcome record
    and resolves the promise.  The error branch evaluates the free
    identifier [arn] as an argument of [log.error]. *)

From stdpp Require Import base option list strings gmap.
From S2P Require Import Prelude JsValue Hex Json Promise World Config Payload.

(** ** The parameters (lines 70-75) *)

Definition publishParams (device payload messageAttributes : value) : js value :=
  targetArn <- get device "deviceToken" ;;
  Normal (VObj [("Message", stringify payload);
                ("MessageStructure", VStr "json");
                ("TargetArn", targetArn);
                ("MessageAttributes", messageAttributes)]).

(** ** The callback (lines 77-102) *)

(** The outcome record as first built (lines 78-83). *)
Definition initialResponse (device : value) : js (list (string * value)) :=
  deviceType <- get device "deviceType" ;;
  deviceToken <- get device "deviceToken" ;;
  hex <- toString_hex deviceToken ;;
  Normal [("device", VObj [("deviceType", deviceType); ("deviceToken", hex)])].

(** The error branch (lines 86-92).  The arguments of [log.error] are
    evaluated before the call, so an unbound [arn] throws before anything
    is logged. *)
Definition errorBranch (promise : nat) (response : list (string * value)) (err : value) : io unit :=
  arn <~ lookup_global "arn" ;;
  run log_call LError [VStr LOG_PREFIX; VStr "Error sending push: "; arn] ;;
  run log_call LVerbose [VStr LOG_PREFIX; VStr "Error details: "; err] ;;
  let response := response ++ [("transmitted", VBool false)] in
  stack <~ elift (get err "stack") ;;
  response <~ (if truthy stack
               then stack2 <~ elift (get err "stack") ;;
                    eret (response ++ [("response", stack2)])
               else eret response) ;;
  on_heap (promise_resolve promise (VObj response)).

(** The success branch (lines 95-101). *)
Definition successBranch (promise : nat) (response : list (string * value)) (data : value) : io unit :=
  messageId <~ (if truthy data then elift (get data "MessageId") else eret data) ;;
  run (if truthy messageId
       then messageId2 <~ elift (get data "MessageId") ;;
            text <~ elift (js_concat "Successfully sent push to " messageId2) ;;
            log_call LVerbose [VStr LOG_PREFIX; VStr text]
       else eret tt) ;;
  let response := response ++ [("transmitted", VBool true); ("response", data)] in
  on_heap (promise_resolve promise (VObj response)).

Definition publishCallback (device : value) (promise : nat) (err data : value) : io unit :=
  response <~ elift (initialResponse device) ;;
  if loose_neq_null err then errorBranch promise response err
  else successBranch promise response data.

(** ** [publishToSNS] (lines 67-105) *)

Definition publishToSNS (sns : sns_client) (device payload messageAttributes : value) : io nat :=
  promise <~ on_heap promise_new ;;
  params <~ elift (publishParams device payload messageAttributes) ;;
  run sns_publish sns params device promise ;;
  eret promise.

(** ** What a callback does, as a function of its inputs *)

(** The outcome of a delivery the transport reports as done. *)
Definition successOutcome (deviceEntry data : value) : value :=
  VObj [("device", deviceEntry); ("transmitted", VBool true); ("response", data)].

(** The outcome of a delivery the transport reports as failed: the
    response is the error's stack when it has one. *)
Definition failureOutcome (deviceEntry err : value) : value :=
  VObj ([("device", deviceEntry); ("transmitted", VBool false)]
        ++ (if truthy (field err "stack") then [("response", field err "stack")] else [])).

(** The [device] entry of an outcome: the type and the token's
    [toString('hex')]. *)
Definition deviceEntry (device : value) : js value :=
  cmap (fun response => default VUndefined (assoc "device" response)) (initialResponse device).

(** What the success branch logs. *)
Definition successLog (data : value) : js (list log_entry) :=
  if truthy (js_and data (field data "MessageId")) then
    text <- js_concat "Successfully sent push to " (field data "MessageId") ;;
    Normal [LogEntry LVerbose [VStr LOG_PREFIX; VStr text]]
  else Normal [].

(** What the error branch logs when [arn] is bound to [arn]. *)
Definition errorLog (arn err : value) : list log_entry :=
  [LogEntry LError [VStr LOG_PREFIX; VStr "Error sending push: "; arn];
   LogEntry LVerbose [VStr LOG_PREFIX; VStr "Error details: "; err]].

(** The plan of a callback: the exception it throws before touching the
    world, or the log entries it writes and the outcome it resolves its
    promise with. *)
Definition callback_plan (globals : gmap string value) (device err data : value)
  : exn + (list log_entry * value) :=
  match deviceEntry device with
  | Throw e => inl e
  | Normal entry =>
      if loose_neq_null err then
        match globals !! "arn" with
        | None => inl (ReferenceError "arn")
        | Some arn => inr (errorLog arn err, failureOutcome entry err)
        end
      else
        match successLog data with
        | Throw e => inl e
        | Normal entries => inr (entries, successOutcome entry data)
        end
  end.

(** ** The callback follows its plan *)

Lemma initialResponse_entry device response :
  initialResponse device = Normal response ->
  exists entry, response = [("device", entry)] /\ deviceEntry device = Normal entry.
Proof.
  unfold deviceEntry. intros Hr. rewrite Hr. unfold initialResponse in Hr.
  repeat case_completion; simplify_eq/=. eauto.
Qed.

Lemma initialResponse_Throw device e :
  initialResponse device = Throw e -> deviceEntry device = Throw e.
Proof. unfold deviceEntry. by intros ->. Qed.

Lemma successBranch_spec promise entry data w :
  successBranch promise [("device", entry)] data w
  = match successLog data with
    | Throw e => (Throw e, w)
    | Normal entries =>
        on_heap (promise_resolve promise (successOutcome entry data))
          (set_log (w_log w ++ entries) w)
    end.
Proof.
  unfold successBranch, successLog, js_and.
  destruct (truthy data) eqn:Hdata.
  - rewrite ebind_elift, (get_field data) by auto with js.
    destruct (truthy (field data "MessageId")).
    + rewrite !ebind_assoc, ebind_elift, ebind_assoc, ebind_elift.
      destruct (js_concat _ _) as [text|e]; [|done].
      by rewrite ebind_log_call.
    + by rewrite ebind_eret, app_nil_r, set_log_id.
  - rewrite ebind_eret, Hdata. by rewrite ebind_eret, app_nil_r, set_log_id.
Qed.

Lemma errorBranch_spec promise entry err w :
  loose_neq_null err = true ->
  errorBranch promise [("device", entry)] err w
  = match w_globals w !! "arn" with
    | None => (Throw (ReferenceError "arn"), w)
    | Some arn =>
        on_heap (promise_resolve promise (failureOutcome entry err))
          (set_log (w_log w ++ errorLog arn err) w)
    end.
Proof.
  intros Herr. unfold errorBranch, lookup_global.
  unfold ebind at 1. destruct (w_globals w !! "arn") as [arn|]; [|done].
  rewrite !ebind_log_call, ebind_elift, get_field by done.
  unfold failureOutcome, errorLog, set_log at 1. simpl w_log. rewrite <- app_assoc.
  destruct (truthy (field err "stack")).
  - by rewrite ebind_assoc, ebind_elift, ebind_eret.
  - rewrite ebind_eret. by rewrite app_nil_r.
Qed.

(** The callback either throws before it has changed anything, or writes
    its log entries and resolves the promise with the planned outcome. *)
Lemma publishCallback_plan device promise err data w :
  publishCallback device promise err data w
  = match callback_plan (w_globals w) device err data with
    | inl e => (Throw e, w)
    | inr (entries, outcome) =>
        on_heap (promise_resolve promise outcome) (set_log (w_log w ++ entries) w)
    end.
Proof.
  unfold publishCallback, callback_plan. rewrite ebind_elift.
  destruct (initialResponse device) as [response|e] eqn:Hr.
  - apply initialResponse_entry in Hr as (entry & -> & ->).
    destruct (loose_neq_null err) eqn:Herr.
    + rewrite errorBranch_spec by done. by destruct (w_globals w !! "arn").
    + rewrite successBranch_spec. by destruct (successLog data).
  - by rewrite (initialResponse_Throw _ _ Hr).
Qed.

(** ** [publishToSNS] on every input *)

(** The parameters of a device that is not [null] or [undefined]. *)
Definition paramsOf (device payload messageAttributes : value) : value :=
  VObj [("Message", stringify payload);
        ("MessageStructure", VStr "json");
        ("TargetArn", field device "deviceToken");
        ("MessageAttributes", messageAttributes)].

Lemma publishParams_spec device payload messageAttributes :
  publishParams device payload messageAttributes
  = if loose_neq_null device then Normal (paramsOf device payload messageAttributes)
    else Throw TypeError.
Proof.
  unfold publishParams. destruct (loose_neq_null device) eqn:Hd.
  - by rewrite get_field.
  - by rewrite get_null.
Qed.

(** The heap with one more pending promise. *)
Definition alloc (w : world) : world :=
  set_heap (PHeap (cells (w_heap w) ++ [Cell Pending []]) (joins (w_heap w))) w.

Lemma publishToSNS_run sns device payload messageAttributes w :
  publishToSNS sns device payload messageAttributes w
  = if loose_neq_null device then
      (Normal (length (cells (w_heap w))),
       set_inflight
         (w_inflight w
          ++ [Some (Request sns (paramsOf device payload messageAttributes) device
                      (length (cells (w_heap w))))])
         (alloc w))
    else (Throw TypeError, alloc w).
Proof.
  unfold publishToSNS. rewrite ebind_on_heap, promise_new_spec.
  rewrite ebind_elift, publishParams_spec.
  destruct (loose_neq_null device); [|done].
  by rewrite ebind_sns_publish.
Qed.

(** C12: for a device that is not [null] or [undefined], [publishToSNS]
    allocates one pending promise, hands exactly one request to the
    transport, whose message is the serialized bundle, whose structure is
    json and whose target is the device's token, and returns the promise;
    the callback has not run. *)
Theorem publishToSNS_ok sns device payload messageAttributes w :
  loose_neq_null device = true ->
  exists w',
    publishToSNS sns device payload messageAttributes w
    = (Normal (length (cells (w_heap w))), w')
    /\ cell_state (w_heap w') (length (cells (w_heap w))) = Some Pending
    /\ w_inflight w'
       = w_inflight w
         ++ [Some (Request sns (paramsOf device payload messageAttributes) device
                     (length (cells (w_heap w))))]
    /\ field (paramsOf device payload messageAttributes) "Message" = stringify payload
    /\ field (paramsOf device payload messageAttributes) "TargetArn" = field device "deviceToken"
    /\ w_log w' = w_log w.
Proof.
  intros Hd. eexists. rewrite publishToSNS_run, Hd. split; [done|].
  repeat split. unfold cell_state. simpl. by rewrite list_lookup_snoc.
Qed.

(** For a device that is [null] or [undefined], [publishToSNS] throws
    a TypeError after it has created the promise: the heap holds one more
    pending promise that nothing will resolve, and no request is in
    flight. *)
Theorem publishToSNS_null_device sns device payload messageAttributes w :
  loose_neq_null device = false ->
  publishToSNS sns device payload messageAttributes w = (Throw TypeError, alloc w)
  /\ w_inflight (alloc w) = w_inflight w
  /\ length (cells (w_heap (alloc w))) = S (length (cells (w_heap w))).
Proof.
  intros Hd. rewrite publishToSNS_run, Hd. repeat split.
  simpl. rewrite length_app. simpl. lia.
Qed.

(** ** The plan of a callback, case by case *)

(** C10: when the transport reports a failure and the global scope does
    not bind [arn], the callback throws a ReferenceError while evaluating
    the arguments of [log.error]: nothing is logged, the promise is not
    resolved and the world is unchanged. *)
Theorem publishCallback_error_throws device promise err data w :
  loose_neq_null err = true -> w_globals w !! "arn" = None ->
  is_normal (deviceEntry device) = true ->
  publishCallback device promise err data w = (Throw (ReferenceError "arn"), w).
Proof.
  intros Herr Harn Hentry. rewrite publishCallback_plan. unfold callback_plan.
  destruct (deviceEntry device); [|done]. by rewrite Herr, Harn.
Qed.

(** C11: when the transport reports a failure and [arn] is bound, the
    callback logs the error and its details and resolves the promise with
    an outcome whose [transmitted] is false and whose [response] is the
    error's stack when that is truthy and is absent otherwise. *)
Theorem publishCallback_error_bound device promise err data w arn entry :
  loose_neq_null err = true -> w_globals w !! "arn" = Some arn ->
  deviceEntry device = Normal entry ->
  publishCallback device promise err data w
  = on_heap (promise_resolve promise (failureOutcome entry err))
      (set_log (w_log w ++ errorLog arn err) w)
  /\ field (failureOutcome entry err) "device" = entry
  /\ field (failureOutcome entry err) "transmitted" = VBool false
  /\ field (failureOutcome entry err) "response"
     = (if truthy (field err "stack") then field err "stack" else VUndefined).
Proof.
  intros Herr Harn Hentry. rewrite publishCallback_plan. unfold callback_plan.
  rewrite Hentry, Herr, Harn. repeat split.
  unfold failureOutcome. by destruct (truthy (field err "stack")).
Qed.

(** C9: when the transport reports success, the callback logs the
    message id if there is one and resolves the promise with an outcome
    whose [transmitted] is true and whose [response] is the transport's
    answer. *)
Theorem publishCallback_success device promise err data w entry entries :
  loose_neq_null err = false -> deviceEntry device = Normal entry ->
  successLog data = Normal entries ->
  publishCallback device promise err data w
  = on_heap (promise_resolve promise (successOutcome entry data))
      (set_log (w_log w ++ entries) w)
  /\ field (successOutcome entry data) "device" = entry
  /\ field (successOutcome entry data) "transmitted" = VBool true
  /\ field (successOutcome entry data) "response" = data.
Proof.
  intros Herr Hentry Hlog. rewrite publishCallback_plan. unfold callback_plan.
  by rewrite Hentry, Herr, Hlog.
Qed.

(** C40: the device entry of an outcome carries the device's type and, for
    a token that is a Buffer, its lowercase hexadecimal form, from which
    the token can be recovered; a token that is a string is carried as it
    is. *)
Theorem deviceEntry_token device token :
  loose_neq_null device = true -> field device "deviceToken" = token ->
  match token with
  | VBuffer bs =>
      deviceEntry device
      = Normal (VObj [("deviceType", field device "deviceType");
                      ("deviceToken", VStr (hex_of_bytes bs))])
      /\ bytes_of_hex (hex_of_bytes bs) = Some bs
  | VStr s =>
      deviceEntry device
      = Normal (VObj [("deviceType", field device "deviceType"); ("deviceToken", VStr s)])
  | VUndefined | VNull => deviceEntry device = Throw TypeError
  | VNum _ => deviceEntry device = Throw RangeError
  | _ => True
  end.
Proof.
  intros Hd <-. unfold deviceEntry, initialResponse. rewrite !get_field by done.
  destruct (field device "deviceToken") eqn:Ht; simpl; rewrite ?Ht; try done.
  split; [done | apply bytes_of_hex_of_bytes].
Qed.

(** The entry of a device whose token is a Buffer. *)
Lemma deviceEntry_buffer device bs :
  field device "deviceToken" = VBuffer bs ->
  deviceEntry device
  = Normal (VObj [("deviceType", field device "deviceType");
                  ("deviceToken", VStr (hex_of_bytes bs))]).
Proof.
  intros Ht. assert (loose_neq_null device = true) as Hd by (by destruct device).
  unfold deviceEntry, initialResponse. rewrite !get_field by done. by rewrite Ht.
Qed.

(** The device entry of an outcome identifies the device it comes
    from: two devices with Buffer tokens that yield the same entry have
    the same token and the same type. *)
Theorem deviceEntry_identifies device1 device2 bs1 bs2 entry :
  field device1 "deviceToken" = VBuffer bs1 -> field device2 "deviceToken" = VBuffer bs2 ->
  deviceEntry device1 = Normal entry -> deviceEntry device2 = Normal entry ->
  bs1 = bs2 /\ field device1 "deviceType" = field device2 "deviceType".
Proof.
  intros Ht1 Ht2. rewrite (deviceEntry_buffer _ _ Ht1), (deviceEntry_buffer _ _ Ht2).
  intros [= <-] [= Htype Hhex]. split; [by apply hex_of_bytes_inj|done].
Qed.

(** An outcome is written once: when the promise of the device is
    already completed, a callback that reaches [promise.resolve] logs
    again and then throws, and the heap keeps the first outcome. *)
Theorem publishCallback_twice device promise err data w s rs entries outcome :
  cells (w_heap w) !! promise = Some (Cell s rs) -> s <> Pending ->
  callback_plan (w_globals w) device err data = inr (entries, outcome) ->
  publishCallback device promise err data w
  = (Throw PromiseCompleted, set_log (w_log w ++ entries) w).
Proof.
  intros Hp Hs Hplan. rewrite publishCallback_plan, Hplan. unfold on_heap. cbn.
  by rewrite (promise_resolve_completed _ _ _ _ _ Hp Hs).
Qed.

(** The Message of a publish call is always a string, the
    serialization of the whole bundle; when the intent carries no
    application data, the WNS and default entries are left out of it. *)
Theorem publishParams_message device gcm apns coreData attributes :
  (exists s, field (paramsOf device (bundle gcm apns coreData) attributes) "Message" = VStr s)
  /\ (coreData = VUndefined ->
      field (paramsOf device (bundle gcm apns coreData) attributes) "Message"
      = stringify (VObj [("GCM", stringify gcm); ("APNS", stringify apns);
                         ("APNS_SANDBOX", stringify apns); ("ADM", VStr "{}")])).
Proof.
  split; [unfold paramsOf, bundle; rewrite stringify_obj; by eexists|].
  intros ->. unfold paramsOf, bundle, field. cbn -[stringify serialize].
  rewrite !stringify_obj. cbn [omap]. cbn -[serialize member braces].
  by destruct (serialize (stringify gcm)), (serialize (stringify apns)).
Qed.

(** * Witnesses *)

Definition demo_adapter : sns_adapter :=
  SnsAdapter (SnsClient (AwsConfig (VStr "AKIA") (VStr "secret") (VStr "us-east-1"))).

(** The devices of the specification's example. *)
Definition demo_ios : value :=
  VObj [("deviceType", VStr "ios"); ("deviceToken", VBuffer [Byte.x01; Byte.xab])].

Definition demo_android : value :=
  VObj [("deviceType", VStr "android"); ("deviceToken", VBuffer [Byte.xff])].

Definition demo_ios_entry : value :=
  VObj [("deviceType", VStr "ios"); ("deviceToken", VStr "01ab")].

(** What the transport reports: a failure with a stack, and a message
    identifier. *)
Definition demo_failure : value :=
  VObj [("message", VStr "EndpointDisabled"); ("stack", VStr "Error: EndpointDisabled")].

Definition demo_answer : value := VObj [("MessageId", VStr "m-1")].

(** A process in which a global [arn] happens to be defined. *)
Definition demo_world_arn : world :=
  initial_world 1478000000000 7 {[ "arn" := VStr "arn:aws:sns:endpoint/1" ]}.

Lemma publishToSNS_ok_witness :
  exists w',
    publishToSNS (sns demo_adapter) demo_ios demo_bundle (generateMessageAttributes demo_data)
      demo_world = (Normal 0, w')
    /\ cell_state (w_heap w') 0 = Some Pending
    /\ w_inflight w'
       = [Some (Request (sns demo_adapter)
                  (paramsOf demo_ios demo_bundle (generateMessageAttributes demo_data))
                  demo_ios 0)]
    /\ field (paramsOf demo_ios demo_bundle (generateMessageAttributes demo_data)) "Message"
       = stringify demo_bundle
    /\ field (paramsOf demo_ios demo_bundle (generateMessageAttributes demo_data)) "TargetArn"
       = field demo_ios "deviceToken"
    /\ w_log w' = [].
Proof.
  by apply (publishToSNS_ok (sns demo_adapter) demo_ios demo_bundle
              (generateMessageAttributes demo_data) demo_world).
Defined.

Lemma publishToSNS_null_device_witness :
  publishToSNS (sns demo_adapter) VUndefined demo_bundle (generateMessageAttributes demo_data)
    demo_world = (Throw TypeError, alloc demo_world)
  /\ w_inflight (alloc demo_world) = []
  /\ length (cells (w_heap (alloc demo_world))) = 1.
Proof.
  by apply (publishToSNS_null_device (sns demo_adapter) VUndefined demo_bundle
              (generateMessageAttributes demo_data) demo_world).
Defined.

Lemma publishCallback_error_throws_witness :
  publishCallback demo_ios 0 demo_failure VNull (alloc demo_world)
  = (Throw (ReferenceError "arn"), alloc demo_world).
Proof. by apply publishCallback_error_throws. Defined.

Lemma publishCallback_error_bound_witness :
  publishCallback demo_ios 0 demo_failure VNull (alloc demo_world_arn)
  = on_heap (promise_resolve 0 (failureOutcome demo_ios_entry demo_failure))
      (set_log (errorLog (VStr "arn:aws:sns:endpoint/1") demo_failure) (alloc demo_world_arn))
  /\ field (failureOutcome demo_ios_entry demo_failure) "device" = demo_ios_entry
  /\ field (failureOutcome demo_ios_entry demo_failure) "transmitted" = VBool false
  /\ field (failureOutcome demo_ios_entry demo_failure) "response"
     = VStr "Error: EndpointDisabled".
Proof.
  by apply (publishCallback_error_bound demo_ios 0 demo_failure VNull (alloc demo_world_arn)
              (VStr "arn:aws:sns:endpoint/1") demo_ios_entry).
Defined.

Lemma publishCallback_success_witness :
  publishCallback demo_ios 0 VNull demo_answer (alloc demo_world)
  = on_heap (promise_resolve 0 (successOutcome demo_ios_entry demo_answer))
      (set_log [LogEntry LVerbose [VStr LOG_PREFIX; VStr "Successfully sent push to m-1"]]
         (alloc demo_world))
  /\ field (successOutcome demo_ios_entry demo_answer) "device" = demo_ios_entry
  /\ field (successOutcome demo_ios_entry demo_answer) "transmitted" = VBool true
  /\ field (successOutcome demo_ios_entry demo_answer) "response" = demo_answer.
Proof.
  by apply (publishCallback_success demo_ios 0 VNull demo_answer (alloc demo_world)
              demo_ios_entry).
Defined.

Lemma deviceEntry_token_witness :
  deviceEntry demo_ios = Normal demo_ios_entry
  /\ bytes_of_hex (hex_of_bytes [Byte.x01; Byte.xab]) = Some [Byte.x01; Byte.xab].
Proof.
  by apply (deviceEntry_token demo_ios (VBuffer [Byte.x01; Byte.xab])).
Defined.

Lemma deviceEntry_identifies_witness :
  [Byte.x01; Byte.xab] = [Byte.x01; Byte.xab]
  /\ field demo_ios "deviceType" = field demo_ios "deviceType".
Proof.
  by apply (deviceEntry_identifies demo_ios demo_ios [Byte.x01; Byte.xab] [Byte.x01; Byte.xab]
              demo_ios_entry).
Defined.

(** The world after the callback of the first device has run once. *)
Definition demo_resolved : world :=
  (publishCallback demo_ios 0 VNull demo_answer (alloc demo_world)).2.

Lemma publishCallback_twice_witness :
  publishCallback demo_ios 0 VNull demo_answer demo_resolved
  = (Throw PromiseCompleted,
     set_log (w_log demo_resolved
              ++ [LogEntry LVerbose [VStr LOG_PREFIX; VStr "Successfully sent push to m-1"]])
       demo_resolved).
Proof.
  by apply (publishCallback_twice demo_ios 0 VNull demo_answer demo_resolved
              (Resolved (successOutcome demo_ios_entry demo_answer)) []
              [LogEntry LVerbose [VStr LOG_PREFIX; VStr "Successfully sent push to m-1"]]
              (successOutcome demo_ios_entry demo_answer)).
Defined.
