(* ===== verification/Delivery.v ===== *)
(** * The asynchronous completion of deliveries

    After [send] has returned, the transport completes the requests in
    flight, one at a time and in any order: [deliver k err data] is the
    SDK calling the callback of request [k] with [(err, data)], and [step]
    is the relation of all such calls.

    A [dispatch] records what one call of [send] set up: the client, the
    payload and the attributes, the devices, and where its promises, its
    requests and its join start.  [tracks] is the invariant that ties the
    heap, the join and the requests of that call to the list of what has
    happened to each device so far: [Waiting], [Done] with an outcome, or
    [Lost] when the callback threw before it resolved its promise.  The
    lemmas of this file show that every callback keeps the invariant and
    what the aggregate promise holds under it; [Send] establishes the
    invariant for the world [send] leaves.
 *)

From stdpp Require Import base option list strings gmap.
From S2P Require Import Prelude JsValue Hex Json Promise World Config Payload Publish.

(** ** The transport completes a request *)

(** The SDK calls the callback of request [k] with [(err, data)].  The
    request leaves the transport first; an exception of the callback
    escapes to the SDK. *)
Definition deliver (k : nat) (err data : value) (w : world) : world :=
  match w_inflight w !! k with
  | Some (Some rq) =>
      let w1 := set_inflight (<[k := None]> (w_inflight w)) w in
      match publishCallback (rq_device rq) (rq_promise rq) err data w1 with
      | (Normal _, w2) => w2
      | (Throw e, w2) => set_uncaught (w_uncaught w2 ++ [e]) w2
      end
  | _ => w
  end.

(** One completion of a request that is in flight. *)
Inductive step : world -> world -> Prop :=
| step_deliver k err data w rq :
    w_inflight w !! k = Some (Some rq) ->
    step w (deliver k err data w).

(** A completion event: the request and what the transport reports. *)
Record event : Type := Event { ev_request : nat; ev_err : value; ev_data : value }.

(** The completions of a list of events, in order. *)
Definition deliver_all (evs : list event) (w : world) : world :=
  foldl (fun w ev => deliver (ev_request ev) (ev_err ev) (ev_data ev) w) w evs.

(** ** What a call of [send] set up *)

Record dispatch : Type := Dispatch {
  d_client : sns_client;
  d_payload : value;
  d_attributes : value;
  d_devices : list value;
  d_promise : nat;
  d_request : nat;
  d_join : nat
}.

(** What has happened to one device. *)
Inductive dstate : Type :=
| Waiting
| Done (outcome : value)
| Lost.

Definition is_done (s : dstate) : bool :=
  match s with Done _ => true | _ => false end.

Definition slot_of (s : dstate) : value :=
  match s with Done v => v | _ => VUndefined end.

Definition count_done (st : list dstate) : nat := length (filter is_done st).

(** The join of a dispatch, as a function of what has happened. *)
Definition join_of (st : list dstate) : join :=
  Join (Z.of_nat (length st) - Z.of_nat (count_done st)) false (slot_of <$> st)
    (replicate (length st) VUndefined)
    (if decide (count_done st = length st) then SResolved else SPending).

(** What the transport holds for device [i]: its request while the
    callback has not run, nothing afterwards. *)
Definition request_of (d : dispatch) (i : nat) (device : value) (s : dstate) : option request :=
  match s with
  | Waiting =>
      Some (Request (d_client d) (paramsOf device (d_payload d) (d_attributes d)) device
              (d_promise d + i))
  | _ => None
  end.

(** The promise of device [i]: resolved with the outcome once the callback
    has resolved it, pending otherwise; in both cases the join listens to
    it. *)
Definition cell_of (d : dispatch) (i : nat) (s : dstate) : cell :=
  Cell (match s with Done v => Resolved v | _ => Pending end) [Reaction (d_join d) i].

(** What the world holds for device [i] of a dispatch. *)
Definition device_tracked (d : dispatch) (w : world) (i : nat) (device : value) (s : dstate) : Prop :=
  w_inflight w !! (d_request d + i) = Some (request_of d i device s)
  /\ cells (w_heap w) !! (d_promise d + i) = Some (cell_of d i s).

(** The invariant of a dispatch. *)
Definition tracks (d : dispatch) (st : list dstate) (w : world) : Prop :=
  length st = length (d_devices d)
  /\ (forall i device s, d_devices d !! i = Some device -> st !! i = Some s ->
        device_tracked d w i device s)
  /\ joins (w_heap w) !! d_join d = Some (join_of st).

(** ** Counting what is done *)

Section counting.
Implicit Types (st : list dstate) (s : dstate) (i : nat).

Lemma count_done_cons s st :
  count_done (s :: st) = (if is_done s then 1 else 0) + count_done st.
Proof. unfold count_done. rewrite filter_cons. by destruct (is_done s). Qed.

Lemma count_done_le st : count_done st <= length st.
Proof. apply length_filter. Qed.

Lemma count_done_insert st i s s' :
  st !! i = Some s ->
  count_done (<[i := s']> st) + (if is_done s then 1 else 0)
  = count_done st + (if is_done s' then 1 else 0).
Proof.
  revert i. induction st as [|s0 st IH]; intros [|i] Hi; simplify_eq/=.
  - rewrite !count_done_cons. lia.
  - rewrite !count_done_cons. specialize (IH _ Hi). lia.
Qed.

Lemma count_done_open st i s :
  st !! i = Some s -> is_done s = false -> count_done st < length st.
Proof.
  intros Hi Hs. pose proof (count_done_insert st i s (Done VUndefined) Hi) as Hc.
  pose proof (count_done_le (<[i := Done VUndefined]> st)) as Hle.
  rewrite length_insert in Hle. rewrite Hs in Hc. simpl in Hc. lia.
Qed.

Lemma count_done_waiting st i : st !! i = Some Waiting -> count_done st < length st.
Proof. intros Hi. by eapply count_done_open. Qed.

Lemma count_done_replicate n : count_done (replicate n Waiting) = 0.
Proof. induction n; [done|]. simpl. by rewrite count_done_cons. Qed.

(** The countdown of a join lies between zero and the number of devices,
    there is one slot per device, and the countdown is zero exactly where
    the join is resolved. *)
Lemma join_of_bounds st :
  (0 <= j_total (join_of st) <= Z.of_nat (length st))%Z
  /\ length (j_results (join_of st)) = length st
  /\ (j_total (join_of st) = 0%Z <-> j_status (join_of st) = SResolved).
Proof.
  pose proof (count_done_le st). cbn. rewrite length_fmap. split_and!; [lia|lia|done|].
  case_decide; split; (done || lia).
Qed.

(** All devices are done exactly when no slot is left to fill. *)
Lemma count_done_all st :
  count_done st = length st <-> Forall (fun s => is_done s = true) st.
Proof.
  induction st as [|s st IH]; [by split|].
  rewrite count_done_cons, Forall_cons. simpl.
  pose proof (count_done_le st). destruct (is_done s); split.
  - intros Hc. split; [done|]. apply IH. lia.
  - intros [_ Hall]. apply IH in Hall. lia.
  - lia.
  - by intros [? _].
Qed.

End counting.

(** ** The join follows the devices *)

Lemma join_of_waiting n :
  join_of (replicate n Waiting)
  = Join (Z.of_nat n) false (replicate n VUndefined) (replicate n VUndefined)
      (if decide (n = 0) then SResolved else SPending).
Proof.
  unfold join_of. rewrite count_done_replicate, length_replicate, fmap_replicate.
  simpl. rewrite Z.sub_0_r. f_equal. by repeat case_decide.
Qed.

(** A callback that resolves its promise makes the join count down, and
    complete when it was the last. *)
Lemma resolve_one_join_of st i s v :
  st !! i = Some s -> is_done s = false ->
  resolve_one (Join (j_total (join_of st)) (j_hadError (join_of st))
                 (<[i := v]> (j_results (join_of st))) (j_errors (join_of st))
                 (j_status (join_of st)))
  = (Normal tt, join_of (<[i := Done v]> st)).
Proof.
  intros Hi Hs. pose proof (count_done_open st i s Hi Hs) as Hlt.
  pose proof (count_done_insert st i s (Done v) Hi) as Hc. rewrite Hs in Hc. simpl in Hc.
  unfold join_of, resolve_one. cbn [j_total j_hadError j_results j_errors j_status].
  rewrite length_insert, list_fmap_insert. cbn [slot_of].
  replace (count_done (<[i := Done v]> st)) with (S (count_done st)) by lia.
  repeat case_decide; try lia; f_equal; f_equal; lia.
Qed.

(** A callback that throws leaves the join as it was. *)
Lemma join_of_lost st i s :
  st !! i = Some s -> is_done s = false -> join_of (<[i := Lost]> st) = join_of st.
Proof.
  intros Hi Hs. pose proof (count_done_insert st i s Lost Hi) as Hc.
  rewrite Hs in Hc. simpl in Hc.
  unfold join_of. rewrite length_insert, list_fmap_insert. simpl.
  rewrite (list_insert_id (slot_of <$> st)) by (rewrite list_lookup_fmap, Hi; by destruct s).
  replace (count_done (<[i := Lost]> st)) with (count_done st) by lia. done.
Qed.

(** ** One callback *)

(** The state a device moves to when its callback runs. *)
Definition next_state (globals : gmap string value) (device err data : value) : dstate :=
  match callback_plan globals device err data with
  | inl _ => Lost
  | inr (_, outcome) => Done outcome
  end.

(** What a callback adds to the log and to the uncaught exceptions. *)
Definition logged (globals : gmap string value) (device err data : value) : list log_entry :=
  match callback_plan globals device err data with
  | inl _ => []
  | inr (entries, _) => entries
  end.

Definition raised (globals : gmap string value) (device err data : value) : list exn :=
  match callback_plan globals device err data with
  | inl e => [e]
  | inr _ => []
  end.

Section one_callback.
Context (d : dispatch) (st : list dstate) (w : world) (i : nat) (device : value).
Context (Htracks : tracks d st w).
Context (Hdevice : d_devices d !! i = Some device).

(** Replacing what the world holds for device [i] keeps the other devices
    as they are. *)
Lemma tracks_update s w' :
  w_inflight w' = <[d_request d + i := request_of d i device s]> (w_inflight w) ->
  cells (w_heap w') = <[d_promise d + i := cell_of d i s]> (cells (w_heap w)) ->
  joins (w_heap w') = <[d_join d := join_of (<[i := s]> st)]> (joins (w_heap w)) ->
  tracks d (<[i := s]> st) w'.
Proof.
  destruct Htracks as (Hlen & Hdev & Hjoin). intros Hin Hcells Hjoins.
  destruct (lookup_lt_is_Some_2 st i) as [s0 Hs0];
    [rewrite Hlen; by eapply lookup_lt_Some|].
  destruct (Hdev _ _ _ Hdevice Hs0) as [Hk Hp]. split_and!.
  - by rewrite length_insert.
  - intros i' device' s' Hdevice' Hs'. unfold device_tracked. rewrite Hin, Hcells.
    destruct (decide (i' = i)) as [->|Hne].
    + rewrite list_lookup_insert_eq in Hs' by (by eapply lookup_lt_Some). simplify_eq.
      split; apply list_lookup_insert_eq; by eapply lookup_lt_Some.
    + rewrite list_lookup_insert_ne in Hs' by done.
      rewrite !list_lookup_insert_ne by lia. by apply Hdev.
  - rewrite Hjoins. apply list_lookup_insert_eq. by eapply lookup_lt_Some.
Qed.

Context (Hwaiting : st !! i = Some Waiting).

(** The world after the callback of a waiting device, by its plan. *)
Lemma deliver_waiting err data :
  deliver (d_request d + i) err data w
  = let w1 := set_inflight (<[d_request d + i := None]> (w_inflight w)) w in
    match callback_plan (w_globals w) device err data with
    | inl e => set_uncaught (w_uncaught w ++ [e]) w1
    | inr (entries, outcome) =>
        set_heap (PHeap (<[d_promise d + i := cell_of d i (Done outcome)]> (cells (w_heap w)))
                    (<[d_join d := join_of (<[i := Done outcome]> st)]> (joins (w_heap w))))
          (set_log (w_log w ++ entries) w1)
    end.
Proof.
  destruct Htracks as (_ & Hdev & Hjoin).
  destruct (Hdev _ _ _ Hdevice Hwaiting) as [Hk Hp].
  unfold deliver. rewrite Hk. cbn [request_of rq_device rq_promise].
  rewrite publishCallback_plan. cbn [w_globals set_inflight].
  destruct (callback_plan _ _ _ _) as [e|[entries outcome]]; [done|].
  unfold on_heap. cbn [w_heap set_log set_inflight].
  rewrite (promise_resolve_registered _ _ _ _ _ _ Hp Hjoin).
  by rewrite (resolve_one_join_of st i Waiting outcome Hwaiting).
Qed.

(** The callback of a waiting device moves that device to its next state
    and no other. *)
Lemma deliver_tracks err data :
  tracks d (<[i := next_state (w_globals w) device err data]> st)
    (deliver (d_request d + i) err data w).
Proof.
  rewrite deliver_waiting. unfold next_state.
  destruct (callback_plan _ _ _ _) as [e|[entries outcome]]; apply tracks_update; try done.
  - destruct Htracks as (_ & Hdev & _). destruct (Hdev _ _ _ Hdevice Hwaiting) as [_ Hp].
    cbn. by rewrite list_insert_id.
  - destruct Htracks as (_ & _ & Hjoin). cbn.
    by rewrite (join_of_lost st i Waiting), list_insert_id.
Qed.

(** What the callback leaves alone, and what it appends. *)
Lemma deliver_frame err data :
  let w' := deliver (d_request d + i) err data w in
  w_globals w' = w_globals w /\ w_config w' = w_config w
  /\ w_log w' = w_log w ++ logged (w_globals w) device err data
  /\ w_uncaught w' = w_uncaught w ++ raised (w_globals w) device err data
  /\ w_inflight w' = <[d_request d + i := None]> (w_inflight w).
Proof.
  cbn zeta. rewrite deliver_waiting. unfold logged, raised.
  destruct (callback_plan _ _ _ _) as [e|[entries outcome]]; cbn;
    by rewrite ?app_nil_r.
Qed.

(** The whole world after the callback of a waiting device. *)
Lemma deliver_tracked err data :
  deliver (d_request d + i) err data w
  = let s := next_state (w_globals w) device err data in
    World (w_config w) (w_clock w) (w_seed w)
      (PHeap (<[d_promise d + i := cell_of d i s]> (cells (w_heap w)))
         (<[d_join d := join_of (<[i := s]> st)]> (joins (w_heap w))))
      (<[d_request d + i := None]> (w_inflight w))
      (w_log w ++ logged (w_globals w) device err data)
      (w_uncaught w ++ raised (w_globals w) device err data)
      (w_globals w).
Proof.
  rewrite deliver_waiting. unfold next_state, logged, raised.
  destruct Htracks as (_ & Hdev & Hjoin). destruct (Hdev _ _ _ Hdevice Hwaiting) as [_ Hp].
  destruct (callback_plan _ _ _ _) as [e|[entries outcome]]; cbn.
  - change (cell_of d i Lost) with (cell_of d i Waiting).
    rewrite (join_of_lost st i Waiting Hwaiting eq_refl), (list_insert_id _ _ _ Hp),
      (list_insert_id _ _ _ Hjoin).
    rewrite app_nil_r. by destruct w as [? ? ? []].
  - by rewrite app_nil_r.
Qed.

End one_callback.

(** ** How the devices of a dispatch advance *)

(** A device may leave [Waiting]; it moves nowhere else. *)
Definition advances (st st' : list dstate) : Prop :=
  Forall2 (fun s s' => s = Waiting \/ s' = s) st st'.

#[export] Instance advances_preorder : PreOrder advances.
Proof.
  split.
  - intros st. apply Forall_Forall2_diag, Forall_true. by right.
  - intros st1 st2 st3. apply Forall2_trans. intros s1 s2 s3 [->| ->] [->| ->]; auto.
Qed.

Lemma advances_insert st i s : st !! i = Some Waiting -> advances st (<[i := s]> st).
Proof.
  intros Hi. apply Forall2_same_length_lookup. rewrite length_insert. split; [done|].
  intros i' s1 s2 H1 H2. destruct (decide (i' = i)) as [->|Hne]; [left; congruence|].
  rewrite list_lookup_insert_ne in H2 by done. right. congruence.
Qed.

(** A device that has left [Waiting] stays where it is. *)
Lemma advances_settled st st' i s :
  advances st st' -> st !! i = Some s -> s <> Waiting -> st' !! i = Some s.
Proof. intros Hadv Hi Hs. destruct (Forall2_lookup_l _ _ _ _ _ Hadv Hi) as (s' & ? & [?| ->]); done. Qed.

(** ** The aggregate promise of a tracked dispatch *)

Lemma count_done_pending st i s :
  st !! i = Some s -> is_done s = false -> count_done st <> length st.
Proof.
  intros Hi Hs Hall%count_done_all. rewrite Forall_lookup in Hall.
  specialize (Hall _ _ Hi). congruence.
Qed.

Lemma tracks_aggregate d st w :
  tracks d st w ->
  aggregate (w_heap w) (d_join d)
  = Some (if decide (count_done st = length st) then Resolved (VArr (slot_of <$> st))
          else Pending).
Proof.
  intros (_ & _ & Hjoin). unfold aggregate. rewrite Hjoin. cbn.
  unfold join_state, join_of. cbn. by case_decide.
Qed.

Lemma tracks_pending d st w i s :
  tracks d st w -> st !! i = Some s -> is_done s = false ->
  aggregate (w_heap w) (d_join d) = Some Pending.
Proof.
  intros Ht Hi Hs. rewrite (tracks_aggregate _ _ _ Ht).
  by rewrite decide_False by eauto using count_done_pending.
Qed.

(** ** What any callback leaves alone *)

Lemma publishCallback_frame device promise err data w r w' :
  publishCallback device promise err data w = (r, w') ->
  w_inflight w' = w_inflight w /\ w_globals w' = w_globals w /\ w_config w' = w_config w
  /\ w_uncaught w' = w_uncaught w.
Proof.
  rewrite publishCallback_plan.
  destruct (callback_plan _ _ _ _) as [e|[entries outcome]]; [by intros [= <- <-]|].
  intros Hrun%on_heap_frame. naive_solver.
Qed.

(** A callback takes its request from the transport and touches no
    other. *)
Lemma deliver_inflight k err data w :
  w_inflight (deliver k err data w) = <[k := None]> (w_inflight w).
Proof.
  unfold deliver. destruct (w_inflight w !! k) as [[rq|]|] eqn:Hk.
  - destruct (publishCallback _ _ _ _ _) as [[] w2] eqn:Hcb;
      apply publishCallback_frame in Hcb as (Hin & _); cbn; by rewrite Hin.
  - by rewrite list_insert_id.
  - by rewrite list_insert_ge by (by apply lookup_ge_None).
Qed.

Lemma deliver_globals k err data w : w_globals (deliver k err data w) = w_globals w.
Proof.
  unfold deliver. destruct (w_inflight w !! k) as [[rq|]|]; [|done..].
  destruct (publishCallback _ _ _ _ _) as [[] w2] eqn:Hcb;
    apply publishCallback_frame in Hcb as (_ & Hg & _); cbn; by rewrite Hg.
Qed.

(** The global scope is the same along every run. *)
Lemma rtc_step_globals w w' : rtc step w w' -> w_globals w' = w_globals w.
Proof.
  induction 1 as [|w1 w2 w3 [k err data w0 rq _] _ IH]; [done|].
  by rewrite IH, deliver_globals.
Qed.

(** A callback allocates neither a promise nor a join. *)
Lemma publishCallback_heap_size device promise err data w r w' :
  publishCallback device promise err data w = (r, w') ->
  heap_size (w_heap w') = heap_size (w_heap w).
Proof.
  rewrite publishCallback_plan.
  destruct (callback_plan _ _ _ _) as [e|[entries outcome]]; [by intros [= <- <-]|].
  intros (_ & _ & _ & _ & _ & Hrun)%on_heap_frame. by apply promise_resolve_size in Hrun.
Qed.

Lemma deliver_heap_size k err data w :
  heap_size (w_heap (deliver k err data w)) = heap_size (w_heap w).
Proof.
  unfold deliver. destruct (w_inflight w !! k) as [[rq|]|]; [|done..].
  by destruct (publishCallback _ _ _ _ _) as [[] w2] eqn:Hcb;
    apply publishCallback_heap_size in Hcb.
Qed.

(** ** Every run keeps the dispatch tracked *)

Section runs.
Context (d : dispatch).

(** Nothing but requests of the dispatch is in flight. *)
Definition sole (w : world) : Prop :=
  forall k rq, w_inflight w !! k = Some (Some rq) ->
    d_request d <= k < d_request d + length (d_devices d).

(** The invariant of the runs that start where the devices are in the
    states [st0]. *)
Definition run_inv (st0 : list dstate) (w : world) : Prop :=
  exists st, tracks d st w /\ sole w /\ advances st0 st.

(** A request in flight in the range of the dispatch belongs to a device
    that is waiting. *)
Lemma tracks_waiting st w k rq :
  tracks d st w -> d_request d <= k < d_request d + length (d_devices d) ->
  w_inflight w !! k = Some (Some rq) ->
  exists i device, k = d_request d + i /\ d_devices d !! i = Some device
                   /\ st !! i = Some Waiting.
Proof.
  intros (Hlen & Hdev & _) Hrange Hk.
  destruct (lookup_lt_is_Some_2 (d_devices d) (k - d_request d)) as [device Hdevice]; [lia|].
  destruct (lookup_lt_is_Some_2 st (k - d_request d)) as [s Hs]; [lia|].
  exists (k - d_request d), device. split_and!; [lia|done|].
  destruct (Hdev _ _ _ Hdevice Hs) as [Hk' _].
  replace (d_request d + (k - d_request d)) with k in Hk' by lia.
  destruct s; by simplify_eq/=.
Qed.

Lemma sole_waiting st w k rq :
  tracks d st w -> sole w -> w_inflight w !! k = Some (Some rq) ->
  exists i device, k = d_request d + i /\ d_devices d !! i = Some device
                   /\ st !! i = Some Waiting.
Proof. intros Ht Hsole Hk. eapply tracks_waiting; eauto. Qed.

Lemma sole_deliver w k err data rq :
  sole w -> w_inflight w !! k = Some (Some rq) -> sole (deliver k err data w).
Proof.
  intros Hsole Hk k' rq' Hk'. apply (Hsole k' rq').
  rewrite deliver_inflight in Hk'.
  by apply list_lookup_insert_Some in Hk' as [(_ & ? & _)|[_ ?]].
Qed.

Lemma step_run_inv st0 w w' : run_inv st0 w -> step w w' -> run_inv st0 w'.
Proof.
  intros (st & Ht & Hsole & Hadv) Hstep.
  inversion Hstep as [k err data w0 rq Hk]; subst.
  destruct (sole_waiting _ _ _ _ Ht Hsole Hk) as (i & device & -> & Hdevice & Hi).
  eexists. split_and!.
  - by apply deliver_tracks.
  - by eapply sole_deliver.
  - etrans; [done|]. by apply advances_insert.
Qed.

Lemma rtc_run_inv st0 w w' : run_inv st0 w -> rtc step w w' -> run_inv st0 w'.
Proof. intros Hinv Hrun. induction Hrun; eauto using step_run_inv. Qed.

End runs.

(** ** Runs given by a list of completion events *)

Section events.
Context (d : dispatch).

(** The device an event is about. *)
Definition ev_device (ev : event) : nat := ev_request ev - d_request d.

(** The state an event moves its device to. *)
Definition ev_state (g : gmap string value) (ev : event) (device : value) : dstate :=
  next_state g device (ev_err ev) (ev_data ev).

Lemma next_state_settled g device err data : next_state g device err data <> Waiting.
Proof. unfold next_state. by destruct (callback_plan _ _ _ _) as [|[]]. Qed.

Lemma is_done_slot s : is_done s = true -> Done (slot_of s) = s.
Proof. by destruct s. Qed.

(** Events for distinct devices of a call that are all waiting. *)
Definition pending_events (st : list dstate) (evs : list event) : Prop :=
  NoDup (ev_request <$> evs)
  /\ forall ev, ev ∈ evs ->
       d_request d <= ev_request ev /\ st !! ev_device ev = Some Waiting.

#[export] Instance pending_events_proper st :
  Proper ((≡ₚ) ==> iff) (pending_events st).
Proof.
  intros evs evs' Hperm. unfold pending_events.
  rewrite Hperm. by setoid_rewrite Hperm.
Qed.

(** The first of a list of pending events can be delivered, and the others
    are still pending afterwards. *)
Lemma pending_events_cons st w ev evs :
  tracks d st w -> pending_events st (ev :: evs) ->
  exists device,
    d_devices d !! ev_device ev = Some device
    /\ st !! ev_device ev = Some Waiting
    /\ ev_request ev = d_request d + ev_device ev
    /\ forall s, pending_events (<[ev_device ev := s]> st) evs.
Proof.
  intros (Hlen & _) [[Hfresh Hnd]%NoDup_cons Hev].
  destruct (Hev ev) as [Hge Hw]; [left|].
  destruct (lookup_lt_is_Some_2 (d_devices d) (ev_device ev)) as [device Hdevice];
    [rewrite <- Hlen; by eapply lookup_lt_Some|].
  exists device. split_and!; [done..|unfold ev_device; lia|].
  intros s. split; [done|]. intros ev' Hin.
  destruct (Hev ev') as [Hge' Hw']; [by right|]. split; [done|].
  rewrite list_lookup_insert_ne; [done|]. intros Heq. apply Hfresh.
  apply list_elem_of_fmap. exists ev'. split; [unfold ev_device in Heq; lia|done].
Qed.

(** Pending events, delivered in the order of the list, move each of their
    devices to the state of its event and leave the others where they
    were. *)
Lemma deliver_all_tracks evs : forall st w,
  tracks d st w -> pending_events st evs ->
  exists st', tracks d st' (deliver_all evs w) /\ advances st st'
    /\ forall ev device, ev ∈ evs -> d_devices d !! ev_device ev = Some device ->
         st' !! ev_device ev = Some (ev_state (w_globals w) ev device).
Proof.
  induction evs as [|ev evs IH]; intros st w Ht Hpending.
  { exists st. split_and!; [done..|]. by intros ev device ?%elem_of_nil. }
  destruct (pending_events_cons _ _ _ _ Ht Hpending) as (device & Hdevice & Hw & Hk & Hrest).
  pose proof (deliver_tracks d st w _ device Ht Hdevice Hw (ev_err ev) (ev_data ev)) as Ht1.
  rewrite <- Hk in Ht1.
  destruct (IH _ _ Ht1 (Hrest _)) as (st' & Ht' & Hadv & Hst').
  exists st'. split_and!; [done|by etrans; [apply advances_insert|]|].
  intros ev' device' [->|Hin]%elem_of_cons Hdevice'.
  - simplify_eq. eapply advances_settled; [done| |apply next_state_settled].
    apply list_lookup_insert_eq. by eapply lookup_lt_Some.
  - rewrite (Hst' _ _ Hin Hdevice'). unfold ev_state. by rewrite deliver_globals.
Qed.

End events.

Section completion_theorems.
Context (d : dispatch).

Lemma events_in_range evs ev :
  ev_request <$> evs ≡ₚ seq (d_request d) (length (d_devices d)) -> ev ∈ evs ->
  d_request d <= ev_request ev < d_request d + length (d_devices d).
Proof.
  intros Hperm Hin. apply elem_of_seq. rewrite <- Hperm. by apply list_elem_of_fmap_2.
Qed.

Lemma events_cover evs i :
  ev_request <$> evs ≡ₚ seq (d_request d) (length (d_devices d)) ->
  i < length (d_devices d) -> exists ev, ev ∈ evs /\ ev_device d ev = i.
Proof.
  intros Hperm Hi.
  assert (d_request d + i ∈ ev_request <$> evs) as (ev & Hev & Hin)%list_elem_of_fmap
    by (rewrite Hperm; apply elem_of_seq; lia).
  exists ev. split; [done|]. unfold ev_device. lia.
Qed.

(** When the transport completes every request of a dispatch once, in any
    order, and every callback resolves its promise, the aggregate promise
    is resolved with one outcome per device, in the order of the devices,
    the outcome of a device being the one its own callback computed. *)
Lemma tracks_completes w evs :
  tracks d (replicate (length (d_devices d)) Waiting) w ->
  ev_request <$> evs ≡ₚ seq (d_request d) (length (d_devices d)) ->
  (forall ev device, ev ∈ evs -> d_devices d !! ev_device d ev = Some device ->
     is_done (ev_state (w_globals w) ev device) = true) ->
  exists outcomes,
    aggregate (w_heap (deliver_all evs w)) (d_join d) = Some (Resolved (VArr outcomes))
    /\ length outcomes = length (d_devices d)
    /\ forall ev device, ev ∈ evs -> d_devices d !! ev_device d ev = Some device ->
         Done <$> outcomes !! ev_device d ev = Some (ev_state (w_globals w) ev device).
Proof.
  intros Ht Hperm Hdone.
  destruct (deliver_all_tracks d evs _ w Ht) as (st' & Ht' & Hadv & Hst').
  { split; [rewrite Hperm; apply NoDup_seq|].
    intros ev Hin. pose proof (events_in_range _ _ Hperm Hin). split; [lia|].
    apply lookup_replicate_2. unfold ev_device. lia. }
  pose proof Ht' as (Hlen & _).
  assert (Forall (fun s => is_done s = true) st') as Hall.
  { apply Forall_lookup. intros i s Hi.
    destruct (events_cover evs i Hperm) as (ev & Hin & <-);
      [rewrite <- Hlen; by eapply lookup_lt_Some|].
    destruct (lookup_lt_is_Some_2 (d_devices d) (ev_device d ev)) as [device Hdevice];
      [rewrite <- Hlen; by eapply lookup_lt_Some|].
    rewrite (Hst' _ _ Hin Hdevice) in Hi. simplify_eq. eauto. }
  exists (slot_of <$> st'). split_and!.
  - rewrite (tracks_aggregate _ _ _ Ht'). by rewrite decide_True by (by apply count_done_all).
  - by rewrite length_fmap.
  - intros ev device Hin Hdevice. rewrite list_lookup_fmap, (Hst' _ _ Hin Hdevice).
    cbn. f_equal. apply is_done_slot. eauto.
Qed.

Lemma next_state_arn_unbound g device err data :
  loose_neq_null err = true -> g !! "arn" = None -> next_state g device err data = Lost.
Proof.
  intros Herr Harn. unfold next_state, callback_plan.
  destruct (deviceEntry device); [|done]. by rewrite Herr, Harn.
Qed.

(** When the transport reports an error for a waiting device and no global
    [arn] is defined, the promise of that device stays pending and the
    aggregate promise is never completed, whatever happens afterwards. *)
Lemma tracks_failure_blocks st w i device err data w' :
  tracks d st w -> sole d w ->
  d_devices d !! i = Some device -> st !! i = Some Waiting ->
  loose_neq_null err = true -> w_globals w !! "arn" = None ->
  rtc step (deliver (d_request d + i) err data w) w' ->
  aggregate (w_heap w') (d_join d) = Some Pending
  /\ cell_state (w_heap w') (d_promise d + i) = Some Pending.
Proof.
  intros Ht Hsole Hdevice Hi Herr Harn Hrun.
  pose proof (deliver_tracks d st w i device Ht Hdevice Hi err data) as Ht1.
  rewrite next_state_arn_unbound in Ht1 by done.
  destruct Ht as (_ & Hdev & _). destruct (Hdev _ _ _ Hdevice Hi) as [Hk _].
  assert (run_inv d (<[i := Lost]> st) (deliver (d_request d + i) err data w)) as Hinv.
  { exists (<[i := Lost]> st). split_and!; [done|by eapply sole_deliver|done]. }
  destruct (rtc_run_inv d _ _ w' Hinv Hrun) as (st' & Ht' & _ & Hadv).
  assert (st' !! i = Some Lost) as Hi'.
  { eapply advances_settled; [done| |done].
    apply list_lookup_insert_eq. by eapply lookup_lt_Some. }
  split; [by eapply tracks_pending|].
  destruct Ht' as (_ & Hdev' & _). destruct (Hdev' _ _ _ Hdevice Hi') as [_ Hp].
  unfold cell_state. by rewrite Hp.
Qed.

(** A resolved aggregate holds one outcome per device, and each device has
    its promise resolved with the outcome at its position and its request
    no longer in flight. *)
Lemma tracks_resolved st w outcomes :
  tracks d st w ->
  aggregate (w_heap w) (d_join d) = Some (Resolved (VArr outcomes)) ->
  length outcomes = length (d_devices d)
  /\ forall i v, outcomes !! i = Some v ->
       cell_state (w_heap w) (d_promise d + i) = Some (Resolved v)
       /\ w_inflight w !! (d_request d + i) = Some None.
Proof.
  intros Ht Hagg. rewrite (tracks_aggregate _ _ _ Ht) in Hagg.
  case_decide as Hall; simplify_eq. destruct Ht as (Hlen & Hdev & _).
  split; [by rewrite length_fmap|]. intros i v [s [-> Hi]]%list_lookup_fmap_Some.
  destruct (lookup_lt_is_Some_2 (d_devices d) i) as [device Hdevice];
    [rewrite <- Hlen; by eapply lookup_lt_Some|].
  destruct (Hdev _ _ _ Hdevice Hi) as [Hk Hp]. unfold cell_state. rewrite Hp, Hk.
  apply count_done_all in Hall. rewrite Forall_lookup in Hall.
  specialize (Hall _ _ Hi). by destruct s.
Qed.

(** A pending aggregate has a device whose promise is pending. *)
Lemma tracks_unresolved st w :
  tracks d st w -> aggregate (w_heap w) (d_join d) = Some Pending ->
  exists i, i < length (d_devices d)
            /\ cell_state (w_heap w) (d_promise d + i) = Some Pending.
Proof.
  intros Ht Hagg. rewrite (tracks_aggregate _ _ _ Ht) in Hagg.
  case_decide as Hall; simplify_eq. rewrite count_done_all in Hall.
  apply not_Forall_Exists, Exists_exists in Hall as (s & Hs & Hdone); [|solve_decision].
  apply list_elem_of_lookup in Hs as [i Hi]. destruct Ht as (Hlen & Hdev & _).
  assert (i < length (d_devices d)) as Hlt by (rewrite <- Hlen; by eapply lookup_lt_Some).
  destruct (lookup_lt_is_Some_2 _ _ Hlt) as [device Hdevice].
  destruct (Hdev _ _ _ Hdevice Hi) as [_ Hp]. exists i. split; [done|].
  unfold cell_state. rewrite Hp. destruct s; [done| |done]. by destruct Hdone.
Qed.

(** In every state a tracked dispatch can reach, an aggregate promise that
    is resolved holds one outcome per device, no request is in flight any
    more, and the promise of each device is resolved with the outcome at
    its position. *)
Lemma tracks_no_early_resolution st w w' outcomes :
  tracks d st w -> sole d w -> rtc step w w' ->
  aggregate (w_heap w') (d_join d) = Some (Resolved (VArr outcomes)) ->
  length outcomes = length (d_devices d)
  /\ Forall (fun rq => rq = None) (w_inflight w')
  /\ forall i v, outcomes !! i = Some v ->
       cell_state (w_heap w') (d_promise d + i) = Some (Resolved v).
Proof.
  intros Ht Hsole Hrun Hagg.
  assert (run_inv d st w) as Hinv by (by exists st).
  destruct (rtc_run_inv d _ _ w' Hinv Hrun) as (st' & Ht' & Hsole' & _).
  destruct (tracks_resolved _ _ _ Ht' Hagg) as [Hlen Hres].
  split_and!; [done| |intros i v Hi; by apply Hres].
  apply Forall_lookup. intros k [rq|] Hk; [|done].
  destruct (sole_waiting _ _ _ _ _ Ht' Hsole' Hk) as (i & device & _ & _ & Hi).
  rewrite (tracks_pending _ _ _ _ _ Ht' Hi) in Hagg; done.
Qed.

(** C37: the callback of one device changes neither the promise nor the
    request of another device of the dispatch. *)
Theorem deliver_isolation st w i j device err data :
  tracks d st w -> d_devices d !! i = Some device -> st !! i = Some Waiting -> j <> i ->
  let w' := deliver (d_request d + i) err data w in
  cells (w_heap w') !! (d_promise d + j) = cells (w_heap w) !! (d_promise d + j)
  /\ w_inflight w' !! (d_request d + j) = w_inflight w !! (d_request d + j).
Proof.
  intros Ht Hdevice Hi Hne. cbn zeta.
  rewrite deliver_inflight, (deliver_waiting d st w i device Ht Hdevice Hi).
  destruct (callback_plan _ _ _ _) as [e|[entries outcome]]; cbn;
    by rewrite ?list_lookup_insert_ne by lia.
Qed.

End completion_theorems.

(** ** Every run ends *)

(** The number of requests in flight. *)
Definition in_flight (w : world) : nat := length (filter is_Some (w_inflight w)).

Lemma step_in_flight w w' : step w w' -> S (in_flight w') = in_flight w.
Proof.
  intros [k err data w0 rq Hk]. unfold in_flight. rewrite deliver_inflight.
  by apply (length_filter_insert is_Some _ _ (Some rq)); [|eexists|intros []].
Qed.

(** Along a run the heap keeps its size, the list of requests its length,
    and the number of requests in flight does not grow. *)
Lemma rtc_step_sizes w w' :
  rtc step w w' ->
  heap_size (w_heap w') = heap_size (w_heap w)
  /\ length (w_inflight w') = length (w_inflight w)
  /\ in_flight w' <= in_flight w.
Proof.
  induction 1 as [|w1 w2 w3 Hstep _ (-> & -> & IH)]; [done|].
  pose proof (step_in_flight _ _ Hstep). destruct Hstep as [k err data w0 rq _].
  rewrite deliver_heap_size, deliver_inflight, length_insert. split_and!; [done..|lia].
Qed.

(** C38: every callback takes one request from the transport and adds
    none, so a run of [n] callbacks leaves [n] requests fewer in flight:
    no run is longer than the number of requests in flight where it
    starts. *)
Theorem runs_terminate n w w' : nsteps step n w w' -> in_flight w' + n = in_flight w.
Proof.
  induction 1 as [|n w1 w2 w3 Hstep _ IH]; [lia|]. apply step_in_flight in Hstep. lia.
Qed.

(** * Witnesses *)

(** A dispatch to the two devices of the specification's example, written
    out: two requests in flight, two pending promises, one join. *)
Definition demo_dispatch : dispatch :=
  Dispatch (sns demo_adapter) demo_bundle (generateMessageAttributes demo_data)
    [demo_ios; demo_android] 0 0 0.

Definition demo_tracked : world :=
  set_inflight [request_of demo_dispatch 0 demo_ios Waiting;
                request_of demo_dispatch 1 demo_android Waiting]
    (set_heap (PHeap [cell_of demo_dispatch 0 Waiting; cell_of demo_dispatch 1 Waiting]
                 [join_of [Waiting; Waiting]]) demo_world).

Lemma demo_tracked_tracks : tracks demo_dispatch [Waiting; Waiting] demo_tracked.
Proof.
  split_and!; [done| |done].
  intros [|[|i]] device s Hdevice Hs; by simplify_eq/=.
Qed.

Lemma deliver_isolation_witness :
  let w' := deliver (0 + 1) demo_failure VNull demo_tracked in
  cells (w_heap w') !! (0 + 0) = cells (w_heap demo_tracked) !! (0 + 0)
  /\ w_inflight w' !! (0 + 0) = w_inflight demo_tracked !! (0 + 0).
Proof.
  apply (deliver_isolation demo_dispatch [Waiting; Waiting] demo_tracked 1 0 demo_android
           demo_failure VNull demo_tracked_tracks); [reflexivity|reflexivity|lia].
Defined.

Lemma runs_terminate_witness :
  in_flight (deliver 1 VNull demo_answer (deliver 0 demo_failure VNull demo_tracked)) + 2
  = in_flight demo_tracked.
Proof.
  apply (runs_terminate 2 demo_tracked).
  eapply nsteps_l; [|apply nsteps_once]; by econstructor.
Defined.
