(* ===== verification/Recall.v ===== *)
(** * A callback that runs again

    [Delivery] lets the transport call the callback of a request once.
    Nothing in [publishToSNS] relies on that: the callback is a closure
    over the device and its promise, and it is [promise.resolve] that
    refuses a second outcome.  This file lets the transport call a
    callback again, with any [(err, data)], after the request has left
    the list of requests in flight: [recall] is that call, [restep] the
    runs in which first calls and repeated calls interleave.  The theorems
    show what the adapter guarantees against such a transport: the outcome
    of a device is written once, a resolved aggregate promise never
    changes, and a device whose first callback threw before it resolved
    its promise is completed by a later call. *)

From stdpp Require Import base option list strings gmap.
From S2P Require Import Prelude JsValue Promise World Publish Delivery.

(** ** Calling a callback *)

(** The transport calls the callback that [publishToSNS] made for the
    request [rq]; an exception of the callback escapes to the SDK. *)
Definition recall (rq : request) (err data : value) (w : world) : world :=
  match publishCallback (rq_device rq) (rq_promise rq) err data w with
  | (Normal _, w1) => w1
  | (Throw e, w1) => set_uncaught (w_uncaught w1 ++ [e]) w1
  end.

(** The request of device [i] of a dispatch: the parameters, and the
    device and the promise its callback closes over. *)
Definition closure_of (d : dispatch) (i : nat) (device : value) : request :=
  Request (d_client d) (paramsOf device (d_payload d) (d_attributes d)) device
    (d_promise d + i).

(** A first call of the callback of a request in flight, or a further call
    of the callback of a device whose request is no longer in flight. *)
Inductive restep (d : dispatch) : world -> world -> Prop :=
| restep_first w w' :
    step w w' -> restep d w w'
| restep_again i device err data w :
    d_devices d !! i = Some device ->
    w_inflight w !! (d_request d + i) = Some None ->
    restep d w (recall (closure_of d i device) err data w).

(** The state of a device after a further call of its callback: an outcome
    stays, a device without one takes what this call gives it. *)
Definition again (s next : dstate) : dstate :=
  match s with
  | Done v => Done v
  | _ => next
  end.

(** The outcomes of [st] are those of [st']. *)
Definition keeps (st st' : list dstate) : Prop :=
  Forall2 (fun s s' => is_done s = true -> s' = s) st st'.

(** * Facts *)

#[export] Instance keeps_preorder : PreOrder keeps.
Proof.
  split.
  - intros st. by apply Forall_Forall2_diag, Forall_true.
  - intros st1 st2 st3. apply Forall2_trans. intros s1 s2 s3 H12 H23 Hs.
    rewrite H23; rewrite H12; done.
Qed.

Lemma advances_keeps st st' : advances st st' -> keeps st st'.
Proof. intros Hadv. eapply Forall2_impl; [done|]. by intros s s' [->| ->]. Qed.

Lemma keeps_insert st i s s' :
  st !! i = Some s -> (is_done s = true -> s' = s) -> keeps st (<[i := s']> st).
Proof.
  intros Hi Hs. apply Forall2_same_length_lookup. rewrite length_insert. split; [done|].
  intros i' s1 s2 H1 H2. destruct (decide (i' = i)) as [->|Hne].
  - rewrite list_lookup_insert_eq in H2 by (by eapply lookup_lt_Some). by simplify_eq.
  - rewrite list_lookup_insert_ne in H2 by done. by simplify_eq.
Qed.

Lemma keeps_lookup st st' i v :
  keeps st st' -> st !! i = Some (Done v) -> st' !! i = Some (Done v).
Proof.
  intros Hkeeps Hi. destruct (Forall2_lookup_l _ _ _ _ _ Hkeeps Hi) as (s' & ? & Hs).
  by rewrite Hs in *.
Qed.

(** The first call of a callback is a call of the closure, made when the
    request has left the transport. *)
Lemma deliver_recall k err data w rq :
  w_inflight w !! k = Some (Some rq) ->
  deliver k err data w = recall rq err data (set_inflight (<[k := None]> (w_inflight w)) w).
Proof. unfold deliver, recall. by intros ->. Qed.

Section one_device.
Context (d : dispatch) (st : list dstate) (w : world) (i : nat) (device : value).
Context (Htracks : tracks d st w).
Context (Hdevice : d_devices d !! i = Some device).

(** A further call for a device that has its outcome: the callback logs
    as the first call did, then [promise.resolve] throws, and nothing
    else changes. *)
Lemma recall_done v err data :
  st !! i = Some (Done v) ->
  recall (closure_of d i device) err data w
  = match callback_plan (w_globals w) device err data with
    | inl e => set_uncaught (w_uncaught w ++ [e]) w
    | inr (entries, _) =>
        set_uncaught (w_uncaught w ++ [PromiseCompleted]) (set_log (w_log w ++ entries) w)
    end.
Proof.
  intros Hi. destruct Htracks as (_ & Hdev & _).
  destruct (Hdev _ _ _ Hdevice Hi) as [_ Hp].
  unfold recall, closure_of. cbn [rq_device rq_promise]. rewrite publishCallback_plan.
  destruct (callback_plan _ _ _ _) as [e|[entries outcome]]; [done|].
  unfold on_heap. cbn [w_heap set_log].
  by rewrite (promise_resolve_completed _ _ _ _ _ Hp).
Qed.

(** A further call for a device whose first callback threw: the promise
    is still pending, and this call resolves it if it gets that far. *)
Lemma recall_lost err data :
  st !! i = Some Lost ->
  recall (closure_of d i device) err data w
  = match callback_plan (w_globals w) device err data with
    | inl e => set_uncaught (w_uncaught w ++ [e]) w
    | inr (entries, outcome) =>
        set_heap (PHeap (<[d_promise d + i := cell_of d i (Done outcome)]> (cells (w_heap w)))
                    (<[d_join d := join_of (<[i := Done outcome]> st)]> (joins (w_heap w))))
          (set_log (w_log w ++ entries) w)
    end.
Proof.
  intros Hi. destruct Htracks as (_ & Hdev & Hjoin).
  destruct (Hdev _ _ _ Hdevice Hi) as [_ Hp].
  unfold recall, closure_of. cbn [rq_device rq_promise]. rewrite publishCallback_plan.
  destruct (callback_plan _ _ _ _) as [e|[entries outcome]]; [done|].
  unfold on_heap. cbn [w_heap set_log].
  rewrite (promise_resolve_registered _ _ _ _ _ _ Hp Hjoin).
  by rewrite (resolve_one_join_of st i Lost outcome Hi).
Qed.

(** A further call keeps the invariant: the device keeps its outcome, or
    takes the state this call gives it. *)
Lemma recall_tracks s err data :
  st !! i = Some s -> s <> Waiting ->
  tracks d (<[i := again s (next_state (w_globals w) device err data)]> st)
    (recall (closure_of d i device) err data w).
Proof.
  intros Hi Hs. pose proof Htracks as (_ & Hdev & Hjoin).
  destruct (Hdev _ _ _ Hdevice Hi) as [Hk Hp]. unfold next_state.
  destruct s as [|v|]; [done|..]; cbn [again].
  - rewrite (recall_done v) by done. rewrite list_insert_id by done.
    destruct Htracks as (? & ? & ?).
    by destruct (callback_plan _ _ _ _) as [e|[entries outcome]].
  - rewrite recall_lost by done.
    destruct (callback_plan _ _ _ _) as [e|[entries outcome]].
    + rewrite list_insert_id by done. by destruct Htracks as (? & ? & ?).
    + apply (tracks_update d st w i device Htracks Hdevice); cbn; [|done..].
      by rewrite list_insert_id.
Qed.
End one_device.

(** ** Runs with repeated calls *)

Lemma recall_inflight rq err data w :
  w_inflight (recall rq err data w) = w_inflight w.
Proof.
  unfold recall. destruct (publishCallback _ _ _ _ _) as [[] w1] eqn:Hcb;
    apply publishCallback_frame in Hcb as (Hin & _); cbn; by rewrite Hin.
Qed.

Lemma keeps_all_done st st' :
  keeps st st' -> Forall (fun s => is_done s = true) st -> st' = st.
Proof.
  unfold keeps. induction 1 as [|s s' st st' Hs _ IH]; [done|].
  intros [Hdone Hall]%Forall_cons. by rewrite (Hs Hdone), (IH Hall).
Qed.

Section reruns.
Context (d : dispatch).

(** The invariant of the runs that start where the devices are in the
    states [st0]: the dispatch is tracked, and no outcome of [st0] has
    changed. *)
Definition rerun_inv (st0 : list dstate) (w : world) : Prop :=
  exists st, tracks d st w /\ sole d w /\ keeps st0 st.

(** A device whose request has left the transport is not waiting. *)
Lemma tracks_settled st w i device :
  tracks d st w -> d_devices d !! i = Some device ->
  w_inflight w !! (d_request d + i) = Some None ->
  exists s, st !! i = Some s /\ s <> Waiting.
Proof.
  intros (Hlen & Hdev & _) Hdevice Hk.
  destruct (lookup_lt_is_Some_2 st i) as [s Hs]; [rewrite Hlen; by eapply lookup_lt_Some|].
  exists s. split; [done|]. intros ->.
  destruct (Hdev _ _ _ Hdevice Hs) as [Hk' _]. by rewrite Hk in Hk'.
Qed.

Lemma restep_rerun_inv st0 w w' : rerun_inv st0 w -> restep d w w' -> rerun_inv st0 w'.
Proof.
  intros (st & Ht & Hsole & Hkeeps) Hstep.
  destruct Hstep as [w1 w2 Hstep|i device err data w1 Hdevice Hk].
  - destruct (step_run_inv d st w1 w2) as (st' & ? & ? & ?%advances_keeps);
      [by exists st | done |].
    exists st'. split_and!; [done..|]. by etrans.
  - destruct (tracks_settled _ _ _ _ Ht Hdevice Hk) as (s & Hs & Hne).
    eexists. split_and!.
    + by eapply recall_tracks.
    + intros k rq. rewrite recall_inflight. apply Hsole.
    + etrans; [done|]. eapply keeps_insert; [done|]. by destruct s.
Qed.

Lemma rtc_rerun_inv st0 w w' : rerun_inv st0 w -> rtc (restep d) w w' -> rerun_inv st0 w'.
Proof. intros Hinv Hrun. induction Hrun; eauto using restep_rerun_inv. Qed.

Lemma tracks_rerun_inv st w : tracks d st w -> sole d w -> rerun_inv st w.
Proof. by exists st. Qed.

(** * Theorems *)

(** C18: the outcome of a device is written once.  When the callback of a
    device that has its outcome is called again, with whatever error or
    answer, the heap and the requests in flight are what they were, the
    dispatch is tracked with the same outcomes, and the call ends in one
    exception that escapes to the transport. *)
Theorem recall_outcome_once st w i device v err data :
  tracks d st w -> d_devices d !! i = Some device -> st !! i = Some (Done v) ->
  w_heap (recall (closure_of d i device) err data w) = w_heap w
  /\ w_inflight (recall (closure_of d i device) err data w) = w_inflight w
  /\ tracks d st (recall (closure_of d i device) err data w)
  /\ exists e, w_uncaught (recall (closure_of d i device) err data w) = w_uncaught w ++ [e].
Proof.
  intros Ht Hdevice Hi. pose proof Ht as (Hlen & Hdev & Hjoin).
  rewrite (recall_done d st w i device Ht Hdevice v) by done.
  destruct (callback_plan _ _ _ _) as [e|[entries outcome]]; cbn;
    (split_and!; [done..|by eexists]).
Qed.

(** C17: a resolved aggregate promise never changes: in every run of first
    and repeated calls of callbacks, from a state in which the aggregate
    is resolved, it is resolved with the same outcomes in every later
    state. *)
Theorem rerun_resolved_stable st w w' outcomes :
  tracks d st w -> sole d w -> rtc (restep d) w w' ->
  aggregate (w_heap w) (d_join d) = Some (Resolved (VArr outcomes)) ->
  aggregate (w_heap w') (d_join d) = Some (Resolved (VArr outcomes)).
Proof.
  intros Ht Hsole Hrun Hagg.
  destruct (rtc_rerun_inv st w w') as (st' & Ht' & _ & Hkeeps); [by exists st | done |].
  rewrite (tracks_aggregate _ _ _ Ht) in Hagg. rewrite (tracks_aggregate _ _ _ Ht').
  case_decide as Hall; [|done]. pose proof Hall as Hdone%count_done_all.
  by rewrite (keeps_all_done _ _ Hkeeps Hdone), decide_True.
Qed.

(** C16: repeated calls cannot make the aggregate promise resolve early or
    with a wrong outcome: in every state such a run reaches, a resolved
    aggregate holds one outcome per device, each the outcome its own
    promise is resolved with, and every outcome a device had at the start
    is at its position. *)
Theorem rerun_no_early_resolution st w w' outcomes :
  tracks d st w -> sole d w -> rtc (restep d) w w' ->
  aggregate (w_heap w') (d_join d) = Some (Resolved (VArr outcomes)) ->
  length outcomes = length (d_devices d)
  /\ (forall i v, outcomes !! i = Some v ->
        cell_state (w_heap w') (d_promise d + i) = Some (Resolved v))
  /\ forall i v, st !! i = Some (Done v) -> outcomes !! i = Some v.
Proof.
  intros Ht Hsole Hrun Hagg.
  destruct (rtc_rerun_inv st w w') as (st' & Ht' & _ & Hkeeps); [by exists st | done |].
  destruct (tracks_resolved d _ _ _ Ht' Hagg) as [Hlen Hres].
  split_and!; [done | intros i v Hi; by apply Hres |].
  intros i v Hi%(keeps_lookup _ _ _ _ Hkeeps).
  rewrite (tracks_aggregate _ _ _ Ht') in Hagg. case_decide; simplify_eq.
  by rewrite list_lookup_fmap, Hi.
Qed.

(** C26: a device whose first callback threw before it resolved its
    promise is not lost for good: when its callback is called again and
    gets as far as [promise.resolve], the device has its outcome, and if
    it was the only one missing the aggregate promise resolves. *)
Theorem recall_completes_lost st w i device err data entries outcome :
  tracks d st w -> d_devices d !! i = Some device -> st !! i = Some Lost ->
  callback_plan (w_globals w) device err data = inr (entries, outcome) ->
  tracks d (<[i := Done outcome]> st) (recall (closure_of d i device) err data w)
  /\ (count_done st + 1 = length st ->
      aggregate (w_heap (recall (closure_of d i device) err data w)) (d_join d)
      = Some (Resolved (VArr (<[i := outcome]> (slot_of <$> st))))).
Proof.
  intros Ht Hdevice Hi Hplan.
  pose proof (recall_tracks d st w i device Ht Hdevice Lost err data Hi) as Ht'.
  unfold next_state in Ht'. rewrite Hplan in Ht'. cbn [again] in Ht'.
  specialize (Ht' ltac:(done)). split; [done|]. intros Hcount.
  rewrite (tracks_aggregate _ _ _ Ht'), length_insert, list_fmap_insert.
  pose proof (count_done_insert st i Lost (Done outcome) Hi) as Hc. simpl in Hc.
  by rewrite decide_True by lia.
Qed.

End reruns.

(** * Witnesses *)

(** The two devices of the example: the second answered, then the first
    failed in a process without a global [arn], then the first answered
    after all. *)
Definition demo_android_outcome : value :=
  slot_of (next_state ∅ demo_android VNull demo_answer).

Definition demo_ios_outcome : value :=
  slot_of (next_state ∅ demo_ios VNull demo_answer).

Definition demo_one_done : world := deliver 1 VNull demo_answer demo_tracked.

Definition demo_one_lost : world := deliver 0 demo_failure VNull demo_one_done.

Definition demo_both_done : world := deliver 0 VNull demo_answer demo_one_done.

Lemma demo_one_done_tracks :
  tracks demo_dispatch [Waiting; Done demo_android_outcome] demo_one_done.
Proof.
  apply (deliver_tracks demo_dispatch [Waiting; Waiting] demo_tracked 1 demo_android
           demo_tracked_tracks eq_refl eq_refl VNull demo_answer).
Qed.

Lemma demo_one_lost_tracks :
  tracks demo_dispatch [Lost; Done demo_android_outcome] demo_one_lost.
Proof.
  apply (deliver_tracks demo_dispatch _ demo_one_done 0 demo_ios
           demo_one_done_tracks eq_refl eq_refl demo_failure VNull).
Qed.

Lemma demo_both_done_tracks :
  tracks demo_dispatch [Done demo_ios_outcome; Done demo_android_outcome] demo_both_done.
Proof.
  apply (deliver_tracks demo_dispatch _ demo_one_done 0 demo_ios
           demo_one_done_tracks eq_refl eq_refl VNull demo_answer).
Qed.

Lemma demo_both_done_sole : sole demo_dispatch demo_both_done.
Proof. intros [|[|k]] rq Hk; by simplify_eq/=. Qed.

(** The transport calls the callback of the first device again, with an
    error this time. *)
Definition demo_called_again : world :=
  recall (closure_of demo_dispatch 0 demo_ios) demo_failure VNull demo_both_done.

Lemma demo_rerun : rtc (restep demo_dispatch) demo_both_done demo_called_again.
Proof. apply rtc_once. by apply restep_again. Qed.

Lemma recall_outcome_once_witness :
  w_heap (recall (closure_of demo_dispatch 1 demo_android) demo_failure VNull demo_one_done)
  = w_heap demo_one_done
  /\ w_inflight (recall (closure_of demo_dispatch 1 demo_android) demo_failure VNull
                   demo_one_done)
     = w_inflight demo_one_done
  /\ tracks demo_dispatch [Waiting; Done demo_android_outcome]
       (recall (closure_of demo_dispatch 1 demo_android) demo_failure VNull demo_one_done)
  /\ exists e,
       w_uncaught (recall (closure_of demo_dispatch 1 demo_android) demo_failure VNull
                     demo_one_done)
       = w_uncaught demo_one_done ++ [e].
Proof.
  apply (recall_outcome_once demo_dispatch _ demo_one_done 1 demo_android
           demo_android_outcome demo_failure VNull demo_one_done_tracks);
    reflexivity.
Defined.

Lemma rerun_resolved_stable_witness :
  aggregate (w_heap demo_called_again) 0
  = Some (Resolved (VArr [demo_ios_outcome; demo_android_outcome])).
Proof.
  apply (rerun_resolved_stable demo_dispatch _ demo_both_done demo_called_again
           [demo_ios_outcome; demo_android_outcome] demo_both_done_tracks
           demo_both_done_sole demo_rerun).
  reflexivity.
Defined.

Lemma rerun_no_early_resolution_witness :
  length [demo_ios_outcome; demo_android_outcome] = length (d_devices demo_dispatch)
  /\ (forall i v, [demo_ios_outcome; demo_android_outcome] !! i = Some v ->
        cell_state (w_heap demo_called_again) (0 + i) = Some (Resolved v))
  /\ forall i v,
       [Done demo_ios_outcome; Done demo_android_outcome] !! i = Some (Done v) ->
       [demo_ios_outcome; demo_android_outcome] !! i = Some v.
Proof.
  apply (rerun_no_early_resolution demo_dispatch _ demo_both_done demo_called_again
           [demo_ios_outcome; demo_android_outcome] demo_both_done_tracks
           demo_both_done_sole demo_rerun).
  reflexivity.
Defined.

Lemma recall_completes_lost_witness :
  tracks demo_dispatch (<[0 := Done demo_ios_outcome]> [Lost; Done demo_android_outcome])
    (recall (closure_of demo_dispatch 0 demo_ios) VNull demo_answer demo_one_lost)
  /\ (count_done [Lost; Done demo_android_outcome] + 1
      = length [Lost; Done demo_android_outcome] ->
      aggregate (w_heap (recall (closure_of demo_dispatch 0 demo_ios) VNull demo_answer
                           demo_one_lost)) 0
      = Some (Resolved (VArr (<[0 := demo_ios_outcome]>
                                (slot_of <$> [Lost; Done demo_android_outcome]))))).
Proof.
  apply (recall_completes_lost demo_dispatch _ demo_one_lost 0 demo_ios VNull demo_answer
           (logged ∅ demo_ios VNull demo_answer) demo_ios_outcome demo_one_lost_tracks);
    reflexivity.
Defined.

(** The first device fails, the transport calls back again with an
    answer, and the call of [send] completes with both outcomes. *)
Example recall_example :
  aggregate (w_heap (recall (closure_of demo_dispatch 0 demo_ios) VNull demo_answer
                       demo_one_lost)) 0
  = Some (Resolved (VArr [demo_ios_outcome; demo_android_outcome])).
Proof. reflexivity. Qed.
