(* ===== verification/Order.v ===== *)
(** * The order of completions, and what a call of [send] implements

    The list of device states that [Delivery.tracks] relates to a world is
    the state of an abstract machine, [abstract_step]: a device waits, and
    moves once to the state its own callback computes.  The first part shows
    that the heap, the join and the requests of a call implement this
    machine, step for step.

    [world_equiv] relates worlds that differ in the order of their log
    entries and of their uncaught exceptions only.  Callbacks respect it
    ([deliver_proper]), the callbacks of different devices commute up to
    it, and so do whole runs that deliver the same completions in
    different orders. *)

From stdpp Require Import base option list strings gmap.
From S2P Require Import Prelude JsValue Hex Json Promise World Config Payload Publish Delivery.

(** ** The dispatch as an abstract machine *)

(** What a call of [send] promises, without heap, joins or requests: a
    device waits until its completion arrives and then moves, once, to the
    state its own callback computes. *)
Inductive abstract_step (d : dispatch) (g : gmap string value)
  : list dstate -> list dstate -> Prop :=
| abstract_complete st i device err data :
    d_devices d !! i = Some device -> st !! i = Some Waiting ->
    abstract_step d g st (<[i := next_state g device err data]> st).

(** The promise of the call, read off the abstract state. *)
Definition abstract_aggregate (st : list dstate) : pstate :=
  if decide (Forall (fun s => is_done s = true) st)
  then Resolved (VArr (slot_of <$> st)) else Pending.

Lemma tracks_abstract_aggregate d st w :
  tracks d st w -> aggregate (w_heap w) (d_join d) = Some (abstract_aggregate st).
Proof.
  intros Ht. rewrite (tracks_aggregate _ _ _ Ht). unfold abstract_aggregate.
  pose proof (count_done_all st). repeat case_decide; naive_solver.
Qed.

(** C5: the heap, the join and the requests of a call of [send] implement
    the abstract machine: every callback the transport makes is one step of
    the machine for one waiting device, after which the world still
    represents the abstract state and the promise of the call is the one
    the abstract state gives. *)
Theorem delivery_refines d st w w' :
  tracks d st w -> sole d w -> step w w' ->
  exists st',
    abstract_step d (w_globals w) st st' /\ tracks d st' w' /\ sole d w'
    /\ aggregate (w_heap w') (d_join d) = Some (abstract_aggregate st').
Proof.
  intros Ht Hsole Hstep. inversion Hstep as [k err data w0 rq Hk]; subst.
  destruct (sole_waiting _ _ _ _ _ Ht Hsole Hk) as (i & device & -> & Hdevice & Hi).
  pose proof (deliver_tracks d st w i device Ht Hdevice Hi err data) as Ht'.
  eexists. split_and!; [by econstructor|done|by eapply sole_deliver|].
  by apply tracks_abstract_aggregate.
Qed.

(** Conversely, every step of the abstract machine is a callback the
    transport can make. *)
Lemma abstract_step_delivered d st st' w :
  tracks d st w -> abstract_step d (w_globals w) st st' ->
  exists w', step w w' /\ tracks d st' w'.
Proof.
  intros Ht Hstep. inversion Hstep as [st0 i device err data Hdevice Hi]; subst.
  exists (deliver (d_request d + i) err data w). split; [|by apply deliver_tracks].
  destruct Ht as (_ & Hdev & _). destruct (Hdev _ _ _ Hdevice Hi) as [Hk _].
  by econstructor.
Qed.

(** ** Worlds up to the order of the log *)

(** Two worlds that differ in the order of their log entries and of their
    uncaught exceptions only. *)
Definition world_equiv (w1 w2 : world) : Prop :=
  w_config w1 = w_config w2 /\ w_clock w1 = w_clock w2 /\ w_seed w1 = w_seed w2
  /\ w_heap w1 = w_heap w2 /\ w_inflight w1 = w_inflight w2 /\ w_globals w1 = w_globals w2
  /\ w_log w1 ≡ₚ w_log w2 /\ w_uncaught w1 ≡ₚ w_uncaught w2.

Infix "≡w" := world_equiv (at level 70, no associativity) : js_scope.
#[local] Open Scope js_scope.

#[export] Instance world_equiv_equivalence : Equivalence world_equiv.
Proof.
  split.
  - by intros w.
  - intros w1 w2 (? & ? & ? & ? & ? & ? & ? & ?). by split_and!.
  - intros w1 w2 w3 (? & ? & ? & ? & ? & ? & ? & ?) (? & ? & ? & ? & ? & ? & ? & ?).
    split_and!; by etrans.
Qed.

#[export] Instance w_heap_proper : Proper (world_equiv ==> eq) w_heap.
Proof. by intros w1 w2 (_ & _ & _ & ? & _). Qed.

#[export] Instance w_inflight_proper : Proper (world_equiv ==> eq) w_inflight.
Proof. by intros w1 w2 (_ & _ & _ & _ & ? & _). Qed.

#[export] Instance in_flight_proper : Proper (world_equiv ==> eq) in_flight.
Proof. intros w1 w2 Hw. unfold in_flight. by rewrite Hw. Qed.

(** A callback as a function of the request, the plan and the heap. *)
Lemma deliver_unfold k err data w :
  deliver k err data w
  = match w_inflight w !! k with
    | Some (Some rq) =>
        let w1 := set_inflight (<[k := None]> (w_inflight w)) w in
        match callback_plan (w_globals w) (rq_device rq) err data with
        | inl e => set_uncaught (w_uncaught w ++ [e]) w1
        | inr (entries, outcome) =>
            match promise_resolve (rq_promise rq) outcome (w_heap w) with
            | (Normal _, h) => set_heap h (set_log (w_log w ++ entries) w1)
            | (Throw e, h) =>
                set_uncaught (w_uncaught w ++ [e]) (set_heap h (set_log (w_log w ++ entries) w1))
            end
        end
    | _ => w
    end.
Proof.
  unfold deliver. destruct (w_inflight w !! k) as [[rq|]|]; [|done..].
  rewrite publishCallback_plan. cbn.
  destruct (callback_plan _ _ _ _) as [e|[entries outcome]]; [done|].
  unfold on_heap. cbn. by destruct (promise_resolve _ _ _) as [[] h].
Qed.

(** Callbacks respect the equivalence. *)
#[export] Instance deliver_proper k err data :
  Proper (world_equiv ==> world_equiv) (deliver k err data).
Proof.
  intros w1 w2 Hw. pose proof Hw as (Hc & Hk & Hs & Hh & Hi & Hg & Hl & Hu).
  rewrite !deliver_unfold, Hi, Hg, Hh.
  destruct (w_inflight w2 !! k) as [[rq|]|]; [|done..]. cbn zeta.
  destruct (callback_plan _ _ _ _) as [e|[entries outcome]].
  - split_and!; cbn; try done. by f_equiv.
  - destruct (promise_resolve _ _ _) as [[] h]; split_and!; cbn; try done; by f_equiv.
Qed.

(** The callbacks of two waiting devices of a call commute. *)
Lemma deliver_commute d st w i j device_i device_j err_i data_i err_j data_j :
  tracks d st w -> i <> j ->
  d_devices d !! i = Some device_i -> d_devices d !! j = Some device_j ->
  st !! i = Some Waiting -> st !! j = Some Waiting ->
  deliver (d_request d + j) err_j data_j (deliver (d_request d + i) err_i data_i w)
  ≡w deliver (d_request d + i) err_i data_i (deliver (d_request d + j) err_j data_j w).
Proof.
  intros Ht Hne Hdi Hdj Hi Hj.
  pose proof (deliver_tracks d st w i device_i Ht Hdi Hi err_i data_i) as Hti.
  pose proof (deliver_tracks d st w j device_j Ht Hdj Hj err_j data_j) as Htj.
  rewrite (deliver_tracked d _ _ j device_j Hti Hdj) by (by rewrite list_lookup_insert_ne).
  rewrite (deliver_tracked d _ _ i device_i Htj Hdi) by (by rewrite list_lookup_insert_ne).
  rewrite (deliver_tracked d st w i device_i Ht Hdi Hi),
    (deliver_tracked d st w j device_j Ht Hdj Hj). cbn.
  split_and!; cbn; try done.
  - f_equal; [apply list_insert_insert_ne; lia|].
    rewrite !list_insert_insert_eq. f_equal. f_equal. by apply list_insert_insert_ne.
  - apply list_insert_insert_ne. lia.
  - rewrite <- !app_assoc. f_equiv. apply Permutation_app_comm.
  - rewrite <- !app_assoc. f_equiv. apply Permutation_app_comm.
Qed.

#[export] Instance deliver_all_proper evs :
  Proper (world_equiv ==> world_equiv) (deliver_all evs).
Proof.
  induction evs as [|ev evs IH]; intros w1 w2 Hw; [done|].
  cbn. apply IH. by apply deliver_proper.
Qed.

(** C6: the order in which the transport completes the requests of a call
    does not matter: two runs that deliver the same completions to
    distinct waiting devices in different orders end in worlds with the
    same heap, hence the same outcomes and the same aggregate promise, and
    the same requests in flight; they differ at most in the order of the
    log entries and of the uncaught exceptions. *)
Theorem deliver_all_permutation d evs evs' :
  evs ≡ₚ evs' ->
  forall st w, tracks d st w -> pending_events d st evs ->
  world_equiv (deliver_all evs w) (deliver_all evs' w).
Proof.
  induction 1 as [|ev evs evs' Hperm IH|ev1 ev2 evs|evs1 evs2 evs3 H12 IH12 H23 IH23];
    intros st w Ht Hpending.
  - done.
  - destruct (pending_events_cons _ _ _ _ _ Ht Hpending) as (device & Hd & Hw & Hk & Hrest).
    cbn. rewrite Hk. eapply IH; [by apply deliver_tracks|apply Hrest].
  - destruct (pending_events_cons _ _ _ _ _ Ht Hpending) as (dev2 & Hd2 & Hw2 & Hk2 & Hrest).
    destruct (pending_events_cons _ _ _ _ _ Ht (proj1 (pending_events_proper d st _ _
                (perm_swap ev1 ev2 evs)) Hpending)) as (dev1 & Hd1 & Hw1 & Hk1 & _).
    cbn. apply deliver_all_proper. rewrite Hk1, Hk2.
    apply (deliver_commute d st w _ _ dev2 dev1); try done.
    destruct Hpending as [[Hfresh _]%NoDup_cons _]. intros Heq. apply Hfresh.
    apply elem_of_cons. left. lia.
  - etrans; [by eapply IH12|]. eapply IH23; [done|]. by rewrite <- H12.
Qed.

(** * Witnesses *)

Lemma demo_tracked_sole : sole demo_dispatch demo_tracked.
Proof. intros [|[|k]] rq Hk; simplify_eq/=; lia. Qed.

Lemma delivery_refines_witness :
  exists st',
    abstract_step demo_dispatch (w_globals demo_tracked) [Waiting; Waiting] st'
    /\ tracks demo_dispatch st' (deliver 0 demo_failure VNull demo_tracked)
    /\ sole demo_dispatch (deliver 0 demo_failure VNull demo_tracked)
    /\ aggregate (w_heap (deliver 0 demo_failure VNull demo_tracked)) 0
       = Some (abstract_aggregate st').
Proof.
  apply (delivery_refines demo_dispatch [Waiting; Waiting] demo_tracked
           (deliver 0 demo_failure VNull demo_tracked) demo_tracked_tracks demo_tracked_sole).
  by econstructor.
Defined.

Lemma deliver_all_permutation_witness :
  world_equiv
    (deliver_all [Event 0 demo_failure VNull; Event 1 VNull demo_answer] demo_tracked)
    (deliver_all [Event 1 VNull demo_answer; Event 0 demo_failure VNull] demo_tracked).
Proof.
  apply (deliver_all_permutation demo_dispatch _ _ (perm_swap _ _ []) [Waiting; Waiting]
           demo_tracked demo_tracked_tracks).
  split; [by apply (bool_decide_unpack (NoDup [0; 1]))|].
  intros ev [->|[->|[]%elem_of_nil]%elem_of_cons]%elem_of_cons;
    (split; [cbn; lia|reflexivity]).
Defined.
