(* ===== verification/Alias.v ===== *)
(** * The devices are objects of the caller

    [publishToSNS] reads [device.deviceToken] when it builds the
    parameters (line 73), and the callback reads [device.deviceType] and
    [device.deviceToken] again when the transport calls it (lines 80-81).
    The callback closes over the variable [device], which refers to the
    object the caller passed in the array: an assignment the caller makes
    to that object while the request is in flight is seen by the second
    read and not by the first.

    [reassign k device'] is such an assignment, as the closure of request
    [k] sees it.  The theorems say that the run goes on as if the call had
    been made with the new device, except for the message, which went to
    the token read at [send]. *)

From stdpp Require Import base option list strings gmap.
From S2P Require Import Prelude JsValue Promise World Payload Publish Delivery.

(** ** The assignment *)

(** The device object of request [k] becomes [device']: the closure holds
    the object, the parameters hold what was read from it. *)
Definition reassign (k : nat) (device' : value) (w : world) : world :=
  match w_inflight w !! k with
  | Some (Some rq) =>
      set_inflight
        (<[k := Some (Request (rq_client rq) (rq_params rq) device' (rq_promise rq))]>
           (w_inflight w)) w
  | _ => w
  end.

(** The dispatch of a call made with [device'] at position [i]. *)
Definition redirected (d : dispatch) (i : nat) (device' : value) : dispatch :=
  Dispatch (d_client d) (d_payload d) (d_attributes d) (<[i := device']> (d_devices d))
    (d_promise d) (d_request d) (d_join d).

(** * Lemmas *)

(** A callback depends on its request through the variables it closes
    over, [device] and [promise]: the client and the parameters of the
    request do not matter to it. *)
Lemma deliver_closure k err data w rq client params :
  w_inflight w !! k = Some (Some rq) ->
  deliver k err data
    (set_inflight (<[k := Some (Request client params (rq_device rq) (rq_promise rq))]>
                     (w_inflight w)) w)
  = deliver k err data w.
Proof.
  intros Hk. unfold deliver. cbn [w_inflight set_inflight].
  rewrite list_lookup_insert_eq by (by eapply lookup_lt_Some).
  by rewrite Hk, list_insert_insert_eq.
Qed.

Section one_device.
Context (d : dispatch) (st : list dstate) (w : world) (i : nat) (device device' : value).
Context (Htracks : tracks d st w).
Context (Hdevice : d_devices d !! i = Some device).
Context (Hwaiting : st !! i = Some Waiting).

(** The world in which the request of device [i] had been made for
    [device']. *)
Definition resent : world :=
  set_inflight (<[d_request d + i := request_of (redirected d i device') i device' Waiting]>
                  (w_inflight w)) w.

Lemma request_tracked :
  w_inflight w !! (d_request d + i) = Some (request_of d i device Waiting).
Proof. destruct Htracks as (_ & Hdev & _). by destruct (Hdev _ _ _ Hdevice Hwaiting). Qed.

Lemma reassign_tracked :
  reassign (d_request d + i) device' w
  = set_inflight
      (<[d_request d + i :=
           Some (Request (d_client d) (paramsOf device (d_payload d) (d_attributes d)) device'
                   (d_promise d + i))]> (w_inflight w)) w.
Proof. unfold reassign. by rewrite request_tracked. Qed.

Lemma resent_tracks : tracks (redirected d i device') st resent.
Proof.
  pose proof request_tracked as Hk. destruct Htracks as (Hlen & Hdev & Hjoin).
  unfold tracks. cbn [redirected d_devices d_join].
  split_and!; [by rewrite length_insert| |done].
  intros i' dev s Hdev' Hs. unfold device_tracked, resent. cbn -[request_of].
  destruct (decide (i' = i)) as [->|Hne].
  - rewrite list_lookup_insert_eq in Hdev' by (by eapply lookup_lt_Some).
    rewrite list_lookup_insert_eq by (by eapply lookup_lt_Some). simplify_eq.
    split; [done|]. by destruct (Hdev _ _ _ Hdevice Hwaiting).
  - rewrite list_lookup_insert_ne in Hdev' by done.
    rewrite list_lookup_insert_ne by lia. by apply Hdev.
Qed.

(** The callback of the reassigned request is the callback of the
    request made for [device']. *)
Lemma deliver_reassign err data :
  deliver (d_request d + i) err data (reassign (d_request d + i) device' w)
  = deliver (d_request d + i) err data resent.
Proof.
  pose proof request_tracked as Hk. rewrite reassign_tracked.
  rewrite <- (deliver_closure _ _ _ resent
                (Request (d_client d) (paramsOf device' (d_payload d) (d_attributes d)) device'
                   (d_promise d + i))
                (d_client d) (paramsOf device (d_payload d) (d_attributes d))).
  - unfold resent. cbn [w_inflight set_inflight rq_device rq_promise].
    by rewrite list_insert_insert_eq.
  - unfold resent. cbn [w_inflight set_inflight].
    apply list_lookup_insert_eq. by eapply lookup_lt_Some.
Qed.

End one_device.

(** * Theorems *)

(** C35: an assignment to a device object while its request is in flight
    changes the outcome and not the delivery: the message stays addressed
    to the token read at [send], and the callback builds the outcome from
    the object as it is when the transport answers, so that the call goes
    on as a call made with the new device at that position. *)
Theorem reassign_deliver d st w i device device' err data :
  tracks d st w -> d_devices d !! i = Some device -> st !! i = Some Waiting ->
  tracks (redirected d i device') (<[i := next_state (w_globals w) device' err data]> st)
    (deliver (d_request d + i) err data (reassign (d_request d + i) device' w))
  /\ exists rq,
       w_inflight (reassign (d_request d + i) device' w) !! (d_request d + i) = Some (Some rq)
       /\ rq_device rq = device'
       /\ field (rq_params rq) "TargetArn" = field device "deviceToken".
Proof.
  intros Htracks Hdevice Hwaiting. split.
  - rewrite (deliver_reassign d st w i device device') by done.
    apply (deliver_tracks (redirected d i device') st (resent d w i device') i device');
      [by eapply resent_tracks| |done].
    cbn. apply list_lookup_insert_eq. by eapply lookup_lt_Some.
  - rewrite (reassign_tracked d st w i device device') by done. eexists. split.
    + cbn. apply list_lookup_insert_eq. eapply lookup_lt_Some.
      by apply (request_tracked d st w i device).
    + done.
Qed.

(** * Witnesses *)

(** The second device of the example after the caller has given it
    another token. *)
Definition demo_moved : value :=
  VObj [("deviceType", VStr "android"); ("deviceToken", VBuffer [Byte.x00; Byte.x2a])].

Lemma reassign_deliver_witness :
  tracks (redirected demo_dispatch 1 demo_moved)
    (<[1 := next_state (w_globals demo_tracked) demo_moved VNull demo_answer]>
       [Waiting; Waiting])
    (deliver (0 + 1) VNull demo_answer (reassign (0 + 1) demo_moved demo_tracked))
  /\ exists rq,
       w_inflight (reassign (0 + 1) demo_moved demo_tracked) !! (0 + 1) = Some (Some rq)
       /\ rq_device rq = demo_moved
       /\ field (rq_params rq) "TargetArn" = field demo_android "deviceToken".
Proof.
  by apply (reassign_deliver demo_dispatch [Waiting; Waiting] demo_tracked 1 demo_android
              demo_moved VNull demo_answer demo_tracked_tracks).
Defined.

(** The message went to the token [ff]; the outcome names the token
    [002a]. *)
Example reassign_example :
  field (default VUndefined
           (rq_params <$> mjoin (w_inflight (reassign 1 demo_moved demo_tracked) !! 1)))
    "TargetArn" = VBuffer [Byte.xff]
  /\ aggregate (w_heap (deliver 0 VNull demo_answer
                         (deliver 1 VNull demo_answer (reassign 1 demo_moved demo_tracked)))) 0
     = Some (Resolved (VArr
         [successOutcome (VObj [("deviceType", VStr "ios"); ("deviceToken", VStr "01ab")])
            demo_answer;
          successOutcome (VObj [("deviceType", VStr "android"); ("deviceToken", VStr "002a")])
            demo_answer])).
Proof. split; reflexivity. Qed.
