(* ===== verification/Send.v ===== *)
(** * [SNS.prototype.send]

    [src/src/SNS.js] lines 114-122: [send] builds the bundle and the
    attributes once, calls [publishToSNS] for every device from left to
    right and joins the promises with [Parse.Promise.when].

    The first part computes the world [send] leaves and shows that it is
    tracked ([Delivery.tracks]) with every device waiting.  The theorems
    then follow a call of [send] through the callbacks the transport makes
    afterwards. *)

From stdpp Require Import base option list strings gmap.
From S2P Require Import Prelude JsValue Hex Json Promise World Config Payload Publish Delivery.

Section sending.
Context `{Collaborators}.

(** ** [send] (lines 114-122) *)

Definition send (this : sns_adapter) (data : value) (devices : list value) : io nat :=
  payload <~ generatePayload data ;;
  let messageAttributes := generateMessageAttributes data in
  promises <~ emapM (fun device => publishToSNS (sns this) device payload messageAttributes)
                devices ;;
  on_heap (promise_when promises).

End sending.

(** ** The fan-out *)

Section fan_out.
Context (sns : sns_client) (payload attributes : value).

(** The requests of a list of devices, the first promise being [p]. *)
Definition requests_of (p : nat) (devices : list value) : list (option request) :=
  imap (fun i device => Some (Request sns (paramsOf device payload attributes) device (p + i)))
    devices.

(** The world after [n] promises have been created and the requests of
    [devices] handed over. *)
Definition published (devices : list value) (w : world) : world :=
  set_inflight (w_inflight w ++ requests_of (length (cells (w_heap w))) devices)
    (set_heap (PHeap (cells (w_heap w) ++ replicate (length devices) (Cell Pending []))
                 (joins (w_heap w))) w).

Lemma published_nil w : published [] w = w.
Proof. unfold published. destruct w as [? ? ? [] ? ? ? ?]. simpl. by rewrite !app_nil_r. Qed.

Lemma requests_of_cons p device devices :
  requests_of p (device :: devices)
  = Some (Request sns (paramsOf device payload attributes) device p)
    :: requests_of (S p) devices.
Proof.
  unfold requests_of. simpl. rewrite Nat.add_0_r. f_equal.
  apply imap_ext. intros i d _. simpl. do 2 f_equal. lia.
Qed.

Lemma published_cons device devices w :
  published (device :: devices) w
  = published devices
      (set_inflight
         (w_inflight w
          ++ [Some (Request sns (paramsOf device payload attributes) device
                      (length (cells (w_heap w))))])
         (alloc w)).
Proof.
  unfold published, alloc. rewrite requests_of_cons.
  destruct w as [? ? ? [cs js] inflight ? ? ?]. simpl.
  rewrite length_app, <- !app_assoc. simpl. by rewrite Nat.add_1_r.
Qed.

Lemma requests_of_Some p devices : Forall is_Some (requests_of p devices).
Proof.
  apply Forall_lookup. intros i rq. unfold requests_of. rewrite list_lookup_imap.
  destruct (devices !! i); [|done]. intros [= <-]. by eexists.
Qed.

(** Every device that is not [null] or [undefined] gets its promise and
    its request, in the order of the array. *)
Lemma publish_all devices w :
  Forall (fun device => loose_neq_null device = true) devices ->
  emapM (fun device => publishToSNS sns device payload attributes) devices w
  = (Normal (seq (length (cells (w_heap w))) (length devices)), published devices w).
Proof.
  intros Hall. revert w. induction Hall as [|device devices Hd _ IH]; intros w.
  - by rewrite published_nil.
  - simpl. unfold ebind at 1. rewrite publishToSNS_run, Hd.
    unfold ebind at 1. rewrite IH, published_cons. simpl.
    rewrite length_app. simpl. by rewrite Nat.add_1_r.
Qed.

(** The first device that is [null] or [undefined] stops the loop with a
    TypeError: the devices before it have been published, its own promise
    has been created, and the devices after it are never attempted. *)
Lemma publish_all_null before device after w :
  Forall (fun device => loose_neq_null device = true) before ->
  loose_neq_null device = false ->
  emapM (fun device => publishToSNS sns device payload attributes)
    (before ++ device :: after) w
  = (Throw TypeError, alloc (published before w)).
Proof.
  intros Hall Hd. revert w. induction Hall as [|d0 before Hd0 _ IH]; intros w.
  - simpl. unfold ebind at 1. rewrite publishToSNS_run, Hd. by rewrite published_nil.
  - simpl. unfold ebind at 1. rewrite publishToSNS_run, Hd0.
    unfold ebind at 1. by rewrite IH, published_cons.
Qed.

End fan_out.

(** ** What [send] leaves behind *)

Section dispatching.
Context `{Collaborators}.

(** The dispatch [send] makes from a world: the next free promise, request
    and join are its own. *)
Definition dispatch_of (this : sns_adapter) (payload data : value) (devices : list value)
    (w : world) : dispatch :=
  Dispatch (sns this) payload (generateMessageAttributes data) devices
    (length (cells (w_heap w))) (length (w_inflight w)) (length (joins (w_heap w))).

(** The world after [send] has published to every device and joined the
    promises. *)
Definition sent (this : sns_adapter) (payload data : value) (devices : list value)
    (w : world) : world :=
  let d := dispatch_of this payload data devices w in
  let n := length devices in
  set_heap
    (PHeap (cells (w_heap w) ++ ((fun i => Cell Pending [Reaction (d_join d) i]) <$> seq 0 n))
       (joins (w_heap w) ++ [join_of (replicate n Waiting)]))
    (set_inflight (w_inflight w ++ requests_of (sns this) payload (d_attributes d)
                                     (d_promise d) devices) w).

Lemma send_run this data devices payload w w1 :
  generatePayload data w = (Normal payload, w1) ->
  w_heap w1 = w_heap w -> w_inflight w1 = w_inflight w ->
  Forall (fun device => loose_neq_null device = true) devices ->
  send this data devices w
  = (Normal (length (joins (w_heap w))), sent this payload data devices w1).
Proof.
  intros Hp Hheap Hin Hdev. unfold send, sent, dispatch_of.
  rewrite (ebind_Normal _ _ _ _ _ Hp), (ebind_Normal _ _ _ _ _ (publish_all _ _ _ _ _ Hdev)).
  unfold on_heap, published. cbn [w_heap set_heap set_inflight d_join d_promise d_attributes].
  rewrite Hheap, Hin. destruct (w_heap w) as [cs js]. cbn [cells joins].
  by rewrite promise_when_fresh, join_of_waiting.
Qed.

Lemma sent_tracks this payload data devices w :
  tracks (dispatch_of this payload data devices w) (replicate (length devices) Waiting)
    (sent this payload data devices w).
Proof.
  split_and!.
  - by rewrite length_replicate.
  - intros i device s Hdev [-> Hi]%lookup_replicate.
    change (devices !! i = Some device) in Hdev. split; cbn.
    + rewrite lookup_app_r, Nat.add_comm, Nat.add_sub by lia.
      unfold requests_of. by rewrite list_lookup_imap, Hdev.
    + rewrite lookup_app_r, Nat.add_comm, Nat.add_sub by lia.
      by rewrite list_lookup_fmap, lookup_seq_lt.
  - cbn. by rewrite lookup_app_r, Nat.sub_diag by lia.
Qed.

(** [send] puts one request per device in flight. *)
Lemma in_flight_sent this payload data devices w :
  in_flight (sent this payload data devices w) = in_flight w + length devices.
Proof.
  unfold in_flight. cbn. rewrite filter_app, length_app.
  rewrite (filter_Forall _ _ (requests_of_Some _ _ _ _ _)).
  unfold requests_of. by rewrite length_imap.
Qed.

(** [send] returns only where the bundle was built and no device is [null]
    or [undefined], and the world it leaves is the one of [sent]. *)
Lemma send_Normal this data devices w j w' :
  send this data devices w = (Normal j, w') ->
  exists payload seed,
    generatePayload data w = (Normal payload, set_seed seed w)
    /\ Forall (fun device => loose_neq_null device = true) devices
    /\ j = length (joins (w_heap w))
    /\ w' = sent this payload data devices (set_seed seed w).
Proof.
  intros Hsend. destruct (generatePayload data w) as [[payload|e] w1] eqn:Hp.
  2: { unfold send in Hsend. by rewrite (ebind_Throw _ _ _ _ _ Hp) in Hsend. }
  destruct (generatePayload_world _ _ _ _ Hp) as [seed ->].
  destruct (Forall_or_first loose_neq_null devices)
    as [Hall|(before & device & after & -> & Hbefore & Hdevice)].
  - rewrite (send_run _ _ _ _ _ _ Hp) in Hsend by done. simplify_eq. eauto 10.
  - unfold send in Hsend.
    by rewrite (ebind_Normal _ _ _ _ _ Hp),
      (ebind_Throw _ _ _ _ _ (publish_all_null _ _ _ _ _ _ _ Hbefore Hdevice)) in Hsend.
Qed.

(** Every request [send] has added is the request of one of its
    devices. *)
Lemma sent_request_inv this payload data devices w k rq :
  w_inflight (sent this payload data devices w) !! k = Some (Some rq) ->
  length (w_inflight w) <= k ->
  exists i device,
    k = length (w_inflight w) + i /\ devices !! i = Some device
    /\ rq = Request (sns this) (paramsOf device payload (generateMessageAttributes data))
              device (length (cells (w_heap w)) + i).
Proof.
  intros Hk Hle. cbn in Hk. rewrite lookup_app_r in Hk by done.
  unfold requests_of in Hk. rewrite list_lookup_imap in Hk.
  destruct (devices !! (k - length (w_inflight w))) as [device|] eqn:Hdev; [|done].
  exists (k - length (w_inflight w)), device. split_and!; [lia | done | by simplify_eq/=].
Qed.

(** [send] throws before it has published anything, having changed the
    seed at most, or on a device that is [null] or [undefined], having
    published the devices before it and made one more promise. *)
Lemma send_Throw this data devices w e w' :
  send this data devices w = (Throw e, w') ->
  (exists seed, w' = set_seed seed w)
  \/ exists payload seed before,
       w' = alloc (published (sns this) payload (generateMessageAttributes data) before
                     (set_seed seed w)).
Proof.
  intros Hsend. destruct (generatePayload data w) as [[payload|e0] w1] eqn:Hp;
    destruct (generatePayload_world _ _ _ _ Hp) as [seed ->].
  2: { left. exists seed. unfold send in Hsend.
       rewrite (ebind_Throw _ _ _ _ _ Hp) in Hsend. congruence. }
  destruct (Forall_or_first loose_neq_null devices)
    as [Hall|(before & device & after & -> & Hbefore & Hdevice)].
  - by rewrite (send_run _ _ _ _ _ _ Hp) in Hsend.
  - right. exists payload, seed, before. unfold send in Hsend.
    rewrite (ebind_Normal _ _ _ _ _ Hp),
      (ebind_Throw _ _ _ _ _ (publish_all_null _ _ _ _ _ _ _ Hbefore Hdevice)) in Hsend.
    congruence.
Qed.

End dispatching.

(** ** The world after [send] *)

(** Nothing is in flight. *)
Definition quiet (w : world) : Prop := Forall (fun rq => rq = None) (w_inflight w).

Lemma sent_sole this payload data devices w :
  quiet w -> sole (dispatch_of this payload data devices w) (sent this payload data devices w).
Proof.
  intros Hq k rq Hk. cbn in Hk |- *. apply lookup_app_Some in Hk as [Hk|[Hge Hk]].
  - by pose proof (Forall_lookup_1 _ _ _ _ Hq Hk).
  - apply lookup_lt_Some in Hk. unfold requests_of in Hk. rewrite length_imap in Hk. lia.
Qed.

(** * Theorems *)

(** ** A call that goes through *)

Section after_send.
Context `{Collaborators}.
Context (this : sns_adapter) (data : value) (devices : list value) (w : world).
Context (gcm apns : value).
Context (Hdata : loose_neq_null data = true).
Context (Hgcm : generateGCMPayload (field data "data") (VStr (randomString 10 (w_seed w)).1)
                  (VNum (w_clock w)) (field data "expirationTime") = Normal gcm).
Context (Hapns : generateNotification (field data "data") (field data "expirationTime")
                 = Normal apns).
Context (Hdevices : Forall (fun device => loose_neq_null device = true) devices).

Local Notation payload := (bundle gcm apns (field data "data")).
Local Notation w1 := (sent this payload data devices (set_seed (randomString 10 (w_seed w)).2 w)).
Local Notation d := (dispatch_of this payload data devices w).

Lemma send_sent : send this data devices w = (Normal (length (joins (w_heap w))), w1).
Proof.
  eapply send_run; [by rewrite generatePayload_run, Hgcm, Hapns by done|done..].
Qed.

Lemma send_tracks : tracks d (replicate (length devices) Waiting) w1.
Proof. apply (sent_tracks this payload data devices (set_seed _ w)). Qed.

Lemma send_run_inv : quiet w -> run_inv d (replicate (length devices) Waiting) w1.
Proof.
  intros Hq. eexists. split_and!; [apply send_tracks| |done].
  by apply (sent_sole this payload data devices (set_seed _ w)).
Qed.

(** C3: for an intent that is not [null] or [undefined], encoders that
    return and devices none of which is [null] or [undefined], [send]
    returns the aggregate promise of a new join, having built the bundle
    once, published one request per device in the order of the array, each
    with its own pending promise, and joined these promises: the dispatch
    is tracked with every device waiting, and nothing has been logged. *)
Theorem send_ok :
  send this data devices w = (Normal (length (joins (w_heap w))), w1)
  /\ tracks d (replicate (length devices) Waiting) w1
  /\ w_inflight w1
     = w_inflight w ++ requests_of (sns this) payload (generateMessageAttributes data)
                         (length (cells (w_heap w))) devices
  /\ w_log w1 = w_log w.
Proof. split_and!; [apply send_sent|apply send_tracks|done..]. Qed.

(** C1: when, after [send], the transport completes every request of the
    call once, in any order, and every callback resolves its promise, the
    promise [send] returned is resolved with one outcome per device, in
    the order of the devices and not in the order of the completions, the
    outcome of a device being the one its own callback computed. *)
Theorem send_completes evs :
  ev_request <$> evs ≡ₚ seq (length (w_inflight w)) (length devices) ->
  (forall ev device, ev ∈ evs ->
     devices !! (ev_request ev - length (w_inflight w)) = Some device ->
     is_done (next_state (w_globals w) device (ev_err ev) (ev_data ev)) = true) ->
  exists j outcomes,
    (send this data devices w).1 = Normal j
    /\ aggregate (w_heap (deliver_all evs (send this data devices w).2)) j
       = Some (Resolved (VArr outcomes))
    /\ length outcomes = length devices
    /\ forall ev device, ev ∈ evs ->
         devices !! (ev_request ev - length (w_inflight w)) = Some device ->
         Done <$> outcomes !! (ev_request ev - length (w_inflight w))
         = Some (next_state (w_globals w) device (ev_err ev) (ev_data ev)).
Proof.
  intros Hperm Hdone.
  destruct (tracks_completes d w1 evs send_tracks Hperm Hdone) as (outcomes & Hagg & Hrest).
  exists (length (joins (w_heap w))), outcomes. by rewrite send_sent.
Qed.

(** C2: when, at any time after [send], the transport reports an error for
    a device whose request is in flight and no global [arn] is defined,
    the callback throws before it resolves its promise: whatever the
    transport completes afterwards, the promise of that device stays
    pending and the promise [send] returned is never completed. *)
Theorem send_failure_never_completes i rq err response w0 w' :
  quiet w -> w_globals w !! "arn" = None ->
  rtc step (send this data devices w).2 w0 ->
  w_inflight w0 !! (length (w_inflight w) + i) = Some (Some rq) ->
  loose_neq_null err = true ->
  rtc step (deliver (length (w_inflight w) + i) err response w0) w' ->
  aggregate (w_heap w') (length (joins (w_heap w))) = Some Pending
  /\ cell_state (w_heap w') (length (cells (w_heap w)) + i) = Some Pending.
Proof.
  rewrite send_sent. intros Hq Harn Hrun0 Hk Herr Hrun.
  destruct (rtc_run_inv d _ _ _ (send_run_inv Hq) Hrun0) as (st & Ht & Hsole & _).
  destruct (sole_waiting d _ _ _ _ Ht Hsole Hk) as (i' & device & Hi' & Hdevice & Hi).
  assert (i' = i) as -> by (cbn in Hi'; lia).
  apply (tracks_failure_blocks d st w0 i device err response w' Ht Hsole Hdevice Hi Herr);
    [|done]. by rewrite (rtc_step_globals _ _ Hrun0).
Qed.

(** C4: at any time after [send], if the promise [send] returned is
    resolved, then it holds one outcome per device, no request is in
    flight any more, and the promise of each device is resolved with the
    outcome at its position: the aggregate never completes early. *)
Theorem send_no_early_resolution w' outcomes :
  quiet w ->
  rtc step (send this data devices w).2 w' ->
  aggregate (w_heap w') (length (joins (w_heap w))) = Some (Resolved (VArr outcomes)) ->
  length outcomes = length devices
  /\ quiet w'
  /\ forall i v, outcomes !! i = Some v ->
       cell_state (w_heap w') (length (cells (w_heap w)) + i) = Some (Resolved v).
Proof.
  rewrite send_sent. intros Hq Hrun Hagg.
  destruct (send_run_inv Hq) as (st & Ht & Hsole & _).
  apply (tracks_no_early_resolution d st w1 w' outcomes Ht Hsole Hrun Hagg).
Qed.

(** C23: [send] allocates one promise per device and one join and hands
    one request per device to the transport, and the callbacks allocate
    nothing: at any time after [send] the heap has exactly this size, the
    list of requests this length, and no more requests are in flight than
    there were before the call plus one per device. *)
Theorem send_allocates w' :
  rtc step (send this data devices w).2 w' ->
  length (cells (w_heap w')) = length (cells (w_heap w)) + length devices
  /\ length (joins (w_heap w')) = S (length (joins (w_heap w)))
  /\ length (w_inflight w') = length (w_inflight w) + length devices
  /\ in_flight w' <= in_flight w + length devices.
Proof.
  rewrite send_sent. cbn [snd]. intros (Hheap & Hlen & Hin)%rtc_step_sizes.
  rewrite in_flight_sent in Hin. injection Hheap as -> ->. rewrite Hlen. cbn.
  rewrite !length_app, length_fmap, length_seq. unfold requests_of.
  rewrite length_imap. cbn. split_and!; [done|lia|done..].
Qed.

(** With no device, [send] still builds the payload, publishes
    nothing and returns an aggregate promise that is already resolved with
    the empty array. *)
Theorem send_no_devices :
  devices = [] ->
  aggregate (w_heap (send this data devices w).2) (length (joins (w_heap w)))
  = Some (Resolved (VArr []))
  /\ w_inflight (send this data devices w).2 = w_inflight w.
Proof.
  intros Hnil. rewrite send_sent. pose proof send_tracks as Ht. rewrite Hnil in *.
  split; [apply (tracks_aggregate _ _ _ Ht)|]. cbn. by rewrite app_nil_r.
Qed.

End after_send.

(** ** A call that throws *)

Section send_throws.
Context `{Collaborators}.

(** An intent that is [null] or [undefined] makes [send] throw a
    TypeError before anything is published or allocated. *)
Theorem send_null_intent this data devices w :
  loose_neq_null data = false -> send this data devices w = (Throw TypeError, w).
Proof.
  intros Hdata. unfold send. apply ebind_Throw.
  unfold generatePayload. by rewrite get_null.
Qed.

(** C33: a device that is [null] or [undefined] makes [send] throw a
    TypeError in the middle of the fan-out: the devices before it have
    been published and stay in flight, the promise of the offending
    device has been allocated, the devices after it are never attempted
    and no aggregate promise is made. *)
Theorem send_null_device this data before device after w payload w1 :
  generatePayload data w = (Normal payload, w1) ->
  Forall (fun device => loose_neq_null device = true) before ->
  loose_neq_null device = false ->
  exists w',
    send this data (before ++ device :: after) w = (Throw TypeError, w')
    /\ w_inflight w'
       = w_inflight w1 ++ requests_of (sns this) payload (generateMessageAttributes data)
                            (length (cells (w_heap w1))) before
    /\ length (cells (w_heap w')) = length (cells (w_heap w1)) + S (length before)
    /\ joins (w_heap w') = joins (w_heap w1).
Proof.
  intros Hp Hbefore Hdevice. eexists. unfold send.
  rewrite (ebind_Normal _ _ _ _ _ Hp).
  rewrite (ebind_Throw _ _ _ _ _
             (publish_all_null _ _ _ _ _ _ _ Hbefore Hdevice)).
  split_and!; [done..| |done]. cbn. rewrite !length_app, length_replicate. cbn. lia.
Qed.

End send_throws.

(** ** The requests of an adapter *)

Section adapter.
Context `{Collaborators}.

(** C24: the requests of an adapter: whatever [send] adds to the requests
    in flight is a request of one of its devices, made on the client the
    constructor created, under the credentials given to the constructor
    whatever has been written to the shared configuration since; it is
    addressed to the token of the device, marked as structured, and
    carries the same attribute set whatever the intent: exactly the two
    WNS hints, the type [wns/raw] and the cache policy [cache]. *)
Theorem adapter_requests args w0 a w1 data devices w j w' k rq :
  SNS args w0 = (Normal a, w1) ->
  send a data devices w = (Normal j, w') ->
  length (w_inflight w) <= k -> w_inflight w' !! k = Some (Some rq) ->
  client_config (rq_client rq) = installed_config args
  /\ field (rq_params rq) "MessageStructure" = VStr "json"
  /\ field (rq_params rq) "MessageAttributes" = generateMessageAttributes VUndefined
  /\ (own_properties (field (rq_params rq) "MessageAttributes")).*1
     = ["AWS.SNS.MOBILE.WNS.Type"; "AWS.SNS.MOBILE.WNS.CachePolicy"]
  /\ field (field (field (rq_params rq) "MessageAttributes")
              "AWS.SNS.MOBILE.WNS.Type") "StringValue" = VStr "wns/raw"
  /\ field (field (field (rq_params rq) "MessageAttributes")
              "AWS.SNS.MOBILE.WNS.CachePolicy") "StringValue" = VStr "cache"
  /\ exists i device,
       k = length (w_inflight w) + i /\ devices !! i = Some device
       /\ rq_device rq = device
       /\ field (rq_params rq) "TargetArn" = field device "deviceToken".
Proof.
  intros [-> _]%SNS_Normal (payload & seed & _ & _ & _ & ->)%send_Normal Hle Hk.
  apply sent_request_inv in Hk as (i & device & -> & Hdev & ->); [|done].
  split_and!; [done..|]. by exists i, device.
Qed.
End adapter.

(** * Witnesses *)

Definition demo_devices : list value := [demo_ios; demo_android].

(** The world [send] leaves where a global [arn] is defined, and where none
    is. *)
Definition demo_sent_arn : world :=
  (send (H := demo_collaborators) demo_adapter demo_data demo_devices demo_world_arn).2.

Definition demo_sent : world :=
  (send (H := demo_collaborators) demo_adapter demo_data demo_devices demo_world).2.

(** The transport answers the second device first, with a message
    identifier, and fails the first. *)
Definition demo_events : list event :=
  [Event 1 VNull demo_answer; Event 0 demo_failure VNull].

Definition demo_done : world := deliver_all demo_events demo_sent_arn.

(** The outcomes of the example: the first device failed, the second was
    reached. *)
Definition demo_outcomes : list value :=
  [VObj [("device", demo_ios_entry); ("transmitted", VBool false);
         ("response", VStr "Error: EndpointDisabled")];
   VObj [("device", VObj [("deviceType", VStr "android"); ("deviceToken", VStr "ff")]);
         ("transmitted", VBool true); ("response", demo_answer)]].

(** The transport fails the second device, then answers the first. *)
Definition demo_failed : world := deliver 1 demo_failure VNull demo_sent.

Definition demo_failed_then_sent : world := deliver 0 VNull demo_answer demo_failed.

(** The arguments the adapter of the example was constructed with, and the
    request [send] makes for a device of the example. *)
Definition demo_args : value :=
  VObj [("accessKey", VStr "AKIA"); ("secretKey", VStr "secret")].

Definition demo_request (device : value) (promise : nat) : request :=
  Request (sns demo_adapter) (paramsOf device demo_bundle (generateMessageAttributes demo_data))
    device promise.

Lemma demo_devices_ok : Forall (fun device => loose_neq_null device = true) demo_devices.
Proof. by repeat constructor. Qed.

Lemma send_ok_witness :
  let w1 := sent demo_adapter demo_bundle demo_data demo_devices (set_seed 8 demo_world) in
  send (H := demo_collaborators) demo_adapter demo_data demo_devices demo_world
  = (Normal 0, w1)
  /\ tracks (dispatch_of demo_adapter demo_bundle demo_data demo_devices demo_world)
       [Waiting; Waiting] w1
  /\ w_inflight w1
     = requests_of (sns demo_adapter) demo_bundle (generateMessageAttributes demo_data) 0
         demo_devices
  /\ w_log w1 = [].
Proof.
  exact (send_ok (H := demo_collaborators) demo_adapter demo_data demo_devices demo_world
           demo_gcm_value demo_apns_value eq_refl eq_refl eq_refl demo_devices_ok).
Defined.

Lemma send_completes_witness :
  exists j outcomes,
    (send (H := demo_collaborators) demo_adapter demo_data demo_devices demo_world_arn).1
    = Normal j
    /\ aggregate (w_heap demo_done) j = Some (Resolved (VArr outcomes))
    /\ length outcomes = 2
    /\ forall ev device, ev ∈ demo_events ->
         demo_devices !! (ev_request ev - 0) = Some device ->
         Done <$> outcomes !! (ev_request ev - 0)
         = Some (next_state (w_globals demo_world_arn) device (ev_err ev) (ev_data ev)).
Proof.
  apply (send_completes (H := demo_collaborators) demo_adapter demo_data demo_devices
           demo_world_arn demo_gcm_value demo_apns_value eq_refl eq_refl eq_refl
           demo_devices_ok demo_events).
  - apply perm_swap.
  - intros ev device [->|[->|[]%elem_of_nil]%elem_of_cons]%elem_of_cons Hdevice;
      vm_compute in Hdevice; by simplify_eq.
Defined.

Lemma send_failure_never_completes_witness :
  aggregate (w_heap demo_failed_then_sent) 0 = Some Pending
  /\ cell_state (w_heap demo_failed_then_sent) (0 + 1) = Some Pending.
Proof.
  eapply (send_failure_never_completes (H := demo_collaborators) demo_adapter demo_data
            demo_devices demo_world demo_gcm_value demo_apns_value eq_refl eq_refl eq_refl
            demo_devices_ok 1 _ demo_failure VNull demo_sent demo_failed_then_sent);
    [by constructor|reflexivity|reflexivity|reflexivity|reflexivity|].
  apply rtc_once. by econstructor.
Defined.

Lemma demo_run : rtc step demo_sent_arn demo_done.
Proof. eapply rtc_l; [|apply rtc_once]; by econstructor. Qed.

Lemma send_no_early_resolution_witness :
  length demo_outcomes = 2
  /\ quiet demo_done
  /\ forall i v, demo_outcomes !! i = Some v ->
       cell_state (w_heap demo_done) (0 + i) = Some (Resolved v).
Proof.
  apply (send_no_early_resolution (H := demo_collaborators) demo_adapter demo_data
           demo_devices demo_world_arn demo_gcm_value demo_apns_value eq_refl eq_refl
           eq_refl demo_devices_ok demo_done demo_outcomes);
    [by constructor|apply demo_run|reflexivity].
Defined.

Lemma send_allocates_witness :
  length (cells (w_heap demo_done)) = 0 + 2
  /\ length (joins (w_heap demo_done)) = 1
  /\ length (w_inflight demo_done) = 0 + 2
  /\ in_flight demo_done <= 0 + 2.
Proof.
  apply (send_allocates (H := demo_collaborators) demo_adapter demo_data demo_devices
           demo_world_arn demo_gcm_value demo_apns_value eq_refl eq_refl eq_refl
           demo_devices_ok demo_done demo_run).
Defined.

Lemma send_no_devices_witness :
  aggregate (w_heap (send (H := demo_collaborators) demo_adapter demo_data [] demo_world).2) 0
  = Some (Resolved (VArr []))
  /\ w_inflight (send (H := demo_collaborators) demo_adapter demo_data [] demo_world).2 = [].
Proof.
  by apply (send_no_devices (H := demo_collaborators) demo_adapter demo_data [] demo_world
              demo_gcm_value demo_apns_value eq_refl eq_refl eq_refl (Forall_nil_2 _)).
Defined.

Lemma send_null_intent_witness :
  send (H := demo_collaborators) demo_adapter VNull demo_devices demo_world
  = (Throw TypeError, demo_world).
Proof. by apply (send_null_intent (H := demo_collaborators)). Defined.

Lemma send_null_device_witness :
  exists w',
    send (H := demo_collaborators) demo_adapter demo_data [demo_ios; VNull; demo_android]
      demo_world = (Throw TypeError, w')
    /\ w_inflight w'
       = requests_of (sns demo_adapter) demo_bundle (generateMessageAttributes demo_data)
           0 [demo_ios]
    /\ length (cells (w_heap w')) = 2
    /\ joins (w_heap w') = [].
Proof.
  apply (send_null_device (H := demo_collaborators) demo_adapter demo_data [demo_ios] VNull
           [demo_android] demo_world demo_bundle (set_seed 8 demo_world));
    [reflexivity|by repeat constructor|reflexivity].
Defined.

(** The example of the specification, run from end to end where a
    global [arn] is defined: [send] returns the aggregate promise, the
    transport answers the second device and fails the first, and the
    aggregate is resolved with the failed outcome of the first device and
    the successful outcome of the second, in this order; both callbacks
    have logged. *)
Example send_example_arn_bound :
  (send (H := demo_collaborators) demo_adapter demo_data demo_devices demo_world_arn).1
  = Normal 0
  /\ aggregate (w_heap demo_done) 0 = Some (Resolved (VArr demo_outcomes))
  /\ w_uncaught demo_done = []
  /\ length (w_log demo_done) = 3.
Proof. by vm_compute. Qed.

(** The same example where no global [arn] is defined, as in the
    module as it is shipped: the callback of the failed device throws a
    ReferenceError, its promise stays pending, the second device's
    promise is resolved, nothing is in flight and the aggregate promise
    stays pending. *)
Example send_example_arn_unbound :
  let w' := deliver_all demo_events demo_sent in
  w_uncaught w' = [ReferenceError "arn"]
  /\ cell_state (w_heap w') 0 = Some Pending
  /\ cell_state (w_heap w') 1 = (Resolved <$> demo_outcomes !! 1)
  /\ aggregate (w_heap w') 0 = Some Pending
  /\ in_flight w' = 0.
Proof. by vm_compute. Qed.

Lemma adapter_requests_witness :
  client_config (rq_client (demo_request demo_android 1)) = installed_config demo_args
  /\ field (rq_params (demo_request demo_android 1)) "MessageStructure" = VStr "json"
  /\ field (rq_params (demo_request demo_android 1)) "MessageAttributes"
     = generateMessageAttributes VUndefined
  /\ (own_properties (field (rq_params (demo_request demo_android 1)) "MessageAttributes")).*1
     = ["AWS.SNS.MOBILE.WNS.Type"; "AWS.SNS.MOBILE.WNS.CachePolicy"]
  /\ field (field (field (rq_params (demo_request demo_android 1)) "MessageAttributes")
              "AWS.SNS.MOBILE.WNS.Type") "StringValue" = VStr "wns/raw"
  /\ field (field (field (rq_params (demo_request demo_android 1)) "MessageAttributes")
              "AWS.SNS.MOBILE.WNS.CachePolicy") "StringValue" = VStr "cache"
  /\ exists i device,
       1 = length (w_inflight demo_world) + i /\ demo_devices !! i = Some device
       /\ rq_device (demo_request demo_android 1) = device
       /\ field (rq_params (demo_request demo_android 1)) "TargetArn"
          = field device "deviceToken".
Proof.
  apply (adapter_requests (H := demo_collaborators) demo_args demo_world demo_adapter
           (set_config (installed_config demo_args) demo_world) demo_data demo_devices
           demo_world 0 demo_sent 1); [reflexivity | reflexivity | cbn; lia | reflexivity].
Defined.
