(* ===== verification/Receiver.v ===== *)
(** * The receiver and the arguments of [send]

    [SNS.prototype.send] is a function: what [this] is inside it is decided
    by the call.  Called as a method of an adapter, [this] is the adapter;
    called detached from it ([const send = adapter.send; send(data,
    devices)]) [this] is [undefined], the module being strict; [call] and
    [apply] pass any value.  The function reads [this.sns] in the callback
    of [devices.map] (line 119), so the receiver matters at the first
    device and not before.

    This file models [send] for every receiver and every pair of
    arguments: [this_sns] is the read of line 119, [publishToSNS_on] is
    [publishToSNS] for an [sns] that may have no [publish], [send_from] is
    the body of [send], and [send_call] the call on a second argument of
    any kind.  On an adapter and an array they are [Send.send]. *)

From stdpp Require Import base option list strings gmap.
From S2P Require Import Prelude JsValue Promise World Config Payload Publish Send.

(** ** The receiver *)

(** What [this] is bound to: an object the constructor initialised, or a
    value of the model, none of which holds a client. *)
Inductive receiver : Type :=
| RAdapter (a : sns_adapter)
| RValue (v : value).

#[export] Instance receiver_eq_dec : EqDecision receiver.
Proof. solve_decision. Defined.

(** The receiver of a call without one. *)
Definition detached : receiver := RValue this_of_call.

(** [this.sns] (line 119): the client of an adapter; on a value of the
    model the read throws on [undefined] and [null] and gives something
    that has no [publish] otherwise. *)
Definition this_sns (this : receiver) : js (option sns_client) :=
  match this with
  | RAdapter a => Normal (Some (sns a))
  | RValue v => _ <- get v "sns" ;; Normal None
  end.

(** ** [publishToSNS] on any first argument (lines 67-105) *)

(** The promise is created and the parameters are built before
    [sns.publish] is looked up (line 77). *)
Definition publishToSNS_on (sns : option sns_client)
    (device payload messageAttributes : value) : io nat :=
  promise <~ on_heap promise_new ;;
  params <~ elift (publishParams device payload messageAttributes) ;;
  match sns with
  | Some client => run sns_publish client params device promise ;; eret promise
  | None => ethrow TypeError
  end.

Section receiving.
Context `{Collaborators}.

(** ** [send] on any receiver (lines 114-122) *)

Definition send_from (this : receiver) (data : value) (devices : list value) : io nat :=
  payload <~ generatePayload data ;;
  let messageAttributes := generateMessageAttributes data in
  promises <~ emapM (fun device =>
                       sns <~ elift (this_sns this) ;;
                       publishToSNS_on sns device payload messageAttributes)
                devices ;;
  on_heap (promise_when promises).

(** [send] on any second argument: [devices.map] of line 118 is looked up
    after the payload and the attributes have been built.  An array has
    that method.  A Buffer has one too, being a typed array: it calls the
    function on the bytes and keeps numbers instead of the promises; that
    call is outside the model ([None]).  No other value of the model has a
    [map] that can be called. *)
Definition send_call (this : receiver) (data devices : value) : option (io nat) :=
  match devices with
  | VArr devices => Some (send_from this data devices)
  | VBuffer _ => None
  | _ => Some (run generatePayload data ;; ethrow TypeError)
  end.

(** * Lemmas *)

Lemma publishToSNS_on_client client device payload messageAttributes w :
  publishToSNS_on (Some client) device payload messageAttributes w
  = publishToSNS client device payload messageAttributes w.
Proof. reflexivity. Qed.

(** Without a client the promise of the device is created and nothing is
    handed to the transport. *)
Lemma publishToSNS_on_None device payload messageAttributes w :
  publishToSNS_on None device payload messageAttributes w = (Throw TypeError, alloc w).
Proof.
  unfold publishToSNS_on.
  rewrite ebind_on_heap, promise_new_spec, ebind_elift, publishParams_spec.
  by destruct (loose_neq_null device).
Qed.

(** The callback of [devices.map] for a receiver that is not an adapter. *)
Lemma fan_out_value v device payload messageAttributes w :
  (sns <~ elift (this_sns (RValue v)) ;;
   publishToSNS_on sns device payload messageAttributes) w
  = (Throw TypeError, if loose_neq_null v then alloc w else w).
Proof.
  rewrite ebind_elift. cbn [this_sns]. destruct (loose_neq_null v) eqn:Hv.
  - rewrite get_field by done. apply publishToSNS_on_None.
  - by rewrite get_null.
Qed.

(** * Theorems *)

(** On an adapter [send_from] is [send]: every theorem of [Send] is a
    theorem of the method call. *)
Lemma send_from_adapter a data devices w :
  send_from (RAdapter a) data devices w = send a data devices w.
Proof.
  unfold send_from, send. apply ebind_ext; [done|]. intros payload w1.
  apply ebind_ext; [|done]. apply emapM_ext. intros device w2.
  by rewrite ebind_elift.
Qed.

(** C34: a call of [send] whose receiver is not an adapter throws a
    TypeError at the first device, after the payload has been built and
    the entropy of the identifier consumed: before anything is allocated
    when the receiver is [undefined] or [null], as in a call detached from
    its object, and after the promise of the first device has been created
    otherwise.  Nothing is handed to the transport and no device after the
    first is attempted. *)
Theorem send_from_value v data device rest w payload w1 :
  generatePayload data w = (Normal payload, w1) ->
  send_from (RValue v) data (device :: rest) w
  = (Throw TypeError, if loose_neq_null v then alloc w1 else w1)
  /\ w_inflight (send_from (RValue v) data (device :: rest) w).2 = w_inflight w.
Proof.
  intros Hp.
  assert (send_from (RValue v) data (device :: rest) w
          = (Throw TypeError, if loose_neq_null v then alloc w1 else w1)) as ->.
  { unfold send_from. rewrite (ebind_Normal _ _ _ _ _ Hp). cbn [emapM].
    by rewrite (ebind_Throw _ _ _ _ _ (ebind_Throw _ _ _ _ _ (fan_out_value _ _ _ _ _))). }
  split; [done|]. destruct (generatePayload_world _ _ _ _ Hp) as [seed ->].
  by destruct (loose_neq_null v).
Qed.

(** With no device the receiver is never read: the call returns the
    resolved aggregate that [send] returns. *)
Lemma send_from_no_devices this a data w :
  send_from this data [] w = send a data [] w.
Proof. reflexivity. Qed.

(** C36: a second argument that is neither an array nor a Buffer makes
    [send] throw after the payload has been built, whatever the receiver:
    the exception is that of the builder, or else the TypeError of calling
    a [map] that is not there; the entropy of the identifier is consumed,
    and nothing is allocated, published or logged. *)
Theorem send_call_not_array this data devices w :
  (forall ds, devices <> VArr ds) -> (forall bs, devices <> VBuffer bs) ->
  exists c e seed,
    send_call this data devices = Some c
    /\ c w = (Throw e, set_seed seed w)
    /\ (generatePayload data w = (Throw e, set_seed seed w)
        \/ e = TypeError /\ exists payload,
             generatePayload data w = (Normal payload, set_seed seed w)).
Proof.
  intros Harr Hbuf. exists (run generatePayload data ;; ethrow TypeError).
  destruct (generatePayload data w) as [[payload|e] w1] eqn:Hp;
    destruct (generatePayload_world _ _ _ _ Hp) as [seed ->].
  - exists TypeError, seed. rewrite (ebind_Normal _ _ _ _ _ Hp).
    split; [|eauto]. destruct devices; naive_solver.
  - exists e, seed. rewrite (ebind_Throw _ _ _ _ _ Hp).
    split; [|eauto]. destruct devices; naive_solver.
Qed.

End receiving.

(** * Witnesses *)

Lemma send_from_value_witness :
  send_from (H := demo_collaborators) detached demo_data demo_devices demo_world
  = (Throw TypeError, set_seed 8 demo_world)
  /\ w_inflight (send_from (H := demo_collaborators) detached demo_data demo_devices
                   demo_world).2 = w_inflight demo_world.
Proof.
  by apply (send_from_value (H := demo_collaborators) this_of_call demo_data demo_ios
              [demo_android] demo_world demo_bundle (set_seed 8 demo_world)).
Defined.

Lemma send_call_not_array_witness :
  exists c e seed,
    send_call (H := demo_collaborators) detached demo_data (VStr "ios") = Some c
    /\ c demo_world = (Throw e, set_seed seed demo_world)
    /\ (generatePayload (H := demo_collaborators) demo_data demo_world
        = (Throw e, set_seed seed demo_world)
        \/ e = TypeError /\ exists payload,
             generatePayload (H := demo_collaborators) demo_data demo_world
             = (Normal payload, set_seed seed demo_world)).
Proof.
  by apply (send_call_not_array (H := demo_collaborators) detached demo_data (VStr "ios")
              demo_world).
Defined.

(** A receiver that is an object without a client: the promise of the
    first device is left pending, and nothing is in flight. *)
Example send_from_object :
  send_from (H := demo_collaborators) (RValue (VObj [])) demo_data demo_devices demo_world
  = (Throw TypeError, alloc (set_seed 8 demo_world)).
Proof. reflexivity. Qed.
