(* ===== verification/Concurrent.v ===== *)
(** * Several calls of [send] on one heap

    An adapter is used for many pushes, and a second call of [send] can
    start while requests of the first are in flight: the promises, the
    joins and the requests of all calls live in the same [world].  A
    [call] is a dispatch with the states of its devices; [tracked_all]
    says that every call of a list is tracked ([Delivery.tracks]), that
    any two use different promises, requests and joins ([apart]), and that
    every request in flight belongs to one of them or to none.

    [move] is one move of the application or of the transport: a call of
    [send], which returns or throws, or the completion of a request in
    flight.  A call that throws on a device that is [null] leaves the
    requests of the devices before it in flight; they belong to no call
    ([orphaned]) and their promises have no callback.  The lemmas show that
    [send] adds its call to the list, or orphans, and leaves the others as
    they are, and that a callback is a step of one call or of none.  The
    theorems follow one call of [send] through any moves made before and
    after it: what its promise holds is decided by its own devices, its
    join stays within its bounds, and a failure blocks the call it belongs
    to and no other. *)

From stdpp Require Import base option list strings gmap.
From S2P Require Import Prelude JsValue Hex Json Promise World Config Payload Publish Delivery.
From S2P Require Import Order Send.

(** ** Calls that do not share anything *)

(** Two dispatches use different joins, and different promises and
    requests for each of their devices. *)
Definition apart (d1 d2 : dispatch) : Prop :=
  d_join d1 <> d_join d2
  /\ forall i j, i < length (d_devices d1) -> j < length (d_devices d2) ->
       d_promise d1 + i <> d_promise d2 + j /\ d_request d1 + i <> d_request d2 + j.

#[export] Instance apart_symmetric : Symmetric apart.
Proof.
  intros d1 d2 [Hj Hr]. split; [done|]. intros i j Hi Hj'.
  destruct (Hr j i Hj' Hi). split; congruence.
Qed.

(** A call: what [send] set up and what has happened to its devices. *)
Definition call : Type := dispatch * list dstate.

(** A request and a promise that are none of a dispatch. *)
Definition outside (d : dispatch) (k p : nat) : Prop :=
  ~ d_request d <= k < d_request d + length (d_devices d)
  /\ ~ d_promise d <= p < d_promise d + length (d_devices d).

(** A request that belongs to no call: a call of [send] that threw on a
    later device had published it.  Its promise has no callback. *)
Definition orphaned (cs : list call) (w : world) (k : nat) (rq : request) : Prop :=
  (exists s, cells (w_heap w) !! rq_promise rq = Some (Cell s []))
  /\ forall n c, cs !! n = Some c -> outside c.1 k (rq_promise rq).

Record tracked_all (cs : list call) (w : world) : Prop := TrackedAll {
  all_tracks : forall n d st, cs !! n = Some (d, st) -> tracks d st w;
  all_apart : forall n m c1 c2,
    n <> m -> cs !! n = Some c1 -> cs !! m = Some c2 -> apart c1.1 c2.1;
  all_owned : forall k rq, w_inflight w !! k = Some (Some rq) ->
    (exists n d st, cs !! n = Some (d, st)
                    /\ d_request d <= k < d_request d + length (d_devices d))
    \/ orphaned cs w k rq
}.

(** What a tracked dispatch occupies lies within the heap and the list of
    requests. *)
Lemma tracks_within d st w i :
  tracks d st w -> i < length (d_devices d) ->
  d_promise d + i < length (cells (w_heap w)) /\ d_request d + i < length (w_inflight w).
Proof.
  intros (Hlen & Hdev & _) Hi.
  destruct (lookup_lt_is_Some_2 (d_devices d) i) as [device Hdevice]; [done|].
  destruct (lookup_lt_is_Some_2 st i) as [s Hs]; [lia|].
  destruct (Hdev _ _ _ Hdevice Hs) as [Hk Hp]. split; by eapply lookup_lt_Some.
Qed.

Lemma tracks_join_within d st w : tracks d st w -> d_join d < length (joins (w_heap w)).
Proof. intros (_ & _ & Hjoin). by eapply lookup_lt_Some. Qed.

(** What is allocated later is outside a tracked dispatch. *)
Lemma tracks_outside d st w k p :
  tracks d st w -> length (w_inflight w) <= k -> length (cells (w_heap w)) <= p ->
  outside d k p.
Proof.
  intros Ht Hk Hp. split; intros Hrange.
  - destruct (tracks_within _ _ _ (k - d_request d) Ht); lia.
  - destruct (tracks_within _ _ _ (p - d_promise d) Ht); lia.
Qed.

(** A world that agrees with a tracked one on what the dispatch holds. *)
Lemma tracks_frame d st w w' :
  tracks d st w ->
  (forall i, i < length (d_devices d) ->
     w_inflight w' !! (d_request d + i) = w_inflight w !! (d_request d + i)
     /\ cells (w_heap w') !! (d_promise d + i) = cells (w_heap w) !! (d_promise d + i)) ->
  joins (w_heap w') !! d_join d = joins (w_heap w) !! d_join d ->
  tracks d st w'.
Proof.
  intros (Hlen & Hdev & Hjoin) Hsame Hj. split_and!; [done| |by rewrite Hj].
  intros i device s Hdevice Hs. destruct (Hdev _ _ _ Hdevice Hs) as [Hk Hp].
  destruct (Hsame i) as [Hk' Hp']; [by eapply lookup_lt_Some|].
  split; congruence.
Qed.

(** The callback of a request that belongs to no call changes the cell of
    its promise at most. *)
Lemma deliver_orphan k err data w rq s :
  w_inflight w !! k = Some (Some rq) ->
  cells (w_heap w) !! rq_promise rq = Some (Cell s []) ->
  joins (w_heap (deliver k err data w)) = joins (w_heap w)
  /\ exists s', cells (w_heap (deliver k err data w))
                = <[rq_promise rq := Cell s' []]> (cells (w_heap w)).
Proof.
  intros Hk Hp. rewrite deliver_unfold, Hk. cbn zeta.
  destruct (callback_plan _ _ _ _) as [e|[entries outcome]].
  - split; [done|]. exists s. cbn. by rewrite (list_insert_id _ _ _ Hp).
  - destruct (promise_resolve _ _ _) as [[] h] eqn:Hr;
      by destruct (promise_resolve_orphan _ _ _ _ _ _ Hp Hr).
Qed.

(** ** A callback of one call leaves the other calls alone *)

Lemma deliver_tracks_apart d1 st1 d2 st2 w i device err data :
  tracks d1 st1 w -> tracks d2 st2 w -> apart d1 d2 ->
  d_devices d2 !! i = Some device -> st2 !! i = Some Waiting ->
  tracks d1 st1 (deliver (d_request d2 + i) err data w).
Proof.
  intros Ht1 Ht2 [Hjoin Hapart] Hdevice Hi.
  rewrite (deliver_tracked d2 st2 w i device Ht2 Hdevice Hi). cbn zeta.
  destruct Ht1 as (Hlen & Hdev & Hj). split_and!; [done| |].
  - intros i' device' s Hdevice' Hs. destruct (Hdev _ _ _ Hdevice' Hs) as [Hk Hp].
    destruct (Hapart i' i) as [Hp' Hk']; [by eapply lookup_lt_Some..|].
    split; cbn; by rewrite list_lookup_insert_ne.
  - cbn. by rewrite list_lookup_insert_ne.
Qed.

(** The calls of a list after one of them has changed its state. *)
Lemma lookup_insert_call (cs : list call) n d st st' m c :
  cs !! n = Some (d, st) -> <[n := (d, st')]> cs !! m = Some c ->
  exists c0, cs !! m = Some c0 /\ c0.1 = c.1 /\ (m <> n -> c0 = c) /\ (m = n -> c = (d, st')).
Proof.
  intros Hn [(-> & <- & _)|[Hne Hm]]%list_lookup_insert_Some.
  - exists (d, st). by split_and!.
  - exists c. split_and!; [done..|]. by intros ->.
Qed.

(** The callback of a waiting device of one call moves that call and
    leaves the others as they are. *)
Lemma tracked_all_deliver cs w n d st i device err data :
  tracked_all cs w -> cs !! n = Some (d, st) ->
  d_devices d !! i = Some device -> st !! i = Some Waiting ->
  tracked_all (<[n := (d, <[i := next_state (w_globals w) device err data]> st)]> cs)
    (deliver (d_request d + i) err data w).
Proof.
  intros [Htracks Hapart Howned] Hn Hdevice Hi. split.
  - intros m d' st' Hm.
    destruct (lookup_insert_call _ _ _ _ _ _ _ Hn Hm) as ([d0 st0] & Hm0 & Hd & Hother & Hsame).
    destruct (decide (m = n)) as [->|Hne].
    + specialize (Hsame eq_refl). simplify_eq. apply deliver_tracks; eauto.
    + specialize (Hother Hne). simplify_eq.
      eapply deliver_tracks_apart; eauto. eapply (Hapart m n (_, _) (_, _)); eauto.
  - intros m1 m2 c1 c2 Hne H1 H2.
    destruct (lookup_insert_call _ _ _ _ _ _ _ Hn H1) as (c1' & H1' & <- & _).
    destruct (lookup_insert_call _ _ _ _ _ _ _ Hn H2) as (c2' & H2' & <- & _). eauto.
  - intros k' rq' Hk'. rewrite deliver_inflight in Hk'.
    apply list_lookup_insert_Some in Hk' as [(_ & ? & _)|[_ Hk']]; [done|].
    destruct (Howned _ _ Hk') as [(m & d' & st' & Hm & Hrange')|[[s Hcell] Hout]].
    + left. destruct (decide (m = n)) as [->|Hne].
      * simplify_eq. eexists n, d, _. split; [|done].
        apply list_lookup_insert_eq. by eapply lookup_lt_Some.
      * exists m, d', st'. by rewrite list_lookup_insert_ne.
    + right. destruct (Hout _ _ Hn) as [_ Hp]. split.
      * exists s. rewrite (deliver_tracked d st w i device (Htracks _ _ _ Hn) Hdevice Hi).
        apply lookup_lt_Some in Hdevice. cbn in Hp |- *.
        rewrite list_lookup_insert_ne; [done|lia].
      * intros m c Hm. destruct (lookup_insert_call _ _ _ _ _ _ _ Hn Hm) as (c0 & ? & <- & _).
        eauto.
Qed.

(** The callback of a request that belongs to no call leaves every call as
    it is. *)
Lemma tracked_all_orphan cs w k rq err data :
  tracked_all cs w -> w_inflight w !! k = Some (Some rq) -> orphaned cs w k rq ->
  tracked_all cs (deliver k err data w).
Proof.
  intros [Htracks Hapart Howned] Hk [[s Hcell] Hout].
  destruct (deliver_orphan k err data w rq s Hk Hcell) as (Hjoins & s' & Hcells).
  split; [|done|].
  - intros n d st Hn. eapply tracks_frame; [by eapply Htracks| |by rewrite Hjoins].
    intros i Hi. destruct (Hout _ _ Hn) as [Hrq Hp]. cbn in Hrq, Hp.
    rewrite deliver_inflight, Hcells. split; rewrite list_lookup_insert_ne; (done || lia).
  - intros k' rq' Hk'. rewrite deliver_inflight in Hk'.
    apply list_lookup_insert_Some in Hk' as [(_ & ? & _)|[_ Hk']]; [done|].
    destruct (Howned _ _ Hk') as [?|[[s0 Hcell0] Hout0]]; [by left|right].
    split; [|done]. rewrite Hcells.
    destruct (decide (rq_promise rq' = rq_promise rq)) as [->|Hne].
    + rewrite list_lookup_insert_eq by (by eapply lookup_lt_Some). eauto.
    + rewrite list_lookup_insert_ne by done. eauto.
Qed.

(** The steps of one call, seen from the list of calls. *)
Definition call_advances (g : gmap string value) (c c' : call) : Prop :=
  c.1 = c'.1 /\ rtc (abstract_step c.1 g) c.2 c'.2.

#[export] Instance call_advances_preorder g : PreOrder (call_advances g).
Proof.
  split; [by split|]. intros c1 c2 c3 [Hd Hrun] [Hd' Hrun']. split; [congruence|].
  rewrite <- Hd in Hrun'. by etrans.
Qed.

(** The calls after more moves: the calls there were, each advanced by
    callbacks of its own, followed by the calls made since. *)
Definition calls_extend (g : gmap string value) (cs cs' : list call) : Prop :=
  exists cs1 ext, cs' = cs1 ++ ext /\ Forall2 (call_advances g) cs cs1.

#[export] Instance calls_extend_preorder g : PreOrder (calls_extend g).
Proof.
  split.
  - intros cs. exists cs, []. by rewrite app_nil_r.
  - intros cs1 cs2 cs3 (k1 & e1 & -> & H1) (k2 & e2 & -> & H2).
    apply Forall2_app_inv_l in H2 as (k21 & k22 & Hk1 & Hk2 & ->).
    exists k21, (k22 ++ e2). split; [by rewrite app_assoc|by etrans].
Qed.

Lemma calls_extend_lookup g cs cs' n d st :
  calls_extend g cs cs' -> cs !! n = Some (d, st) ->
  exists st', cs' !! n = Some (d, st') /\ rtc (abstract_step d g) st st'.
Proof.
  intros (cs1 & ext & -> & Hall) Hn.
  destruct (Forall2_lookup_l _ _ _ _ _ Hall Hn) as ([d' st'] & Hn' & Hd & Hrun).
  cbn in Hd, Hrun. subst d'. exists st'. split; [by apply lookup_app_l_Some|done].
Qed.

Lemma calls_extend_insert g cs n d st st' :
  cs !! n = Some (d, st) -> abstract_step d g st st' ->
  calls_extend g cs (<[n := (d, st')]> cs).
Proof.
  intros Hn Hstep. exists (<[n := (d, st')]> cs), []. split; [by rewrite app_nil_r|].
  rewrite <- (list_insert_id cs n (d, st)) at 1 by done.
  apply Forall2_insert; [done|]. split; [done|]. by apply rtc_once.
Qed.

(** Every callback is a step of one call, or of none. *)
Lemma tracked_all_step cs w w' :
  tracked_all cs w -> step w w' ->
  exists cs', tracked_all cs' w' /\ calls_extend (w_globals w) cs cs'.
Proof.
  intros Hall Hstep. inversion Hstep as [k err data w0 rq Hk]; subst.
  destruct (all_owned _ _ Hall _ _ Hk) as [(n & d & st & Hn & Hrange)|Horphan].
  - destruct (tracks_waiting d st w k rq (all_tracks _ _ Hall _ _ _ Hn) Hrange Hk)
      as (i & device & -> & Hdevice & Hi).
    exists (<[n := (d, <[i := next_state (w_globals w) device err data]> st)]> cs).
    split; [by apply tracked_all_deliver|]. eapply calls_extend_insert; [done|].
    by constructor.
  - exists cs. split; [by eapply tracked_all_orphan|done].
Qed.

(** A device that is no longer waiting stays as it is. *)
Lemma abstract_run_settled d g st st' i s :
  rtc (abstract_step d g) st st' -> st !! i = Some s -> s <> Waiting -> st' !! i = Some s.
Proof.
  intros Hrun Hi Hs. induction Hrun as [|st0 st1 st2 Hstep _ IH]; [done|]. apply IH.
  inversion Hstep as [st3 i0 device err data Hdevice Hi0]; subst.
  rewrite list_lookup_insert_ne; [done|]. intros ->. congruence.
Qed.

(** ** [send] beside the calls in progress *)

(** A world that has grown: what was allocated is where it was. *)
Lemma tracks_extend d st w w' :
  tracks d st w ->
  w_inflight w `prefix_of` w_inflight w' ->
  cells (w_heap w) `prefix_of` cells (w_heap w') ->
  joins (w_heap w) `prefix_of` joins (w_heap w') ->
  tracks d st w'.
Proof.
  intros (Hlen & Hdev & Hjoin) Hi Hc Hj. split_and!; [done| |by eapply prefix_lookup_Some].
  intros i device s Hdevice Hs. destruct (Hdev _ _ _ Hdevice Hs).
  split; by eapply prefix_lookup_Some.
Qed.

(** What [send] allocates is apart from what the calls before it hold. *)
Lemma tracks_apart_dispatch_of d st w this payload data devices :
  tracks d st w -> apart d (dispatch_of this payload data devices w).
Proof.
  intros Ht. pose proof (tracks_join_within _ _ _ Ht). split; [cbn; lia|].
  intros i j Hi _. destruct (tracks_within _ _ _ i Ht Hi). cbn. lia.
Qed.

Lemma tracked_all_nil w : quiet w -> tracked_all [] w.
Proof.
  intros Hq. split; [done..|]. intros k rq Hk.
  by pose proof (Forall_lookup_1 _ _ _ _ Hq Hk).
Qed.

Lemma tracked_all_seed cs seed w : tracked_all cs w -> tracked_all cs (set_seed seed w).
Proof. by intros [? ? ?]. Qed.

(** A request that belongs to no call still does so after the heap and the
    list of calls have grown at their ends. *)
Lemma orphaned_extend cs cs' w w' k rq :
  orphaned cs w k rq -> w_inflight w !! k = Some (Some rq) ->
  cells (w_heap w) `prefix_of` cells (w_heap w') ->
  (forall n c, (cs ++ cs') !! n = Some c -> length cs <= n ->
     length (w_inflight w) <= d_request c.1 /\ length (cells (w_heap w)) <= d_promise c.1) ->
  orphaned (cs ++ cs') w' k rq.
Proof.
  intros [[s Hcell] Hout] Hk Hcells Hnew. split; [exists s; by eapply prefix_lookup_Some|].
  intros n c Hn. destruct (decide (n < length cs)) as [Hlt|Hge].
  - rewrite lookup_app_l in Hn by done. eauto.
  - destruct (Hnew n c Hn) as [Hrq Hp]; [lia|].
    apply lookup_lt_Some in Hk, Hcell. split; lia.
Qed.

Lemma tracked_all_sent cs this payload data devices w :
  tracked_all cs w ->
  tracked_all
    (cs ++ [(dispatch_of this payload data devices w, replicate (length devices) Waiting)])
    (sent this payload data devices w).
Proof.
  intros [Htracks Hapart Howned]. split.
  - intros n d st [Hn|[_ [_ ?]%list_lookup_singleton_Some]]%lookup_app_Some.
    + eapply tracks_extend; [by eapply Htracks|by apply prefix_app_r..].
    + simplify_eq. apply sent_tracks.
  - intros n m c1 c2 Hne
      [Hn|[Hn [Hn' ?]%list_lookup_singleton_Some]]%lookup_app_Some
      [Hm|[Hm [Hm' ?]%list_lookup_singleton_Some]]%lookup_app_Some; simplify_eq.
    + by eapply Hapart.
    + destruct c1 as [d st]. eapply tracks_apart_dispatch_of, Htracks, Hn.
    + destruct c2 as [d st]. symmetry. eapply tracks_apart_dispatch_of, Htracks, Hm.
    + lia.
  - intros k rq [Hk|[Hge Hk]]%lookup_app_Some.
    + destruct (Howned _ _ Hk) as [(n & d & st & Hn & Hrange)|Horphan].
      * left. exists n, d, st. split; [by apply lookup_app_l_Some|done].
      * right. eapply orphaned_extend; [done..|by apply prefix_app_r|].
        intros n c [Hn|[_ [_ ?]%list_lookup_singleton_Some]]%lookup_app_Some Hge;
          [apply lookup_lt_Some in Hn; unfold call in *; lia|by simplify_eq].
    + left. apply lookup_lt_Some in Hk. unfold requests_of in Hk. rewrite length_imap in Hk.
      exists (length cs), (dispatch_of this payload data devices w),
        (replicate (length devices) Waiting).
      split; [by apply list_lookup_middle|cbn; lia].
Qed.

(** A call of [send] that throws on a device leaves the requests of the
    devices before it in flight: they belong to no call. *)
Lemma tracked_all_published cs sns payload attributes before w :
  tracked_all cs w -> tracked_all cs (alloc (published sns payload attributes before w)).
Proof.
  intros [Htracks Hapart Howned]. split; [|done|].
  - intros n d st Hn. eapply tracks_extend; [by eapply Htracks|cbn..|done].
    + by apply prefix_app_r.
    + by do 2 apply prefix_app_r.
  - intros k rq [Hk|[Hge Hk]]%lookup_app_Some.
    + destruct (Howned _ _ Hk) as [?|Horphan]; [by left|right].
      rewrite <- (app_nil_r cs). eapply orphaned_extend; [done..| |].
      * cbn. by do 2 apply prefix_app_r.
      * intros n c Hn Hlen. rewrite app_nil_r in Hn. apply lookup_lt_Some in Hn.
        unfold call in *. lia.
    + right. unfold requests_of in Hk. rewrite list_lookup_imap in Hk.
      destruct (before !! _) as [device|] eqn:Hdevice; simplify_eq/=.
      apply lookup_lt_Some in Hdevice. split.
      * exists Pending. cbn.
        rewrite lookup_app_l by (rewrite length_app, length_replicate; lia).
        rewrite lookup_app_r, Nat.add_comm, Nat.add_sub by lia.
        by apply lookup_replicate_2.
      * intros n [d st] Hn. eapply tracks_outside; [by eapply Htracks|cbn; lia..].
Qed.

(** ** Calls of [send] and callbacks in any order *)

Section moves.
Context `{Collaborators}.

(** One move of the application or of the transport: a call of [send], on
    any adapter, intent and devices, that returns or throws, or the
    completion of a request in flight. *)
Inductive move : world -> world -> Prop :=
| move_send this data devices w r w' :
    send this data devices w = (r, w') -> move w w'
| move_step w w' : step w w' -> move w w'.

(** The worlds a call of [send] can leave. *)
Lemma send_cases this data devices w r w' :
  send this data devices w = (r, w') ->
  exists seed,
    w' = set_seed seed w
    \/ (exists payload, w' = sent this payload data devices (set_seed seed w))
    \/ (exists payload before,
          w' = alloc (published (sns this) payload (generateMessageAttributes data) before
                        (set_seed seed w))).
Proof.
  destruct r as [j|e].
  - intros (payload & seed & _ & _ & _ & ->)%send_Normal. eauto 10.
  - intros [[seed ->]|(payload & seed & before & ->)]%send_Throw; eauto 10.
Qed.

Lemma move_globals w w' : move w w' -> w_globals w' = w_globals w.
Proof.
  intros [this data devices w0 r w1 Hsend|w0 w1 [k err data w2 rq _]];
    [|apply deliver_globals].
  by destruct (send_cases _ _ _ _ _ _ Hsend) as (seed & [->|[[payload ->]|(? & ? & ->)]]).
Qed.

Lemma moves_globals w w' : rtc move w w' -> w_globals w' = w_globals w.
Proof. induction 1 as [|w1 w2 w3 Hmove _ IH]; [done|]. by rewrite IH, (move_globals w1). Qed.

Lemma move_tracked_all cs w w' :
  tracked_all cs w -> move w w' ->
  exists cs', tracked_all cs' w' /\ calls_extend (w_globals w) cs cs'.
Proof.
  intros Hall Hmove. destruct Hmove as [this data devices w r w' Hsend|w w' Hstep];
    [|by apply tracked_all_step].
  destruct (send_cases _ _ _ _ _ _ Hsend) as (seed & [->|[[payload ->]|(? & ? & ->)]]).
  - exists cs. split; [by apply tracked_all_seed|done].
  - eexists. split; [by apply tracked_all_sent, tracked_all_seed|]. by eexists cs, _.
  - exists cs. split; [by apply tracked_all_published, tracked_all_seed|done].
Qed.

(** Whatever the application sends and the transport completes, in
    whatever order, the calls stay tracked and each of them has made steps
    of its own only. *)
Lemma moves_tracked_all cs w w' :
  tracked_all cs w -> rtc move w w' ->
  exists cs', tracked_all cs' w' /\ calls_extend (w_globals w) cs cs'.
Proof.
  intros Hall Hrun. revert cs Hall.
  induction Hrun as [w|w w1 w' Hmove _ IH]; intros cs Hall; [by exists cs|].
  destruct (move_tracked_all _ _ _ Hall Hmove) as (cs1 & Hall1 & Hext1).
  destruct (IH _ Hall1) as (cs' & Hall' & Hext). rewrite (move_globals _ _ Hmove) in Hext.
  exists cs'. split; [done|by etrans].
Qed.

(** A call of [send] among others: after any moves before it and any moves
    after it, the call is one of the tracked calls, it holds the promises,
    the requests and the join [send] allocated, and its devices have been
    moved by its own callbacks only. *)
Lemma send_among w0 w this data devices j w1 w' :
  quiet w0 -> rtc move w0 w -> send this data devices w = (Normal j, w1) ->
  rtc move w1 w' ->
  exists cs n d st,
    tracked_all cs w' /\ cs !! n = Some (d, st)
    /\ d_devices d = devices /\ d_promise d = length (cells (w_heap w))
    /\ d_request d = length (w_inflight w) /\ d_join d = j
    /\ rtc (abstract_step d (w_globals w0)) (replicate (length devices) Waiting) st.
Proof.
  intros Hq Hrun0 Hsend Hrun.
  destruct (moves_tracked_all [] _ _ (tracked_all_nil _ Hq) Hrun0) as (cs & Hall & _).
  apply send_Normal in Hsend as (payload & seed & _ & _ & -> & ->).
  pose proof (tracked_all_sent _ this payload data devices _
                (tracked_all_seed _ seed _ Hall)) as Hall1.
  destruct (moves_tracked_all _ _ _ Hall1 Hrun) as (cs' & Hall' & Hext).
  destruct (calls_extend_lookup _ _ _ (length cs) _ _ Hext
              (list_lookup_middle _ _ _ _ eq_refl)) as (st & Hn & Habs).
  eexists cs', (length cs), _, st. split_and!; [done..|].
  by rewrite <- (moves_globals _ _ Hrun0).
Qed.

End moves.

(** * Theorems *)

(** ** One call among others *)

Section among.
Context `{Collaborators}.
Implicit Types (w : world) (this : sns_adapter) (data : value).
Implicit Types (devices : list value) (j : nat).

(** C19: a call of [send] made while other calls are in progress, and
    followed by any further calls and completions in any order, has its
    promise in one of two states: resolved with one outcome per device of
    this call, each device's own promise being resolved with the outcome
    at its position and its request no longer in flight; or pending, and
    then the promise of one of its own devices is pending.  What the other
    calls do, failures included, never shows in it. *)
Theorem concurrent_aggregate w0 w this data devices j w1 w' :
  quiet w0 -> rtc move w0 w -> send this data devices w = (Normal j, w1) ->
  rtc move w1 w' ->
  (exists outcomes,
     aggregate (w_heap w') j = Some (Resolved (VArr outcomes))
     /\ length outcomes = length devices
     /\ forall i v, outcomes !! i = Some v ->
          cell_state (w_heap w') (length (cells (w_heap w)) + i) = Some (Resolved v)
          /\ w_inflight w' !! (length (w_inflight w) + i) = Some None)
  \/ (aggregate (w_heap w') j = Some Pending
      /\ exists i, i < length devices
           /\ cell_state (w_heap w') (length (cells (w_heap w)) + i) = Some Pending).
Proof.
  intros Hquiet Hbefore Hsend Hafter.
  destruct (send_among _ _ _ _ _ _ _ _ Hquiet Hbefore Hsend Hafter)
    as (cs & n & d & st & Hall & Hn & <- & <- & <- & <- & _).
  pose proof (all_tracks _ _ Hall _ _ _ Hn) as Ht.
  pose proof (tracks_abstract_aggregate _ _ _ Ht) as Hagg.
  unfold abstract_aggregate in Hagg. case_decide.
  - left. eexists. split; [done|]. by eapply tracks_resolved.
  - right. split; [done|]. by eapply tracks_unresolved.
Qed.

(** C20: among any other calls and in any interleaving, a call of [send]
    is a run of the abstract machine of its own devices: the states of its
    devices are reached from all waiting by steps that complete one of its
    waiting devices each, and its promise is the one the abstract state
    gives. *)
Theorem concurrent_refines w0 w this data devices j w1 w' :
  quiet w0 -> rtc move w0 w -> send this data devices w = (Normal j, w1) ->
  rtc move w1 w' ->
  exists d st,
    d_devices d = devices /\ d_join d = j
    /\ rtc (abstract_step d (w_globals w0)) (replicate (length devices) Waiting) st
    /\ tracks d st w'
    /\ aggregate (w_heap w') j = Some (abstract_aggregate st).
Proof.
  intros Hquiet Hbefore Hsend Hafter.
  destruct (send_among _ _ _ _ _ _ _ _ Hquiet Hbefore Hsend Hafter)
    as (cs & n & d & st & Hall & Hn & <- & _ & _ & <- & Hrun).
  pose proof (all_tracks _ _ Hall _ _ _ Hn) as Ht.
  exists d, st. split_and!; [done..|]. by apply tracks_abstract_aggregate.
Qed.

(** C22: the countdown of the join of a call never leaves its range: at
    any time, among any other calls, it lies between zero and the number
    of devices of the call, the join has one slot per device and has seen
    no error, and the countdown is zero exactly where the join is
    resolved. *)
Theorem concurrent_bounds w0 w this data devices j w1 w' :
  quiet w0 -> rtc move w0 w -> send this data devices w = (Normal j, w1) ->
  rtc move w1 w' ->
  exists jn,
    joins (w_heap w') !! j = Some jn
    /\ (0 <= j_total jn <= Z.of_nat (length devices))%Z
    /\ length (j_results jn) = length devices
    /\ j_hadError jn = false
    /\ (j_total jn = 0%Z <-> j_status jn = SResolved).
Proof.
  intros Hquiet Hbefore Hsend Hafter.
  destruct (send_among _ _ _ _ _ _ _ _ Hquiet Hbefore Hsend Hafter)
    as (cs & n & d & st & Hall & Hn & <- & _ & _ & <- & _).
  destruct (all_tracks _ _ Hall _ _ _ Hn) as (Hlen & _ & Hjoin).
  destruct (join_of_bounds st) as (Htotal & Hslots & Hzero).
  exists (join_of st). rewrite <- Hlen.
  exact (conj Hjoin (conj Htotal (conj Hslots (conj eq_refl Hzero)))).
Qed.

End among.

(** ** A failure among other calls *)

Section failure.
Context `{Collaborators}.

(** C21: when no global [arn] is defined and the transport reports an
    error for a device of a call whose request is in flight, the promise
    of that device stays pending and the promise of its call is never
    completed, whatever is sent and completed afterwards.  The failure
    stays in its call: the promises of the other calls depend on their own
    devices only. *)
Theorem concurrent_failure_blocks w0 w this data devices j w1 w2 i rq err response w' :
  quiet w0 -> w_globals w0 !! "arn" = None -> rtc move w0 w ->
  send this data devices w = (Normal j, w1) -> rtc move w1 w2 ->
  i < length devices ->
  w_inflight w2 !! (length (w_inflight w) + i) = Some (Some rq) ->
  loose_neq_null err = true ->
  rtc move (deliver (length (w_inflight w) + i) err response w2) w' ->
  aggregate (w_heap w') j = Some Pending
  /\ cell_state (w_heap w') (length (cells (w_heap w)) + i) = Some Pending.
Proof.
  intros Hq Harn Hrun0 Hsend Hrun1.
  destruct (send_among _ _ _ _ _ _ _ _ Hq Hrun0 Hsend Hrun1)
    as (cs & n & d & st & Hall & Hn & <- & <- & <- & <- & _).
  intros Hlt Hk Herr Hrun.
  destruct (tracks_waiting d st w2 (d_request d + i) rq (all_tracks _ _ Hall _ _ _ Hn)
              ltac:(lia) Hk)
    as (i' & device & Hi' & Hdevice & Hi).
  assert (i' = i) as -> by lia.
  pose proof (tracked_all_deliver _ _ _ _ _ _ _ err response Hall Hn Hdevice Hi) as Hall2.
  rewrite next_state_arn_unbound in Hall2; [|done|].
  2: { rewrite (moves_globals w1), (move_globals w), (moves_globals w0); eauto using move. }
  destruct (moves_tracked_all _ _ _ Hall2 Hrun) as (cs' & Hall' & Hext).
  destruct (calls_extend_lookup _ _ _ n _ _ Hext
              (list_lookup_insert_eq _ _ _ (lookup_lt_Some _ _ _ Hn))) as (st' & Hn' & Habs).
  pose proof (all_tracks _ _ Hall' _ _ _ Hn') as Ht'.
  assert (st' !! i = Some Lost) as Hlost.
  { eapply abstract_run_settled; [done| |done].
    apply list_lookup_insert_eq. by eapply lookup_lt_Some. }
  split; [by eapply tracks_pending|].
  destruct Ht' as (_ & Hdev & _). destruct (Hdev _ _ _ Hdevice Hlost) as [_ Hp].
  unfold cell_state. by rewrite Hp.
Qed.

End failure.

(** * Witnesses *)

(** A second call, to one device, made while the two requests of the
    example's call are in flight, and a third that throws on its second
    device; then the transport answers the second call, fails the first
    device of the first call and answers the request the third call left
    behind. *)
Definition demo_second : world :=
  (send (H := demo_collaborators) demo_adapter demo_data [demo_android] demo_sent_arn).2.

Definition demo_third : world :=
  (send (H := demo_collaborators) demo_adapter demo_data [demo_ios; VNull] demo_second).2.

Definition demo_both : world :=
  deliver 3 VNull demo_answer
    (deliver 0 demo_failure VNull (deliver 2 VNull demo_answer demo_third)).

(** The same two calls where no global [arn] is defined; the transport
    fails the second call and then answers the first device of the first. *)
Definition demo_second_unbound : world :=
  (send (H := demo_collaborators) demo_adapter demo_data [demo_android] demo_sent).2.

Definition demo_second_failed : world :=
  deliver 0 VNull demo_answer (deliver 2 demo_failure VNull demo_second_unbound).

Lemma demo_first_call w :
  rtc (move (H := demo_collaborators)) w
    (send (H := demo_collaborators) demo_adapter demo_data demo_devices w).2.
Proof. apply rtc_once. eapply move_send. apply surjective_pairing. Qed.

Lemma demo_after : rtc (move (H := demo_collaborators)) demo_second demo_both.
Proof.
  eapply rtc_l; [eapply (move_send demo_adapter demo_data [demo_ios; VNull]);
                 apply surjective_pairing|].
  eapply rtc_l; [eapply move_step, (step_deliver 2 VNull demo_answer); reflexivity|].
  eapply rtc_l; [eapply move_step, (step_deliver 0 demo_failure VNull); reflexivity|].
  apply rtc_once. eapply move_step, (step_deliver 3 VNull demo_answer). reflexivity.
Qed.

Lemma concurrent_aggregate_witness :
  (exists outcomes,
     aggregate (w_heap demo_both) 1 = Some (Resolved (VArr outcomes))
     /\ length outcomes = 1
     /\ forall i v, outcomes !! i = Some v ->
          cell_state (w_heap demo_both) (2 + i) = Some (Resolved v)
          /\ w_inflight demo_both !! (2 + i) = Some None)
  \/ (aggregate (w_heap demo_both) 1 = Some Pending
      /\ exists i, i < 1 /\ cell_state (w_heap demo_both) (2 + i) = Some Pending).
Proof.
  apply (concurrent_aggregate (H := demo_collaborators) demo_world_arn demo_sent_arn
           demo_adapter demo_data [demo_android] 1 demo_second demo_both);
    [by constructor|apply demo_first_call|reflexivity|apply demo_after].
Defined.

Lemma concurrent_refines_witness :
  exists d st,
    d_devices d = [demo_android] /\ d_join d = 1
    /\ rtc (abstract_step d (w_globals demo_world_arn)) (replicate 1 Waiting) st
    /\ tracks d st demo_both
    /\ aggregate (w_heap demo_both) 1 = Some (abstract_aggregate st).
Proof.
  apply (concurrent_refines (H := demo_collaborators) demo_world_arn demo_sent_arn
           demo_adapter demo_data [demo_android] 1 demo_second demo_both);
    [by constructor|apply demo_first_call|reflexivity|apply demo_after].
Defined.

Lemma concurrent_bounds_witness :
  exists jn,
    joins (w_heap demo_both) !! 1 = Some jn
    /\ (0 <= j_total jn <= 1)%Z
    /\ length (j_results jn) = 1
    /\ j_hadError jn = false
    /\ (j_total jn = 0%Z <-> j_status jn = SResolved).
Proof.
  apply (concurrent_bounds (H := demo_collaborators) demo_world_arn demo_sent_arn
           demo_adapter demo_data [demo_android] 1 demo_second demo_both);
    [by constructor|apply demo_first_call|reflexivity|apply demo_after].
Defined.

Lemma concurrent_failure_blocks_witness :
  aggregate (w_heap demo_second_failed) 1 = Some Pending
  /\ cell_state (w_heap demo_second_failed) (2 + 0) = Some Pending.
Proof.
  eapply (concurrent_failure_blocks (H := demo_collaborators) demo_world demo_sent
            demo_adapter demo_data [demo_android] 1 demo_second_unbound demo_second_unbound
            0 _ demo_failure VNull demo_second_failed);
    [by constructor|reflexivity|apply demo_first_call|reflexivity|done|cbn; lia
    |reflexivity|reflexivity|].
  apply rtc_once, move_step. by econstructor.
Defined.

(** The calls of the example, run: the third call throws a TypeError and
    makes no join; the second call is resolved with the outcome of its
    device while the first, one of whose requests is still in flight, is
    pending. *)
Example concurrent_example :
  (send (H := demo_collaborators) demo_adapter demo_data [demo_ios; VNull] demo_second).1
  = Throw TypeError
  /\ length (joins (w_heap demo_both)) = 2
  /\ aggregate (w_heap demo_both) 1 = Some (Resolved (VArr (drop 1 demo_outcomes)))
  /\ aggregate (w_heap demo_both) 0 = Some Pending
  /\ in_flight demo_both = 1.
Proof. by vm_compute. Qed.
