(* ===== verification/Transport.v ===== *)
(** * The structured message at the transport

    [publishToSNS] hands the transport the whole bundle as one text, marked
    as structured; the transport picks the entry of the platform family of
    the target and delivers that entry's text, which the platform decodes.
    This file follows a message that far: [entries] is the bundle the
    transport reads out of the parameters, [route] the entry it picks (the
    family's own, or [default]), [received] the payload the platform
    decodes.  The theorems say what arrives for each family, from the
    bundle of [generatePayload] and from the requests [send] puts in
    flight. *)

From stdpp Require Import base option list strings.
From S2P Require Import Prelude JsValue Json JsonParse JsonRoundTrip Promise World.
From S2P Require Import Payload Publish Send.

(** ** Routing *)

(** The text of a string value. *)
Definition as_text (v : value) : option string :=
  match v with
  | VStr s => Some s
  | _ => None
  end.

(** The object a structured message holds. *)
Definition entries (params : value) : option value :=
  if decide (field params "MessageStructure" = VStr "json")
  then as_text (field params "Message") ≫= parse
  else None.

(** The text for a platform family: the entry under its key, or else the
    entry under [default]. *)
Definition route (family : string) (params : value) : option string :=
  message ← entries params;
  match as_text (field message family) with
  | Some text => Some text
  | None => as_text (field message "default")
  end.

(** What the platform decodes. *)
Definition received (family : string) (params : value) : option value :=
  route family params ≫= parse.

(** ** The payload of a key *)

(** What [generatePayload] serializes under each key of the bundle, for
    the results [gcm] and [apns] of the encoders and the application data
    [coreData]; under any other key there is nothing. *)
Definition payload_of (gcm apns coreData : value) (key : string) : value :=
  if decide (key = "GCM") then gcm
  else if decide (key = "APNS") then apns
  else if decide (key = "APNS_SANDBOX") then apns
  else if decide (key = "ADM") then VObj [("data", coreData)]
  else if decide (key = "WNS") then coreData
  else if decide (key = "default") then coreData
  else VUndefined.

(** * Facts *)

Lemma bundle_payload_of gcm apns coreData :
  bundle gcm apns coreData
  = VObj ((fun key => (key, stringify (payload_of gcm apns coreData key))) <$> platform_keys).
Proof. reflexivity. Qed.

Lemma stringify_wf v : wf_value (stringify v) = true.
Proof. unfold stringify. by destruct (serialize v). Qed.

Lemma bundle_wf gcm apns coreData : wf_value (bundle gcm apns coreData) = true.
Proof.
  unfold bundle. cbn [wf_value forallb fmap list_fmap snd].
  rewrite !stringify_wf, bool_decide_eq_true_2; [done|].
  by apply (bool_decide_unpack _).
Qed.

(** Reading a property of the image of an object. *)
Lemma field_plain fields k :
  NoDup fields.*1 ->
  field (plain (VObj fields)) k
  = if decide (field (VObj fields) k = VUndefined) then VUndefined
    else plain (field (VObj fields) k).
Proof.
  rewrite plain_obj. unfold field. cbn [own_properties].
  induction fields as [|[k1 v1] fields IH]; intros Hnd; [done|].
  rewrite fmap_cons in Hnd. apply NoDup_cons in Hnd as [Hk1 Hnd].
  rewrite omap_cons. unfold property at 1. cbn [assoc snd fst] in *.
  destruct (decide (v1 = VUndefined)) as [->|Hv1], (decide (k = k1)) as [->|Hk]; simpl;
    rewrite ?decide_True, ?decide_False by done; auto.
  assert (assoc k1 (omap property fields) = None) as ->; [|done].
  apply assoc_None. intros Hin. apply Hk1. by eapply elem_of_sublist, property_keys.
Qed.

Lemma paramsOf_fields device payload attributes :
  field (paramsOf device payload attributes) "Message" = stringify payload
  /\ field (paramsOf device payload attributes) "MessageStructure" = VStr "json"
  /\ field (paramsOf device payload attributes) "TargetArn" = field device "deviceToken".
Proof. done. Qed.

(** The transport reads back what [publishToSNS] serialized. *)
Lemma entries_paramsOf device payload attributes :
  wf_value payload = true ->
  entries (paramsOf device payload attributes)
  = if decide (payload = VUndefined) then None else Some (plain payload).
Proof.
  intros Hwf. unfold entries.
  destruct (paramsOf_fields device payload attributes) as (-> & -> & _).
  rewrite decide_True by done.
  destruct (stringify_cases payload) as [[-> ->]|[Hdef [s Hs]]]; [done|].
  rewrite Hs, decide_False by done. cbn [as_text mbind option_bind].
  by apply parse_serialize, stringify_string.
Qed.

(** For a bundle: its entries are the strings of the bundle, and a key
    whose payload was [undefined] is absent. *)
Lemma entries_bundle device gcm apns coreData attributes :
  entries (paramsOf device (bundle gcm apns coreData) attributes)
  = Some (plain (bundle gcm apns coreData)).
Proof. by rewrite entries_paramsOf by apply bundle_wf. Qed.

Lemma bundle_keys gcm apns coreData :
  NoDup ((fun key => (key, stringify (payload_of gcm apns coreData key))) <$> platform_keys).*1.
Proof. by apply (bool_decide_unpack _). Qed.

Lemma field_bundle gcm apns coreData key :
  field (bundle gcm apns coreData) key = stringify (payload_of gcm apns coreData key).
Proof.
  unfold field, bundle, payload_of. cbn [own_properties assoc].
  by repeat case_decide.
Qed.

Lemma payload_of_other gcm apns coreData family :
  family ∉ platform_keys -> payload_of gcm apns coreData family = VUndefined.
Proof.
  unfold platform_keys, payload_of. rewrite !not_elem_of_cons. intros ?. destruct_and!.
  by rewrite !decide_False by done.
Qed.

(** The entry of the message under a key is the text of the bundle's
    entry. *)
Lemma entry_text gcm apns coreData key :
  as_text (field (plain (bundle gcm apns coreData)) key)
  = as_text (field (bundle gcm apns coreData) key).
Proof.
  rewrite bundle_payload_of, field_plain by apply bundle_keys.
  case_decide as Hu; [by rewrite Hu|]. rewrite <- bundle_payload_of, field_bundle.
  by destruct (stringify_cases (payload_of gcm apns coreData key)) as [[_ ->]|[_ [s ->]]].
Qed.

Lemma route_bundle family device gcm apns coreData attributes :
  route family (paramsOf device (bundle gcm apns coreData) attributes)
  = match as_text (field (bundle gcm apns coreData) family) with
    | Some text => Some text
    | None => as_text (stringify coreData)
    end.
Proof.
  unfold route. rewrite entries_bundle. cbn [mbind option_bind].
  by rewrite !entry_text, (field_bundle _ _ _ "default").
Qed.

(** The request [send] leaves in flight for the device at index [i]. *)
Lemma sent_request this payload data devices w i device :
  devices !! i = Some device ->
  w_inflight (sent this payload data devices w) !! (length (w_inflight w) + i)
  = Some (Some (Request (sns this) (paramsOf device payload (generateMessageAttributes data))
                  device (length (cells (w_heap w)) + i))).
Proof.
  intros Hdev. cbn. rewrite lookup_app_r, Nat.add_comm, Nat.add_sub by lia.
  unfold requests_of. by rewrite list_lookup_imap, Hdev.
Qed.

Lemma received_text family params text :
  route family params = Some text -> received family params = parse text.
Proof. unfold received. by intros ->. Qed.

(** Every platform family of the bundle receives the image of its own
    payload: the transport reads the message back, picks the entry of the
    key, and the text of that entry decodes to what [generatePayload]
    serialized there, provided that payload is not [undefined]. *)
Lemma received_payload key device gcm apns coreData attributes :
  wf_value (payload_of gcm apns coreData key) = true ->
  payload_of gcm apns coreData key <> VUndefined ->
  received key (paramsOf device (bundle gcm apns coreData) attributes)
  = Some (plain (payload_of gcm apns coreData key)).
Proof.
  intros Hwf Hdef.
  destruct (stringify_cases (payload_of gcm apns coreData key)) as [[? _]|[_ [s Hs]]]; [done|].
  rewrite (received_text _ _ s).
  - by apply parse_serialize, stringify_string.
  - by rewrite route_bundle, field_bundle, Hs.
Qed.

(** A family the bundle has no key for receives the application data,
    from the [default] entry. *)
Lemma received_fallback family device gcm apns coreData attributes :
  family ∉ platform_keys -> wf_value coreData = true -> coreData <> VUndefined ->
  received family (paramsOf device (bundle gcm apns coreData) attributes)
  = Some (plain coreData).
Proof.
  intros Hfamily Hwf Hdef.
  destruct (stringify_cases coreData) as [[? _]|[_ [s Hs]]]; [done|].
  rewrite (received_text _ _ s).
  - by apply parse_serialize, stringify_string.
  - by rewrite route_bundle, field_bundle, payload_of_other, Hs.
Qed.

(** * Theorems *)

(** C15: the message of a publish call survives the transport's reading:
    the parameters [publishToSNS] builds for a payload mark the message as
    structured, and its text parses, with nothing left over, to the image
    of the payload, in which an [undefined] entry is absent. *)
Theorem publishParams_round_trip device payload attributes params :
  wf_value payload = true -> payload <> VUndefined ->
  publishParams device payload attributes = Normal params ->
  field params "MessageStructure" = VStr "json"
  /\ field params "TargetArn" = field device "deviceToken"
  /\ entries params = Some (plain payload).
Proof.
  intros Hwf Hdef. rewrite publishParams_spec.
  destruct (loose_neq_null device); [|done]. intros [= <-].
  by rewrite entries_paramsOf, decide_False.
Qed.

(** C25: an intent without application data reaches the Amazon family as
    an empty object and no other family but GCM and APNS at all: the
    message has no [WNS] and no [default] entry, so there is nothing to
    fall back on. *)
Theorem route_no_data family device gcm apns attributes :
  family ∉ ["GCM"; "APNS"; "APNS_SANDBOX"; "ADM"] ->
  route family (paramsOf device (bundle gcm apns VUndefined) attributes) = None
  /\ received "ADM" (paramsOf device (bundle gcm apns VUndefined) attributes)
     = Some (VObj []).
Proof.
  intros Hfamily. split; [|by rewrite (received_text _ _ "{}") by (by rewrite route_bundle)].
  rewrite route_bundle, field_bundle. unfold payload_of.
  rewrite !not_elem_of_cons in Hfamily. destruct_and!.
  rewrite !decide_False by done. by repeat case_decide.
Qed.

Section sending.
Context `{Collaborators}.

(** C14: what [send] puts in flight for a device is a request on the
    client of the adapter, addressed to the token of that device, and
    every key of the bundle receives from it the image
    of its payload: of what the GCM and the APNS encoder returned, of the
    application data wrapped for ADM, and of the application data itself
    for WNS and [default]. *)
Theorem send_received this data devices w j w' i device :
  send this data devices w = (Normal j, w') -> devices !! i = Some device ->
  exists rq gcm apns,
    generateGCMPayload (field data "data") (VStr (randomString 10 (w_seed w)).1)
      (VNum (w_clock w)) (field data "expirationTime") = Normal gcm
    /\ generateNotification (field data "data") (field data "expirationTime") = Normal apns
    /\ w_inflight w' !! (length (w_inflight w) + i) = Some (Some rq)
    /\ rq_client rq = sns this /\ rq_device rq = device
    /\ field (rq_params rq) "TargetArn" = field device "deviceToken"
    /\ forall key,
         wf_value (payload_of gcm apns (field data "data") key) = true ->
         payload_of gcm apns (field data "data") key <> VUndefined ->
         received key (rq_params rq)
         = Some (plain (payload_of gcm apns (field data "data") key)).
Proof.
  intros (payload & seed & Hpayload & _ & _ & ->)%send_Normal Hdev.
  apply generatePayload_encodings in Hpayload as (gcm & apns & -> & Hgcm & Hapns).
  eexists _, gcm, apns. do 2 (split; [done|]).
  split; [by apply (sent_request _ _ _ _ (set_seed seed w))|].
  split_and!; [done..|]. intros key. apply received_payload.
Qed.
End sending.

(** * Witnesses *)

Lemma received_fallback_witness :
  received "BAIDU" (paramsOf demo_ios demo_bundle (generateMessageAttributes demo_data))
  = Some (VObj [("alert", VStr "hi")]).
Proof.
  apply (received_fallback "BAIDU" demo_ios demo_gcm_value demo_apns_value);
    [by apply (bool_decide_unpack _) | done | done].
Defined.

Lemma publishParams_round_trip_witness :
  field (paramsOf demo_ios demo_bundle (generateMessageAttributes demo_data))
    "MessageStructure" = VStr "json"
  /\ field (paramsOf demo_ios demo_bundle (generateMessageAttributes demo_data)) "TargetArn"
     = field demo_ios "deviceToken"
  /\ entries (paramsOf demo_ios demo_bundle (generateMessageAttributes demo_data))
     = Some (plain demo_bundle).
Proof.
  by apply (publishParams_round_trip demo_ios demo_bundle
              (generateMessageAttributes demo_data)).
Defined.

Lemma route_no_data_witness :
  route "WNS" (paramsOf demo_ios (bundle demo_gcm_value demo_apns_value VUndefined)
                 (generateMessageAttributes empty_intent)) = None
  /\ received "ADM" (paramsOf demo_ios (bundle demo_gcm_value demo_apns_value VUndefined)
                       (generateMessageAttributes empty_intent))
     = Some (VObj []).
Proof. apply route_no_data. by apply (bool_decide_unpack _). Defined.

Lemma send_received_witness :
  exists rq gcm apns,
    demo_gcm (field demo_data "data") (VStr (letters 10)) (VNum (w_clock demo_world))
      (field demo_data "expirationTime") = Normal gcm
    /\ demo_apns (field demo_data "data") (field demo_data "expirationTime") = Normal apns
    /\ w_inflight demo_sent !! (0 + 1) = Some (Some rq)
    /\ rq_client rq = sns demo_adapter /\ rq_device rq = demo_android
    /\ field (rq_params rq) "TargetArn" = field demo_android "deviceToken"
    /\ forall key,
         wf_value (payload_of gcm apns (field demo_data "data") key) = true ->
         payload_of gcm apns (field demo_data "data") key <> VUndefined ->
         received key (rq_params rq)
         = Some (plain (payload_of gcm apns (field demo_data "data") key)).
Proof.
  by apply (send_received (H := demo_collaborators) demo_adapter demo_data demo_devices
              demo_world 0 demo_sent 1 demo_android).
Defined.

(** What the Android family of the example receives: the object the GCM
    encoder built, its inner [data] still a string. *)
Example received_example :
  received "GCM" (paramsOf demo_android demo_bundle (generateMessageAttributes demo_data))
  = Some demo_gcm_value.
Proof. by vm_compute. Qed.
