(* ===== verification/Compiled.v ===== *)
(** * The transpiled module [src/lib/SNS.js]

    [src/lib/SNS.js] is the Babel output of [src/src/SNS.js], the file a
    deployment loads.  It differs from the source in three ways that can
    matter: the guard of the constructor asks [_typeof(args)] instead of
    [typeof args] (line 37), every imported module is reached through
    [_interopRequireDefault] (line 31), and [send] reads [_this.sns] from a
    variable that captured [this] (line 133).

    This file models the two helpers and the constructor as they are
    written there and shows that the constructor is the one of the source
    on every input and under every runtime.  The other functions of the
    file are the statements of the source with [var] for [let] and
    [function] for the arrow functions: the definitions that model the
    source model them, under the names that end in [_lib]. *)

From stdpp Require Import base option list strings gmap.
From S2P Require Import Prelude JsValue Promise World Config Payload Publish Send Receiver.

(** ** [_typeof] (line 7) *)

(** What line 7 asks of the runtime: [typeof Symbol] and
    [typeof Symbol.iterator]. *)
Record runtime : Type := Runtime {
  symbol_typeof : string;
  symbol_iterator_typeof : string
}.

(** What [obj.constructor] can be for a value of the model: an own
    property, or the built-in constructor of the value's kind. *)
Inductive constructor : Type :=
| CObject | CArray | CBuffer | CString | CNumber | CBoolean | CSymbol
| COwn (v : value).

#[export] Instance constructor_eq_dec : EqDecision constructor.
Proof. solve_decision. Defined.

Definition constructor_of (obj : value) : constructor :=
  match obj with
  | VObj fields =>
      match assoc "constructor" fields with
      | Some v => COwn v
      | None => CObject
      end
  | VArr _ => CArray
  | VBuffer _ => CBuffer
  | VStr _ => CString
  | VNum _ => CNumber
  | VBool _ => CBoolean
  | VUndefined | VNull => CObject
  end.

(** With native symbols [_typeof] is the operator; otherwise it is the
    function that answers "symbol" for an object made by a polyfilled
    [Symbol]. *)
Definition _typeof (rt : runtime) (obj : value) : string :=
  if bool_decide (symbol_typeof rt = "function")
     && bool_decide (symbol_iterator_typeof rt = "symbol")
  then typeof obj
  else if truthy obj && bool_decide (symbol_typeof rt = "function")
          && bool_decide (constructor_of obj = CSymbol)
       then "symbol"
       else typeof obj.

(** ** [_interopRequireDefault] (line 31) *)

Definition _interopRequireDefault (obj : value) : value :=
  if truthy (js_and obj (field obj "__esModule")) then obj
  else VObj [("default", obj)].

(** ** The module constants (lines 33-34) *)

Definition LOG_PREFIX_lib : string := "parse-server-push-adapter SNS".
Definition DEFAULT_REGION_lib : string := "us-east-1".

(** ** The constructor (lines 36-47) *)

(** The condition of line 37. *)
Definition config_invalid_lib (rt : runtime) (args : value) : js bool :=
  let type := if bool_decide (typeof args = "undefined") then "undefined"
              else _typeof rt args in
  if negb (bool_decide (type = "object")) then Normal true
  else
    accessKey <- get args "accessKey" ;;
    if negb (truthy accessKey) then Normal true
    else
      secretKey <- get args "secretKey" ;;
      Normal (negb (truthy secretKey)).

(** The object literal of lines 41-45. *)
Definition config_of_args_lib (args : value) : js aws_config :=
  accessKey <- get args "accessKey" ;;
  secretKey <- get args "secretKey" ;;
  region <- get args "region" ;;
  Normal (AwsConfig accessKey secretKey (js_or region (VStr DEFAULT_REGION_lib))).

Definition SNS_lib (rt : runtime) (args : value) : io sns_adapter :=
  invalid <~ elift (config_invalid_lib rt args) ;;
  if (invalid : bool) then
    ethrow (ParseError PUSH_MISCONFIGURED "SNS Configuration is invalid")
  else
    config <~ elift (config_of_args_lib args) ;;
    run aws_config_update config ;;
    client <~ new_sns_client ;;
    eret (SnsAdapter client).

(** Line 1: the transpiled module carries the directive of the source. *)
Definition this_of_call_lib : value := this_of_call.

(** ** The other functions *)

Section functions_lib.
Context `{Collaborators}.

(** Lines 49-63: the statements of the source, the collaborators reached
    through [_GCM2.default], [_APNS2.default] and
    [(0, _PushAdapterUtils.randomString)]. *)
Definition generatePayload_lib : value -> io value := generatePayload.

(** Lines 65-76. *)
Definition generateMessageAttributes_lib : value -> value := generateMessageAttributes.

(** Lines 86-124, the callback being a [function] expression; it uses
    neither [this] nor [arguments], so it is the arrow function of the
    source. *)
Definition publishToSNS_lib : sns_client -> value -> value -> value -> io nat :=
  publishToSNS.

(** Lines 132-142: [_this] is [this] of the call (line 133), read in the
    callback of [devices.map] as the source reads [this]. *)
Definition send_lib (_this : receiver) : value -> list value -> io nat := send_from _this.

End functions_lib.

(** ** The helpers on the values of the model *)

(** No value of the model is made by [Symbol]. *)
Lemma constructor_of_not_Symbol obj : constructor_of obj <> CSymbol.
Proof. destruct obj as [| | | | | | |fields]; try done. simpl. by destruct (assoc _ _). Qed.

Lemma _typeof_typeof rt obj : _typeof rt obj = typeof obj.
Proof.
  unfold _typeof. destruct (_ && _); [done|].
  by rewrite (bool_decide_eq_false_2 _ (constructor_of_not_Symbol obj)), andb_false_r.
Qed.

Lemma config_invalid_lib_source rt args : config_invalid_lib rt args = config_invalid args.
Proof.
  unfold config_invalid_lib, config_invalid. cbv zeta. rewrite _typeof_typeof.
  destruct (bool_decide_reflect (typeof args = "undefined")) as [Hu|Hu]; [by rewrite Hu|done].
Qed.

(** * Theorems *)

(** C32: the constructor of the transpiled module is the constructor of the
    source: on every argument, in every world and whatever the runtime
    knows of [Symbol], it returns or throws the same and leaves the same
    world. *)
Theorem SNS_lib_source rt args w : SNS_lib rt args w = SNS args w.
Proof. unfold SNS_lib, SNS. by rewrite config_invalid_lib_source. Qed.

(** A module without the [__esModule] mark is reached through the
    [default] property of its wrapper, and a module with the mark is used
    as it is: in both cases [.default] of the result is what the source's
    [import] binds. *)
Theorem interopRequireDefault_default obj :
  field (_interopRequireDefault obj) "default"
  = if truthy (js_and obj (field obj "__esModule")) then field obj "default" else obj.
Proof. unfold _interopRequireDefault. by destruct (truthy _). Qed.

