(* ===== verification/Loader.v ===== *)
(** * Loading the module

    [src/lib/SNS.js] is a CommonJS module.  Node runs its body with a
    [module] record, the object [exports] that [module.exports] refers to
    at first, and [require]; what another module gets from
    [require('./SNS')] is what [module.exports] refers to when the body has
    run.  The body marks [exports] as an ES module (lines 3-5), requires
    its six dependencies (lines 9-29), assigns [SNS.prototype.send] (line
    132), and exports the constructor twice: by pointing [module.exports]
    to it (line 144) and by writing it to [exports.default] (line 145).

    The two exports act on different objects after line 144, so this file
    models objects with identity: a store of objects, references into it,
    and the two variables [module] and [exports] that alias one object
    until [module.exports] is assigned. *)

From stdpp Require Import base option list strings gmap.
From S2P Require Import Prelude JsValue Compiled.

(** ** Objects with identity *)

(** A value at module level: a value of the development, whose identity
    does not matter, or a reference to an object of the store. *)
Inductive mvalue : Type :=
| MPlain (v : value)
| MRef (l : nat).

#[export] Instance mvalue_eq_dec : EqDecision mvalue.
Proof. solve_decision. Defined.

(** An object of the store: a plain object, or a function with its name,
    and its properties. *)
Record object : Type := Object {
  o_function : option string;
  o_props : gmap string mvalue
}.

(** The state of the loader: the objects, and what [require] finds for a
    module name. *)
Record loader : Type := Loader {
  l_objects : list object;
  l_registry : gmap string mvalue
}.

Abbreviation lio := (eff loader exn).

(** An object literal, a function declaration or a function expression. *)
Definition new_object (o : object) : lio nat :=
  fun s => (Normal (length (l_objects s)), Loader (l_objects s ++ [o]) (l_registry s)).

(** [o.key] and [o.key = v] on the object at [l].  A location outside the
    store is not a value of JavaScript: reading there gives [undefined] and
    writing does nothing. *)
Definition read_prop (l : nat) (key : string) : lio mvalue :=
  fun s => (Normal (default (MPlain VUndefined) (l_objects s !! l ≫= fun o => o_props o !! key)),
            s).

Definition set_prop (key : string) (v : mvalue) (o : object) : object :=
  Object (o_function o) (<[key := v]> (o_props o)).

Definition write_prop (l : nat) (key : string) (v : mvalue) : lio unit :=
  emodify (fun s => Loader (alter (set_prop key v) l (l_objects s)) (l_registry s)).

(** [obj.key] on any value. *)
Definition mget (obj : mvalue) (key : string) : lio mvalue :=
  match obj with
  | MPlain v => elift (x <- get v key ;; Normal (MPlain x))
  | MRef l => read_prop l key
  end.

Definition mtruthy (v : mvalue) : bool :=
  match v with
  | MPlain v => truthy v
  | MRef _ => true
  end.

(** ** [require] *)

Definition module_not_found (name : string) : exn :=
  Foreign (VObj [("code", VStr "MODULE_NOT_FOUND"); ("module", VStr name)]).

Definition require (name : string) : lio mvalue :=
  fun s => match l_registry s !! name with
           | Some m => (Normal m, s)
           | None => (Throw (module_not_found name), s)
           end.

(** ** [_interopRequireDefault] (line 31) on values with identity *)

Definition interopRequireDefault (obj : mvalue) : lio mvalue :=
  marked <~ (if mtruthy obj then mget obj "__esModule" else eret obj) ;;
  if mtruthy marked then eret obj
  else wrapper <~ new_object (Object None {[ "default" := obj ]}) ;; eret (MRef wrapper).

(** ** The imports *)

(** [import X from 'name'] (source lines 3-7). *)
Definition import_default (name : string) : lio mvalue :=
  m <~ require name ;; interopRequireDefault m.

(** [import { x } from 'name'] (source line 8): the module itself is
    bound, [x] is read from it at each use. *)
Definition import_named (name : string) : lio mvalue := require name.

(** The bindings of the imports the functions of the module use. *)
Record imports : Type := Imports {
  _parse2 : mvalue;
  _npmlog2 : mvalue;
  _awsSdk2 : mvalue;
  _APNS2 : mvalue;
  _GCM2 : mvalue;
  _PushAdapterUtils : mvalue
}.

(** The names [require] is called with, in the order of the calls. *)
Definition required_modules : list string :=
  ["parse"; "npmlog"; "aws-sdk"; "./APNS"; "./GCM"; "./PushAdapterUtils"].

(** Lines 9-29 of the transpiled module. *)
Definition imports_lib : lio imports :=
  parse <~ import_default "parse" ;;
  npmlog <~ import_default "npmlog" ;;
  awsSdk <~ import_default "aws-sdk" ;;
  apns <~ import_default "./APNS" ;;
  gcm <~ import_default "./GCM" ;;
  utils <~ import_named "./PushAdapterUtils" ;;
  eret (Imports parse npmlog awsSdk apns gcm utils).

(** ** The exports *)

(** Lines 3-5: [Object.defineProperty(exports, "__esModule", { value: true })]. *)
Definition mark_esModule (exports : nat) : lio unit :=
  write_prop exports "__esModule" (MPlain (VBool true)).

(** [module.exports = SNS] (source line 125). *)
Definition assign_module_exports (module sns : nat) : lio unit :=
  write_prop module "exports" (MRef sns).

(** [export default SNS] (source line 126), which is
    [exports.default = SNS] after the mark of lines 3-5. *)
Definition export_default (exports sns : nat) : lio unit :=
  write_prop exports "default" (MRef sns).

(** Lines 144-145 of the transpiled module, in this order. *)
Definition export_SNS (module exports sns : nat) : lio unit :=
  run assign_module_exports module sns ;;
  export_default exports sns.

(** [SNS.prototype.send = function ...] (line 132 transpiled, 114 in the
    source): the function expression is anonymous.  A plain value is not
    written to: the assignment throws, as it does in strict mode on a
    primitive. *)
Definition assign_send (sns : nat) : lio unit :=
  send <~ new_object (Object (Some "") ∅) ;;
  prototype <~ read_prop sns "prototype" ;;
  match prototype with
  | MRef p => write_prop p "send" (MRef send)
  | MPlain _ => ethrow TypeError
  end.

(** ** The body of the module *)

(** Node makes [module] and [exports], one object under two names. *)
Definition module_wrapper : lio (nat * nat) :=
  exports <~ new_object (Object None ∅) ;;
  module <~ new_object (Object None {[ "exports" := MRef exports ]}) ;;
  eret (module, exports).

(** The declaration of [SNS] is hoisted: the function and its prototype
    exist before the first statement runs. *)
Definition hoist_SNS : lio nat :=
  prototype <~ new_object (Object None ∅) ;;
  sns <~ new_object (Object (Some "SNS") {[ "prototype" := MRef prototype ]}) ;;
  run write_prop prototype "constructor" (MRef sns) ;;
  eret sns.

(** The statements of the body that act on the module level, in order. *)
Definition body (module exports sns : nat) : lio imports :=
  run mark_esModule exports ;;
  imported <~ imports_lib ;;
  run assign_send sns ;;
  run export_SNS module exports sns ;;
  eret imported.

(** What loading has made: the module record, the object [exports] was
    bound to, the constructor and the imports. *)
Record loaded : Type := Loaded {
  ld_module : nat;
  ld_exports : nat;
  ld_SNS : nat;
  ld_imports : imports
}.

Definition load : lio loaded :=
  wrapper <~ module_wrapper ;;
  sns <~ hoist_SNS ;;
  imported <~ body wrapper.1 wrapper.2 sns ;;
  eret (Loaded wrapper.1 wrapper.2 sns imported).

(** [require('./SNS')] where the module has not been loaded: the body runs,
    and what [module.exports] refers to is registered and returned. *)
Definition require_SNS : lio mvalue :=
  ld <~ load ;;
  result <~ read_prop (ld_module ld) "exports" ;;
  run emodify (fun s => Loader (l_objects s) (<["./SNS" := result]> (l_registry s))) ;;
  eret result.

(** * Lemmas *)

(** ** The helper and the imports *)

(** Whether [_interopRequireDefault] takes a value as an ES module. *)
Definition marked (s : loader) (obj : mvalue) : bool :=
  match obj with
  | MPlain v => truthy (js_and v (field v "__esModule"))
  | MRef l =>
      mtruthy (default (MPlain VUndefined)
                 (l_objects s !! l ≫= fun o => o_props o !! "__esModule"))
  end.

(** The store with more objects at its end. *)
Definition grown (s : loader) (more : list object) : loader :=
  Loader (l_objects s ++ more) (l_registry s).

Lemma grown_nil s : grown s [] = s.
Proof. unfold grown. rewrite app_nil_r. by destruct s. Qed.

Lemma grown_grown s l1 l2 : grown (grown s l1) l2 = grown s (l1 ++ l2).
Proof. unfold grown. cbn. by rewrite app_assoc. Qed.

Lemma interopRequireDefault_run obj s :
  interopRequireDefault obj s
  = if marked s obj then (Normal obj, s)
    else (Normal (MRef (length (l_objects s))), grown s [Object None {[ "default" := obj ]}]).
Proof.
  unfold interopRequireDefault, ebind. destruct obj as [v|l]; cbn.
  - unfold js_and. destruct (truthy v) eqn:Hv; cbn; [|by rewrite Hv].
    unfold elift. rewrite get_field by (by apply truthy_loose_neq_null). cbn.
    destruct (truthy (field v "__esModule")); reflexivity.
  - by destruct (mtruthy _).
Qed.

Lemma import_default_present name m s :
  l_registry s !! name = Some m ->
  exists r more, import_default name s = (Normal r, grown s more).
Proof.
  intros Hm. unfold import_default, ebind, require. rewrite Hm, interopRequireDefault_run.
  destruct (marked s m); [exists m, []; by rewrite grown_nil|by eexists _, _].
Qed.

Lemma import_default_missing name s :
  l_registry s !! name = None -> import_default name s = (Throw (module_not_found name), s).
Proof. intros Hm. unfold import_default, ebind, require. by rewrite Hm. Qed.

Lemma ebind_import_default {B} name m (k : mvalue -> lio B) s :
  l_registry s !! name = Some m ->
  exists r more, ebind (import_default name) k s = k r (grown s more).
Proof.
  intros Hm. destruct (import_default_present name m s Hm) as (r & more & Hrun).
  exists r, more. unfold ebind at 1. by rewrite Hrun.
Qed.

Lemma ebind_import_named {B} name m (k : mvalue -> lio B) s :
  l_registry s !! name = Some m -> ebind (import_named name) k s = k m s.
Proof. intros Hm. unfold ebind, import_named, require. by rewrite Hm. Qed.

(** One import whose module is there: the next statement runs in a store
    that has grown. *)
Ltac import_step Hall :=
  lazymatch goal with
  | |- context [ebind (import_default ?name) ?k ?s] =>
      let m := fresh "m" in
      let Hm := fresh "Hm" in
      destruct (Hall name) as [m Hm]; [by repeat constructor|];
      destruct (ebind_import_default name m k s Hm) as (? & ? & ->); cbn beta
  | |- context [ebind (import_named ?name) ?k ?s] =>
      let m := fresh "m" in
      let Hm := fresh "Hm" in
      destruct (Hall name) as [m Hm]; [by repeat constructor|];
      rewrite (ebind_import_named name m k s Hm)
  end.

(** With its six modules in the registry, the imports bind them all; the
    store grows by the wrappers of the modules that are not marked. *)
Lemma imports_lib_present s :
  (forall name, name ∈ required_modules -> is_Some (l_registry s !! name)) ->
  exists imported more, imports_lib s = (Normal imported, grown s more).
Proof.
  intros Hall. unfold imports_lib. repeat import_step Hall.
  eexists _, _. by rewrite !grown_grown.
Qed.

(** The first module that is missing stops the imports with its error. *)
Lemma imports_lib_missing before name after s :
  required_modules = before ++ name :: after ->
  (forall n, n ∈ before -> is_Some (l_registry s !! n)) ->
  l_registry s !! name = None ->
  exists more, imports_lib s = (Throw (module_not_found name), grown s more).
Proof.
  intros Heq Hall Hname. unfold imports_lib, required_modules in *.
  repeat (destruct before as [|? before]; simplify_eq/=;
          [|import_step Hall]).
  all: rewrite ?grown_grown; try by destruct before.
  1: exists []; rewrite grown_nil.
  2-6: eexists.
  1-5: by apply ebind_Throw, import_default_missing.
  unfold ebind, import_named, require. cbn. by rewrite Hname.
Qed.

(** ** The operations on a store that has grown *)

Section grown_store.
Context (s : loader) (more : list object).
Local Notation n := (length (l_objects s)).

Lemma new_object_grown o :
  new_object o (grown s more) = (Normal (n + length more), grown s (more ++ [o])).
Proof. unfold new_object, grown. cbn. by rewrite length_app, app_assoc. Qed.

Lemma write_prop_grown i key v :
  write_prop (n + i) key v (grown s more)
  = (Normal tt, grown s (alter (set_prop key v) i more)).
Proof. unfold write_prop, emodify, grown. cbn. by rewrite alter_app_r. Qed.

Lemma read_prop_grown i key :
  read_prop (n + i) key (grown s more)
  = (Normal (default (MPlain VUndefined) (more !! i ≫= fun o => o_props o !! key)),
     grown s more).
Proof.
  unfold read_prop, grown. cbn. by rewrite lookup_app_r, Nat.add_comm, Nat.add_sub by lia.
Qed.

End grown_store.

(** One statement of the body, run on a store that has grown. *)
Ltac body_step :=
  repeat (rewrite ebind_eret || rewrite ebind_assoc); cbn beta iota delta [fst snd];
  unfold ebind at 1;
  first [rewrite new_object_grown | rewrite write_prop_grown | rewrite read_prop_grown];
  cbn [length alter list_alter lookup list_lookup app fst snd mbind option_bind default
       from_option id o_props o_function set_prop].

(** The objects the body leaves at the end of the store, where the store
    had [n] objects before: what [exports] was bound to, the module record,
    [SNS.prototype], [SNS], the wrappers the imports made, and the function
    assigned to [SNS.prototype.send]. *)
Definition module_objects (n : nat) (wrappers : list object) : list object :=
  [set_prop "default" (MRef (n + 3))
     (set_prop "__esModule" (MPlain (VBool true)) (Object None ∅));
   set_prop "exports" (MRef (n + 3)) (Object None {[ "exports" := MRef (n + 0) ]});
   set_prop "send" (MRef (n + S (S (S (S (length wrappers))))))
     (set_prop "constructor" (MRef (n + 3)) (Object None ∅));
   Object (Some "SNS") {[ "prototype" := MRef (n + 2) ]}]
  ++ wrappers ++ [Object (Some "") ∅].

(** The store after the statements before the imports. *)
Definition before_imports (n : nat) : list object :=
  [set_prop "__esModule" (MPlain (VBool true)) (Object None ∅);
   Object None {[ "exports" := MRef (n + 0) ]};
   set_prop "constructor" (MRef (n + 3)) (Object None ∅);
   Object (Some "SNS") {[ "prototype" := MRef (n + 2) ]}].

Section loading.
Context (s : loader).
Local Notation n := (length (l_objects s)).

(** [load] up to the imports. *)
Lemma load_imports :
  load s
  = ebind imports_lib
      (fun imported =>
         imported <~ (run assign_send (n + 3) ;;
                      run export_SNS (n + 1) (n + 0) (n + 3) ;;
                      eret imported) ;;
         eret (Loaded (n + 1) (n + 0) (n + 3) imported))
      (grown s (before_imports n)).
Proof.
  replace (load s) with (load (grown s [])) by (by rewrite grown_nil).
  unfold load, module_wrapper, hoist_SNS, body, mark_esModule.
  do 6 body_step. by rewrite !ebind_assoc.
Qed.

Lemma load_run :
  (forall name, name ∈ required_modules -> is_Some (l_registry s !! name)) ->
  exists imported wrappers,
    load s = (Normal (Loaded (n + 1) (n + 0) (n + 3) imported),
              grown s (module_objects n wrappers)).
Proof.
  intros Hall. rewrite load_imports.
  destruct (imports_lib_present (grown s (before_imports n)) Hall)
    as (imported & wrappers & Himports).
  rewrite (ebind_Normal _ _ _ _ _ Himports), grown_grown. exists imported, wrappers.
  unfold assign_send, export_SNS, assign_module_exports, export_default, before_imports.
  do 2 body_step. rewrite lookup_singleton_eq. cbn [default from_option id].
  by do 3 body_step.
Qed.

(** A module that is missing stops the body at its [require]: the module
    record and the constructor have been made, nothing has been exported. *)
Lemma load_missing before name after :
  required_modules = before ++ name :: after ->
  (forall m, m ∈ before -> is_Some (l_registry s !! m)) ->
  l_registry s !! name = None ->
  exists wrappers,
    load s = (Throw (module_not_found name), grown s (before_imports n ++ wrappers)).
Proof.
  intros Heq Hall Hname. rewrite load_imports.
  destruct (imports_lib_missing _ _ _ (grown s (before_imports n)) Heq Hall Hname)
    as (wrappers & Himports).
  exists wrappers. by rewrite (ebind_Throw _ _ _ _ _ Himports), grown_grown.
Qed.

End loading.

(** ** [require('./SNS')] *)

Section requiring.
Context (s : loader).
Local Notation n := (length (l_objects s)).

(** All the modules the body requires are in the registry. *)
Definition modules_present : Prop :=
  Forall (fun name => is_Some (l_registry s !! name)) required_modules.

(** The state [require_SNS] leaves. *)
Definition required (wrappers : list object) : loader :=
  Loader (l_objects s ++ module_objects n wrappers)
    (<["./SNS" := MRef (n + 3)]> (l_registry s)).

Lemma require_SNS_run :
  modules_present ->
  exists wrappers, require_SNS s = (Normal (MRef (n + 3)), required wrappers).
Proof.
  intros Hall. destruct (load_run s) as (imported & wrappers & Hload);
    [by apply Forall_forall|].
  exists wrappers. unfold require_SNS. rewrite (ebind_Normal _ _ _ _ _ Hload).
  cbn [ld_module]. unfold module_objects. body_step.
  by rewrite lookup_insert_eq.
Qed.

(** The objects the body has made, after [require_SNS]. *)
Lemma lookup_required wrappers i :
  l_objects (required wrappers) !! (n + i) = module_objects n wrappers !! i.
Proof. cbn. by rewrite lookup_app_r, Nat.add_comm, Nat.add_sub by lia. Qed.

Lemma read_prop_required wrappers i key :
  read_prop (n + i) key (required wrappers)
  = (Normal (default (MPlain VUndefined)
               (module_objects n wrappers !! i ≫= fun o => o_props o !! key)),
     required wrappers).
Proof. unfold read_prop. by rewrite lookup_required. Qed.

End requiring.

Lemma read_prop_new s o more key :
  read_prop (length (l_objects s)) key (grown s (o :: more))
  = (Normal (default (MPlain VUndefined) (o_props o !! key)), grown s (o :: more)).
Proof. by rewrite <- (Nat.add_0_r (length _)), read_prop_grown. Qed.

(** * Theorems *)

Section exports.
Implicit Types (s : loader).
Local Notation n s := (length (l_objects s)).

(** C27: with its six dependencies in the registry, loading the module
    makes [require('./SNS')] the constructor: a function named SNS whose
    prototype holds the constructor and the function assigned to [send];
    the module is registered under its name, and the objects of the other
    modules are where they were. *)
Theorem require_SNS_constructor s :
  modules_present s ->
  exists sns prototype send s',
    require_SNS s = (Normal (MRef sns), s')
    /\ l_registry s' = <["./SNS" := MRef sns]> (l_registry s)
    /\ l_objects s `prefix_of` l_objects s'
    /\ l_objects s' !! sns = Some (Object (Some "SNS") {[ "prototype" := MRef prototype ]})
    /\ read_prop prototype "constructor" s' = (Normal (MRef sns), s')
    /\ read_prop prototype "send" s' = (Normal (MRef send), s')
    /\ o_function <$> l_objects s' !! send = Some (Some "").
Proof.
  intros Hpresent. destruct (require_SNS_run s Hpresent) as (wrappers & Hrun).
  exists (n s + 3), (n s + 2), (n s + S (S (S (S (length wrappers))))), (required s wrappers).
  rewrite !read_prop_required, !lookup_required.
  split_and!; [done|done|by apply prefix_app_r|done|..].
  - cbn. by rewrite lookup_insert_ne, lookup_insert_eq.
  - cbn. by rewrite lookup_insert_eq.
  - change (module_objects (n s) wrappers !! _)
      with ((wrappers ++ [Object (Some "") ∅]) !! length wrappers).
    by rewrite list_lookup_middle.
Qed.

(** C28: after line 144 the variable [exports] and [module.exports] are
    different objects, so line 145 writes [default] where no importer
    looks: what [require('./SNS')] returns has neither a [default] nor an
    [__esModule] property, and the object that has them is not the one
    that is exported. *)
Theorem export_default_unreachable s :
  modules_present s ->
  exists sns exports s',
    require_SNS s = (Normal (MRef sns), s')
    /\ mget (MRef sns) "default" s' = (Normal (MPlain VUndefined), s')
    /\ mget (MRef sns) "__esModule" s' = (Normal (MPlain VUndefined), s')
    /\ exports <> sns
    /\ l_registry s' !! "./SNS" <> Some (MRef exports)
    /\ read_prop exports "default" s' = (Normal (MRef sns), s')
    /\ read_prop exports "__esModule" s' = (Normal (MPlain (VBool true)), s').
Proof.
  intros Hpresent. destruct (require_SNS_run s Hpresent) as (wrappers & Hrun).
  exists (n s + 3), (n s + 0), (required s wrappers). cbn [mget].
  rewrite !read_prop_required. cbn. rewrite lookup_insert_eq.
  split_and!; [done|done|done|lia|intros [=]; lia|by rewrite lookup_insert_eq|].
  by rewrite lookup_insert_ne, lookup_insert_eq.
Qed.

(** C29: exporting and importing give the constructor back: a module that
    imports this one the way this one imports its own dependencies, by
    [_interopRequireDefault(require('./SNS')).default], binds the function
    [require('./SNS')] returns. *)
Theorem import_SNS_default s :
  modules_present s ->
  exists sns s',
    (exported <~ require_SNS ;;
     imported <~ import_default "./SNS" ;;
     constructor <~ mget imported "default" ;;
     eret (exported, constructor)) s
    = (Normal (MRef sns, MRef sns), s').
Proof.
  intros Hpresent. destruct (require_SNS_run s Hpresent) as (wrappers & Hrun).
  exists (n s + 3). eexists. rewrite (ebind_Normal _ _ _ _ _ Hrun).
  unfold import_default, require, ebind at 1 2. cbn [l_registry required].
  rewrite lookup_insert_eq, interopRequireDefault_run.
  assert (marked (required s wrappers) (MRef (n s + 3)) = false) as ->.
  { unfold marked. by rewrite lookup_required. }
  unfold ebind at 1. cbn [mget]. rewrite read_prop_new. cbn [o_props].
  by rewrite lookup_singleton_eq.
Qed.

End exports.

(** When a dependency is missing, [require('./SNS')] throws the
    error of the first [require] that fails, in the order of the source;
    the module is not registered, and the objects of the other modules are
    where they were. *)
Theorem require_SNS_missing s before name after :
  required_modules = before ++ name :: after ->
  Forall (fun m => is_Some (l_registry s !! m)) before ->
  l_registry s !! name = None ->
  exists s',
    require_SNS s = (Throw (module_not_found name), s')
    /\ l_registry s' = l_registry s
    /\ l_objects s `prefix_of` l_objects s'.
Proof.
  intros Heq Hbefore Hname.
  destruct (load_missing s _ _ _ Heq (proj1 (Forall_forall _ _) Hbefore) Hname)
    as (wrappers & Hload).
  eexists. unfold require_SNS. rewrite (ebind_Throw _ _ _ _ _ Hload).
  split_and!; [done..|]. by apply prefix_app_r.
Qed.

(** On a value without identity the helper is the one of [Compiled]: the
    [default] of what it returns is the same. *)
Lemma interopRequireDefault_plain v s :
  exists s',
    (r <~ interopRequireDefault (MPlain v) ;; mget r "default") s
    = (Normal (MPlain (field (_interopRequireDefault v) "default")), s').
Proof.
  unfold ebind at 1. rewrite interopRequireDefault_run. unfold _interopRequireDefault, marked.
  destruct (truthy (js_and v _)) eqn:Hmarked; eexists.
  - unfold js_and in Hmarked. destruct (truthy v) eqn:Hv; [|congruence].
    cbn. unfold elift. by rewrite get_field by (by apply truthy_loose_neq_null).
  - cbn [mget]. rewrite read_prop_new. cbn [o_props]. by rewrite lookup_singleton_eq.
Qed.

(** * Witnesses *)

(** A registry as a deployment has it: [parse] is an ES module, [npmlog]
    and [aws-sdk] are plain objects, [./APNS] and [./GCM] export a
    function each, as this module does, and [./PushAdapterUtils] exports an
    object of functions. *)
Definition demo_loader : loader :=
  Loader [Object (Some "APNS") ∅; Object (Some "GCM") ∅; Object (Some "randomString") ∅;
          Object None {[ "randomString" := MRef 2 ]}]
    (list_to_map
       [("parse", MPlain (VObj [("__esModule", VBool true); ("default", VObj [])]));
        ("npmlog", MPlain (VObj []));
        ("aws-sdk", MPlain (VObj []));
        ("./APNS", MRef 0);
        ("./GCM", MRef 1);
        ("./PushAdapterUtils", MRef 3)]).

(** The same without the AWS SDK. *)
Definition demo_loader_no_sdk : loader :=
  Loader (l_objects demo_loader) (delete "aws-sdk" (l_registry demo_loader)).

Lemma demo_loader_present : modules_present demo_loader.
Proof. unfold modules_present. apply (bool_decide_unpack _). by vm_compute. Qed.

Lemma require_SNS_constructor_witness :
  exists sns prototype send s',
    require_SNS demo_loader = (Normal (MRef sns), s')
    /\ l_registry s' = <["./SNS" := MRef sns]> (l_registry demo_loader)
    /\ l_objects demo_loader `prefix_of` l_objects s'
    /\ l_objects s' !! sns = Some (Object (Some "SNS") {[ "prototype" := MRef prototype ]})
    /\ read_prop prototype "constructor" s' = (Normal (MRef sns), s')
    /\ read_prop prototype "send" s' = (Normal (MRef send), s')
    /\ o_function <$> l_objects s' !! send = Some (Some "").
Proof. exact (require_SNS_constructor demo_loader demo_loader_present). Defined.

Lemma export_default_unreachable_witness :
  exists sns exports s',
    require_SNS demo_loader = (Normal (MRef sns), s')
    /\ mget (MRef sns) "default" s' = (Normal (MPlain VUndefined), s')
    /\ mget (MRef sns) "__esModule" s' = (Normal (MPlain VUndefined), s')
    /\ exports <> sns
    /\ l_registry s' !! "./SNS" <> Some (MRef exports)
    /\ read_prop exports "default" s' = (Normal (MRef sns), s')
    /\ read_prop exports "__esModule" s' = (Normal (MPlain (VBool true)), s').
Proof. exact (export_default_unreachable demo_loader demo_loader_present). Defined.

Lemma import_SNS_default_witness :
  exists sns s',
    (exported <~ require_SNS ;;
     imported <~ import_default "./SNS" ;;
     constructor <~ mget imported "default" ;;
     eret (exported, constructor)) demo_loader
    = (Normal (MRef sns, MRef sns), s').
Proof. exact (import_SNS_default demo_loader demo_loader_present). Defined.

Lemma require_SNS_missing_witness :
  exists s',
    require_SNS demo_loader_no_sdk = (Throw (module_not_found "aws-sdk"), s')
    /\ l_registry s' = l_registry demo_loader_no_sdk
    /\ l_objects demo_loader_no_sdk `prefix_of` l_objects s'.
Proof.
  apply (require_SNS_missing demo_loader_no_sdk ["parse"; "npmlog"] "aws-sdk"
           ["./APNS"; "./GCM"; "./PushAdapterUtils"]);
    [reflexivity|apply (bool_decide_unpack _); by vm_compute|by vm_compute].
Defined.

(** The example, run: the four modules that are not marked as ES modules
    get a wrapper each, and the module is registered as its constructor. *)
Example require_SNS_example :
  exists s',
    require_SNS demo_loader = (Normal (MRef 7), s')
    /\ length (l_objects s') = 13
    /\ l_registry s' !! "./SNS" = Some (MRef 7).
Proof. eexists. split; [by vm_compute|]. split; by vm_compute. Qed.
